(** * GPS vehicle tracker (Raspberry Pi Pico, MicroPython): [main.py]

    A shallow embedding of the tracker firmware and the properties of its
    AT-command transport, SMS protocol and control loop.

    The program talks to two UARTs and a clock.  The hardware is a record
    [Hw]: a millisecond clock, the bytes each serial line will deliver
    (every chunk stamped with its arrival time), the console input, the two
    status LEDs and the log of what happened on the modem line.  Only
    [time.sleep_ms] advances the clock.  Text is handled after
    [decode('utf-8', 'ignore')], which is the identity on the ASCII range of
    the AT protocol, so a chunk is a [string].  Console output ([print]) is
    not part of the model, UART operations do not raise, and the NMEA decoder
    [MicropyGPS] is an interface ([Decoder]) since it is an external library.

    The polling loops are bounded by [time.ticks_diff] tests; they are
    written with a [fuel] counter, and the totality lemmas show which fuel
    lets every call return. *)

From Stdlib Require Import ZArith List String Ascii Bool Lia QArith_base.
From Stdlib Require Import DecimalString.
Import ListNotations.

Local Close Scope Q_scope.
Local Open Scope Z_scope.

(** ** Python string operations *)

Module PyStr.

(** [needle in hay] for [str]. *)
Fixpoint contains (needle hay : string) : bool :=
  match hay with
  | EmptyString => prefix needle EmptyString
  | String _ rest => prefix needle hay || contains needle rest
  end.

(** [if s:] for a [str] (or [None], modelled by the empty text). *)
Definition truthy (s : string) : bool :=
  match s with EmptyString => false | String _ _ => true end.

Definition lower_char (c : ascii) : ascii :=
  let n := nat_of_ascii c in
  if (Nat.leb 65 n && Nat.leb n 90)%bool then ascii_of_nat (n + 32) else c.

(** [s.lower()] on ASCII text. *)
Fixpoint lower (s : string) : string :=
  match s with
  | EmptyString => EmptyString
  | String c rest => String (lower_char c) (lower rest)
  end.

(** Whitespace of [str.strip()]: space, TAB, LF, VT, FF, CR. *)
Definition is_space (c : ascii) : bool :=
  let n := nat_of_ascii c in
  (Nat.eqb n 32 || (Nat.leb 9 n && Nat.leb n 13))%bool.

Fixpoint lstrip (s : string) : string :=
  match s with
  | EmptyString => EmptyString
  | String c rest => if is_space c then lstrip rest else s
  end.

Fixpoint rstrip (s : string) : string :=
  match s with
  | EmptyString => EmptyString
  | String c rest =>
      match rstrip rest with
      | EmptyString => if is_space c then EmptyString else String c EmptyString
      | r => String c r
      end
  end.

Definition strip (s : string) : string := rstrip (lstrip s).

(** [''.join(chunks)]. *)
Definition join (chunks : list string) : string :=
  fold_right append EmptyString chunks.

End PyStr.

Import PyStr.

(** Control characters and the double quote of the AT protocol. *)
Definition CRLF : string := String "013" (String "010" EmptyString).
Definition ESC : string := String "027" EmptyString.
Definition CTRL_Z : string := String "026" EmptyString.
Definition DQUOTE : string := String "034" EmptyString.
Definition NL : string := String "010" EmptyString.

(** ** MicroPython tick arithmetic *)

Definition TICKS_PERIOD : Z := 2 ^ 30.

(** [time.ticks_diff(a, b)]: the signed difference in the ring of ticks. *)
Definition ticks_diff (a b : Z) : Z :=
  (a - b + TICKS_PERIOD / 2) mod TICKS_PERIOD - TICKS_PERIOD / 2.

(** ** Constants of the program *)

Definition ADMIN_NUMBER : string := "+9186********".
Definition LOCATION_INTERVAL_MS : Z := 1 * 60 * 1000.
Definition GSM_CHECK_INTERVAL_MS : Z := 10000.

(** ** The NMEA decoder interface

    What [main.py] uses of a [MicropyGPS] object: [update(char)], the first
    component of [latitude] and [longitude] (decimal degrees or [None]),
    [fix_type], [latitude_string()], [longitude_string()], [date] and
    [timestamp], the text Python prints for a coordinate, and the object
    the constructor returns.  The components of [date] and [timestamp] are
    Python values: the library computes the hour as
    [(int(...) + local_offset) % 24], a [float] when [local_offset] is one,
    as it is in [main.py] (5.5). *)
Inductive pyval : Type :=
| PyNone
| PyInt (n : Z)
| PyFloat (x : Q).

Class Decoder := {
  gps : Type;
  gps_update : gps -> ascii -> gps;
  gps_latitude0 : gps -> option Q;
  gps_longitude0 : gps -> option Q;
  gps_fix_type : gps -> Z;
  gps_latitude_string : gps -> string;
  gps_longitude_string : gps -> string;
  gps_date : gps -> pyval * pyval * pyval;
  gps_timestamp : gps -> pyval * pyval * pyval;
  float_str : Q -> string;
  gps_new : gps
}.

(** ** Hardware and program state *)

(** What is observed on the modem line, in order and stamped with the clock:
    bytes written, chunks read, and the two call records [AtCmd] (an entry
    of [send_at_command]) and [Sms] (an entry of [send_sms]).  No result
    depends on the log. *)
Inductive event : Type :=
| Tx (bytes : string)
| Rx (text : string)
| AtCmd (command : string)
| Sms (number message : string).

(** The board: the clock in ms, the chunks the modem, the GPS receiver and
    the console will deliver with their arrival times, whether
    [import select] succeeds, the two LEDs, and the log. *)
Record Hw : Type := mkHw {
  now : Z;
  gsm_uart_rx : list (Z * string);
  gps_uart_rx : list (Z * string);
  stdin_rx : list (Z * ascii);
  has_select : bool;
  gsm_led : bool;
  gps_led : bool;
  trace : list (Z * event)
}.

(** The text a line holds at time [t], and what is still to come. *)
Definition arrived (t : Z) (rx : list (Z * string)) : string :=
  join (map snd (filter (fun c => fst c <=? t) rx)).

Definition pending (t : Z) (rx : list (Z * string)) : list (Z * string) :=
  filter (fun c => negb (fst c <=? t)) rx.

Arguments arrived : simpl never.
Arguments pending : simpl never.

Section Program.

Context {D : Decoder}.

(** The module-level variables. *)
Record Vars : Type := mkVars {
  gsm_connected : bool;
  gps_fix_acquired : bool;
  gsm_initialized : bool;
  gps_parser : gps;
  last_location_sent_ms : Z;
  last_gsm_check_ms : Z;
  input_buffer : string
}.

Record World : Type := mkWorld { vars : Vars; hw : Hw }.

(** *** The monad of the program: state, and [None] when fuel runs out *)

Definition M (A : Type) : Type := World -> option (A * World).

Definition ret {A} (a : A) : M A := fun w => Some (a, w).

Definition bind {A B} (c : M A) (k : A -> M B) : M B :=
  fun w => match c w with
           | Some (a, w1) => k a w1
           | None => None
           end.

Definition out_of_fuel {A} : M A := fun _ => None.

Notation "x <- c ;; k" := (bind c (fun x => k))
  (at level 61, c at next level, right associativity).
Notation "c ;;; k" := (bind c (fun _ => k))
  (at level 61, right associativity).

Definition get_vars : M Vars := fun w => Some (vars w, w).

Definition upd_hw (f : Hw -> Hw) : M unit :=
  fun w => Some (tt, mkWorld (vars w) (f (hw w))).

Definition upd_vars (f : Vars -> Vars) : M unit :=
  fun w => Some (tt, mkWorld (f (vars w)) (hw w)).

(** *** Primitives *)

Definition log (e : event) : M unit :=
  upd_hw (fun h => mkHw (now h) (gsm_uart_rx h) (gps_uart_rx h) (stdin_rx h)
                        (has_select h) (gsm_led h) (gps_led h)
                        (trace h ++ [(now h, e)])).

(** [time.ticks_ms()]. *)
Definition ticks_ms : M Z := fun w => Some (now (hw w) mod TICKS_PERIOD, w).

(** [time.sleep_ms(d)]. *)
Definition sleep_ms (d : Z) : M unit :=
  upd_hw (fun h => mkHw (now h + Z.max 0 d) (gsm_uart_rx h) (gps_uart_rx h)
                        (stdin_rx h) (has_select h) (gsm_led h) (gps_led h)
                        (trace h)).

(** [gsm_uart.any()]. *)
Definition gsm_any : M bool :=
  fun w => Some (truthy (arrived (now (hw w)) (gsm_uart_rx (hw w))), w).

(** [gsm_uart.read().decode('utf-8', 'ignore')]; the empty text stands for
    [None]. *)
Definition gsm_read : M string :=
  fun w =>
    let h := hw w in
    let text := arrived (now h) (gsm_uart_rx h) in
    Some (text,
          mkWorld (vars w)
            (mkHw (now h) (pending (now h) (gsm_uart_rx h)) (gps_uart_rx h)
                  (stdin_rx h) (has_select h) (gsm_led h) (gps_led h)
                  (trace h ++ [(now h, Rx text)]))).

(** [gsm_uart.write(bytes)]. *)
Definition gsm_write (bytes : string) : M unit := log (Tx bytes).

Definition gps_any : M bool :=
  fun w => Some (truthy (arrived (now (hw w)) (gps_uart_rx (hw w))), w).

Definition gps_read : M string :=
  fun w =>
    let h := hw w in
    Some (arrived (now h) (gps_uart_rx h),
          mkWorld (vars w)
            (mkHw (now h) (gsm_uart_rx h) (pending (now h) (gps_uart_rx h))
                  (stdin_rx h) (has_select h) (gsm_led h) (gps_led h)
                  (trace h))).

Definition gsm_led_on : M unit :=
  upd_hw (fun h => mkHw (now h) (gsm_uart_rx h) (gps_uart_rx h) (stdin_rx h)
                        (has_select h) true (gps_led h) (trace h)).

Definition gps_led_on : M unit :=
  upd_hw (fun h => mkHw (now h) (gsm_uart_rx h) (gps_uart_rx h) (stdin_rx h)
                        (has_select h) (gsm_led h) true (trace h)).

(** *** [send_at_command] *)

(** The [while] loop of [send_at_command]; [response] is still empty when
    the loop body starts, and the first data ends the loop. *)
Fixpoint send_at_wait (fuel : nat) (start_time wait_time_ms max_wait_ms : Z)
  : M string :=
  match fuel with
  | O => out_of_fuel
  | S fuel' =>
      t <- ticks_ms ;;
      if ticks_diff t start_time <? max_wait_ms then
        a <- gsm_any ;;
        if a then
          chunk <- gsm_read ;;
          sleep_ms wait_time_ms ;;;
          a2 <- gsm_any ;;
          if a2 then
            chunk2 <- gsm_read ;;
            ret (chunk ++ chunk2)%string
          else ret chunk
        else
          sleep_ms 100 ;;;
          send_at_wait fuel' start_time wait_time_ms max_wait_ms
      else ret EmptyString
  end.

Definition send_at_command (fuel : nat) (command : string)
    (wait_time_ms max_wait_ms : Z) : M string :=
  log (AtCmd command) ;;;
  a <- gsm_any ;;
  (if a then _ <- gsm_read ;; ret tt else ret tt) ;;;
  gsm_write (command ++ CRLF)%string ;;;
  start_time <- ticks_ms ;;
  send_at_wait fuel start_time wait_time_ms max_wait_ms.

(** *** [check_gsm_module] *)

Definition check_gsm_module (fuel : nat) : M bool :=
  response <- send_at_command fuel "AT" 1000 2000 ;;
  ret (contains "OK" response).

(** *** [send_sms] *)

(** The return statements of [send_sms], in source order.  The Python
    function returns [sms_ok] of them. *)
Inductive SmsOutcome : Type :=
| NotConnected      (* "Cannot send SMS. GSM not connected." *)
| NoPrompt          (* "Failed to get SMS prompt '>'" *)
| SmsSent           (* "SMS sent successfully!" *)
| SmsError          (* "SMS error: ..." *)
| SmsTimeout.       (* "SMS timeout - message may not have been sent" *)

Definition sms_ok (o : SmsOutcome) : bool :=
  match o with SmsSent => true | _ => false end.

(** The loop waiting for the '>' prompt. *)
Fixpoint wait_prompt (fuel : nat) (start_time : Z) (response : string)
  : M bool :=
  match fuel with
  | O => out_of_fuel
  | S fuel' =>
      t <- ticks_ms ;;
      if ticks_diff t start_time <? 5000 then
        a <- gsm_any ;;
        if a then
          chunk <- gsm_read ;;
          if truthy chunk then
            if contains ">" (response ++ chunk) then ret true
            else sleep_ms 50 ;;;
                 wait_prompt fuel' start_time (response ++ chunk)
          else sleep_ms 50 ;;; wait_prompt fuel' start_time response
        else sleep_ms 50 ;;; wait_prompt fuel' start_time response
      else ret false
  end.

(** The loop waiting for the confirmation of the modem. *)
Fixpoint wait_confirmation (fuel : nat) (start_time : Z)
    (confirmation : string) : M SmsOutcome :=
  match fuel with
  | O => out_of_fuel
  | S fuel' =>
      t <- ticks_ms ;;
      if ticks_diff t start_time <? 10000 then
        a <- gsm_any ;;
        if a then
          chunk <- gsm_read ;;
          if truthy chunk then
            if contains "+CMGS:" (confirmation ++ chunk)
               || contains "OK" (confirmation ++ chunk)
            then ret SmsSent
            else if contains "ERROR" (confirmation ++ chunk)
            then ret SmsError
            else sleep_ms 100 ;;;
                 wait_confirmation fuel' start_time (confirmation ++ chunk)
          else sleep_ms 100 ;;;
               wait_confirmation fuel' start_time confirmation
        else sleep_ms 100 ;;; wait_confirmation fuel' start_time confirmation
      else ret SmsTimeout
  end.

Definition cmgs_command (number : string) : string :=
  ("AT+CMGS=" ++ DQUOTE ++ number ++ DQUOTE ++ CRLF)%string.

Definition send_sms (fuel : nat) (number message : string) : M SmsOutcome :=
  log (Sms number message) ;;;
  v <- get_vars ;;
  if negb (gsm_connected v) then ret NotConnected
  else
    _ <- send_at_command fuel "AT+CMGF=1" 500 3000 ;;
    gsm_write (cmgs_command number) ;;;
    start_time <- ticks_ms ;;
    prompt_received <- wait_prompt fuel start_time EmptyString ;;
    if negb prompt_received then
      gsm_write ESC ;;;
      ret NoPrompt
    else
      gsm_write message ;;;
      sleep_ms 100 ;;;
      gsm_write CTRL_Z ;;;
      start_time <- ticks_ms ;;
      wait_confirmation fuel start_time EmptyString.

(** *** GPS helpers *)

Definition nonzero (q : Q) : bool := negb (Qeq_bool q (0 # 1)).

Definition has_valid_gps_data (p : gps) : bool :=
  match gps_latitude0 p, gps_longitude0 p with
  | Some lat, Some lon => nonzero lat && nonzero lon
  | _, _ => false
  end.

(** [str(n)] for an [int]. *)
Definition str_int (n : Z) : string :=
  NilZero.string_of_int (Z.to_int n).

(** The format [{n:02d}]. *)
Definition fmt_02d (n : Z) : string :=
  let s := str_int n in
  if Nat.ltb (String.length s) 2 then ("0" ++ s)%string else s.

(** [int(x)] for a [float]: truncation toward zero. *)
Definition int_of_float (x : Q) : Z := Z.quot (Qnum x) (Zpos (Qden x)).

(** [if x:] for a component of [date]. *)
Definition py_truthy (x : pyval) : bool :=
  match x with
  | PyNone => false
  | PyInt n => negb (n =? 0)
  | PyFloat q => negb (Qeq_bool q (0 # 1))
  end.

(** [x is not None]. *)
Definition is_not_none (x : pyval) : bool :=
  match x with PyNone => false | _ => true end.

Definition is_int (x : pyval) : bool :=
  match x with PyInt _ => true | _ => false end.

(** The replacement field [{x:02d}]: the format code [d] raises for
    anything but an [int]; [None] stands for the exception. *)
Definition format_02d (x : pyval) : option string :=
  match x with
  | PyInt n => Some (fmt_02d n)
  | PyNone | PyFloat _ => None
  end.

(** The replacement field [{int(x):02d}]: [int(None)] raises. *)
Definition format_int_02d (x : pyval) : option string :=
  match x with
  | PyInt n => Some (fmt_02d n)
  | PyFloat q => Some (fmt_02d (int_of_float q))
  | PyNone => None
  end.

(** The f-string inside the [try], its fields evaluated from left to
    right; [None] when one of them raises. *)
Definition format_time (dt ts : pyval * pyval * pyval) : option string :=
  let '(d0, d1, d2) := dt in
  let '(t0, t1, t2) := ts in
  match format_02d d0 with None => None | Some day =>
  match format_02d d1 with None => None | Some month =>
  match format_02d d2 with None => None | Some year =>
  match format_02d t0 with None => None | Some hour =>
  match format_02d t1 with None => None | Some minute =>
  match format_int_02d t2 with None => None | Some second =>
    Some (NL ++ "Time: " ++ day ++ "/" ++ month ++ "/20" ++ year ++ " "
             ++ hour ++ ":" ++ minute ++ ":" ++ second)%string
  end end end end end end.

Definition get_current_location_string (p : gps) : string :=
  if has_valid_gps_data p then
    let lat_str := gps_latitude_string p in
    let lon_str := gps_longitude_string p in
    let lat := match gps_latitude0 p with Some x => float_str x
                                        | None => "None"%string end in
    let lon := match gps_longitude0 p with Some x => float_str x
                                         | None => "None"%string end in
    let ts := gps_timestamp p in
    let dt := gps_date p in
    let timestamp_str :=
      if py_truthy (fst (fst dt)) && is_not_none (fst (fst ts)) then
        match format_time dt ts with
        | Some text => text
        | None => (NL ++ "Time: N/A")%string     (* except: *)
        end
      else (NL ++ "Time: N/A")%string in
    let maps_link :=
      ("http://maps.google.com/maps?q=" ++ lat ++ "," ++ lon)%string in
    ("Location: " ++ lat_str ++ ", " ++ lon_str ++ timestamp_str
       ++ NL ++ "Map: " ++ maps_link)%string
  else "GPS signal not available. Please wait."%string.

(** *** Assignments to the module-level variables *)

Definition with_gsm_connected (b : bool) (v : Vars) : Vars :=
  mkVars b (gps_fix_acquired v) (gsm_initialized v) (gps_parser v)
         (last_location_sent_ms v) (last_gsm_check_ms v) (input_buffer v).

Definition with_gps_fix_acquired (b : bool) (v : Vars) : Vars :=
  mkVars (gsm_connected v) b (gsm_initialized v) (gps_parser v)
         (last_location_sent_ms v) (last_gsm_check_ms v) (input_buffer v).

Definition with_gsm_initialized (b : bool) (v : Vars) : Vars :=
  mkVars (gsm_connected v) (gps_fix_acquired v) b (gps_parser v)
         (last_location_sent_ms v) (last_gsm_check_ms v) (input_buffer v).

Definition with_gps_parser (p : gps) (v : Vars) : Vars :=
  mkVars (gsm_connected v) (gps_fix_acquired v) (gsm_initialized v) p
         (last_location_sent_ms v) (last_gsm_check_ms v) (input_buffer v).

Definition with_last_location_sent_ms (t : Z) (v : Vars) : Vars :=
  mkVars (gsm_connected v) (gps_fix_acquired v) (gsm_initialized v)
         (gps_parser v) t (last_gsm_check_ms v) (input_buffer v).

Definition with_last_gsm_check_ms (t : Z) (v : Vars) : Vars :=
  mkVars (gsm_connected v) (gps_fix_acquired v) (gsm_initialized v)
         (gps_parser v) (last_location_sent_ms v) t (input_buffer v).

Definition with_input_buffer (s : string) (v : Vars) : Vars :=
  mkVars (gsm_connected v) (gps_fix_acquired v) (gsm_initialized v)
         (gps_parser v) (last_location_sent_ms v) (last_gsm_check_ms v) s.

Definition set_gsm_connected (b : bool) : M unit :=
  upd_vars (with_gsm_connected b).

Definition set_gps_fix_acquired (b : bool) : M unit :=
  upd_vars (with_gps_fix_acquired b).

Definition set_gsm_initialized (b : bool) : M unit :=
  upd_vars (with_gsm_initialized b).

Definition set_gps_parser (p : gps) : M unit :=
  upd_vars (with_gps_parser p).

Definition set_last_location_sent_ms (t : Z) : M unit :=
  upd_vars (with_last_location_sent_ms t).

Definition set_last_gsm_check_ms (t : Z) : M unit :=
  upd_vars (with_last_gsm_check_ms t).

Definition set_input_buffer (s : string) : M unit :=
  upd_vars (with_input_buffer s).

(** *** Console input *)

Definition stdin_ready (h : Hw) : bool :=
  match stdin_rx h with
  | (t, _) :: _ => t <=? now h
  | [] => false
  end.

(** [select.select([sys.stdin], [], [], 0)[0]]. *)
Definition select_stdin : M bool := fun w => Some (stdin_ready (hw w), w).

(** [sys.stdin.read(1)], called when a character is ready. *)
Definition stdin_read1 : M string :=
  fun w =>
    let h := hw w in
    match stdin_rx h with
    | (_, c) :: rest =>
        Some (String c EmptyString,
              mkWorld (vars w)
                (mkHw (now h) (gsm_uart_rx h) (gps_uart_rx h) rest
                      (has_select h) (gsm_led h) (gps_led h) (trace h)))
    | [] => Some (EmptyString, w)
    end.

(** *** The main loop, one block per numbered comment of the source *)

(** [for char in data: gps_parser.update(char)]. *)
Definition feed (data : string) (p : gps) : gps :=
  fold_left gps_update (list_ascii_of_string data) p.

(** 1. Process GPS Data: drain the GPS line into the decoder. *)
Definition process_gps_data : M unit :=
  a <- gps_any ;;
  if a then
    data <- gps_read ;;
    v <- get_vars ;;
    set_gps_parser (feed data (gps_parser v))
  else ret tt.

(** The fix-transition check that closes block 1. *)
Definition check_gps_fix (fuel : nat) : M unit :=
  v <- get_vars ;;
  if negb (gps_fix_acquired v) && (gps_fix_type (gps_parser v) >=? 2)
     && has_valid_gps_data (gps_parser v)
  then
    set_gps_fix_acquired true ;;;
    gps_led_on ;;;
    if gsm_connected v then
      _ <- send_sms fuel ADMIN_NUMBER
             "GPS fix acquired. Vehicle tracking active." ;;
      ret tt
    else ret tt
  else ret tt.

(** The three branches the loop takes on the answer to [AT+CREG?]: the
    [if], the [elif], and neither. *)
Inductive RegistrationResult : Type := Registered | Unregistered | Unknown.

Definition creg_status (response : string) : RegistrationResult :=
  if contains "+CREG: 0,1" response || contains "+CREG: 0,5" response
  then Registered
  else if contains "+CREG:" response then Unregistered
  else Unknown.

(** 2. Check GSM Network Connection. *)
Definition check_gsm_network (fuel : nat) (current_time_ms : Z) : M unit :=
  v <- get_vars ;;
  if gsm_initialized v && negb (gsm_connected v) then
    if ticks_diff current_time_ms (last_gsm_check_ms v)
       >=? GSM_CHECK_INTERVAL_MS
    then
      response <- send_at_command fuel "AT+CREG?" 500 2000 ;;
      match creg_status response with
      | Registered =>
          set_gsm_connected true ;;;
          gsm_led_on ;;;
          _ <- send_sms fuel ADMIN_NUMBER
                 "Vehicle Tracking System is online." ;;
          set_last_location_sent_ms current_time_ms
      | Unregistered => ret tt
      | Unknown => ret tt
      end ;;;
      set_last_gsm_check_ms current_time_ms
    else ret tt
  else ret tt.

(** 3. Interval Location Reporting. *)
Definition interval_location_reporting (fuel : nat) (current_time_ms : Z)
  : M unit :=
  v <- get_vars ;;
  if gsm_connected v && gps_fix_acquired v
     && has_valid_gps_data (gps_parser v)
  then
    if ticks_diff current_time_ms (last_location_sent_ms v)
       >=? LOCATION_INTERVAL_MS
    then
      _ <- send_sms fuel ADMIN_NUMBER
             (get_current_location_string (gps_parser v)) ;;
      set_last_location_sent_ms current_time_ms
    else ret tt
  else ret tt.

(** 4. Check for Incoming SMS. *)
Definition check_incoming_sms (fuel : nat) : M unit :=
  a <- gsm_any ;;
  if a then
    response <- gsm_read ;;
    if contains "+CMT:" response then
      if contains "location" (lower response) then
        v <- get_vars ;;
        _ <- send_sms fuel ADMIN_NUMBER
               (get_current_location_string (gps_parser v)) ;;
        ret tt
      else ret tt
    else ret tt
  else ret tt.

(** 5. Check for Console Commands.  [print_debug_report] and the 'l'
    command only print. *)
Definition check_console_commands (fuel : nat) : M unit :=
  fun w =>
    (if has_select (hw w) then
       ready <- select_stdin ;;
       if ready then
         char <- stdin_read1 ;;
         v <- get_vars ;;
         if (char =? NL)%string || (char =? String "013" EmptyString)%string
         then
           let cmd := lower (strip (input_buffer v)) in
           set_input_buffer EmptyString ;;;
           if (cmd =? "x")%string then ret tt
           else if (cmd =? "t")%string then
             _ <- send_sms fuel ADMIN_NUMBER
                    "Test message from Vehicle Tracker" ;;
             ret tt
           else ret tt
         else set_input_buffer (input_buffer v ++ char)%string
       else ret tt
     else ret tt) w.

(** One iteration of [while True:]. *)
Definition tick (fuel : nat) : M unit :=
  current_time_ms <- ticks_ms ;;
  process_gps_data ;;;
  check_gps_fix fuel ;;;
  check_gsm_network fuel current_time_ms ;;;
  interval_location_reporting fuel current_time_ms ;;;
  check_incoming_sms fuel ;;;
  check_console_commands fuel ;;;
  sleep_ms 50.

(** The first [n] iterations of the loop. *)
Fixpoint run (fuel : nat) (n : nat) : M unit :=
  match n with
  | O => ret tt
  | S n' => tick fuel ;;; run fuel n'
  end.

(** *** Initialization *)

Definition power_on (h : Hw) : World :=
  mkWorld (mkVars false false false gps_new 0 0 EmptyString) h.

Definition boot (fuel : nat) : M unit :=
  ok <- check_gsm_module fuel ;;
  set_gsm_initialized ok ;;;
  if ok then
    _ <- send_at_command fuel "ATE0" 500 3000 ;;
    _ <- send_at_command fuel "AT+CMGF=1" 500 3000 ;;
    _ <- send_at_command fuel "AT+CNMI=2,1,0,0,0" 500 3000 ;;
    ret tt
  else ret tt.

(** The program up to the end of the [n]-th iteration. *)
Definition program (fuel : nat) (n : nat) : M unit :=
  boot fuel ;;; run fuel n.

End Program.

(** ** A scripted decoder for concrete runs

    Each character fed to it stands for one sentence: ['A'] a position with
    a 3D fix, ['R'] a position while the fix type is still 1, ['V'] a void
    sentence that clears the position.  Other characters change nothing.
    The clock reads 3 November 2026, 09:05:30.5 UTC; [decoder] adds the
    offset 5.5 of [main.py] to the hour, [utc_decoder] has no offset. *)
Module Scripted.

Record state : Type := mk {
  lat : option Q;
  lon : option Q;
  fixt : Z
}.

Definition update (s : state) (c : ascii) : state :=
  if Ascii.eqb c "A" then mk (Some (2861 # 100)%Q) (Some (7720 # 100)%Q) 3
  else if Ascii.eqb c "R" then mk (Some (2861 # 100)%Q) (Some (7720 # 100)%Q) 1
  else if Ascii.eqb c "V" then mk (Some (0 # 1)%Q) (Some (0 # 1)%Q) (fixt s)
  else s.

Definition float_text (q : Q) : string :=
  if Qeq_bool q (2861 # 100)%Q then "28.61"
  else if Qeq_bool q (7720 # 100)%Q then "77.2"
  else "0.0".

Definition coord_string (x : option Q) (hemisphere : string) : string :=
  match x with
  | Some q => (float_text q ++ " " ++ hemisphere)%string
  | None => "None"
  end.

#[export] Instance decoder : Decoder := {|
  gps := state;
  gps_update := update;
  gps_latitude0 := lat;
  gps_longitude0 := lon;
  gps_fix_type := fixt;
  gps_latitude_string := fun s => coord_string (lat s) "N";
  gps_longitude_string := fun s => coord_string (lon s) "E";
  gps_date := fun _ => (PyInt 3, PyInt 11, PyInt 26);
  gps_timestamp := fun _ => (PyFloat (29 # 2), PyInt 5, PyFloat (61 # 2));
  float_str := float_text;
  gps_new := mk (Some (0 # 1)%Q) (Some (0 # 1)%Q) 1
|}.

Definition utc_decoder : Decoder := {|
  gps := state;
  gps_update := update;
  gps_latitude0 := lat;
  gps_longitude0 := lon;
  gps_fix_type := fixt;
  gps_latitude_string := fun s => coord_string (lat s) "N";
  gps_longitude_string := fun s => coord_string (lon s) "E";
  gps_date := fun _ => (PyInt 3, PyInt 11, PyInt 26);
  gps_timestamp := fun _ => (PyInt 9, PyInt 5, PyFloat (61 # 2));
  float_str := float_text;
  gps_new := mk (Some (0 # 1)%Q) (Some (0 # 1)%Q) 1
|}.

End Scripted.

(** ** Concrete worlds for the scripted decoder *)

Module Sample.

Import Scripted.

(** The decoder after a sentence with a 3D fix. *)
Definition fixed : Scripted.state :=
  Scripted.mk (Some (2861 # 100)%Q) (Some (7720 # 100)%Q) 3.

(** A board whose clock reads [t], with the bytes its lines will deliver. *)
Definition board (t : Z) (gsm gps : list (Z * string))
    (keys : list (Z * ascii)) : Hw :=
  mkHw t gsm gps keys true false false [].

(** Power-on with silent lines. *)
Definition cold : World := power_on (board 0 [] [] []).

(** Registered and with a fix, at time 0, the modem delivering [gsm]. *)
Definition online (gsm : list (Z * string)) : World :=
  mkWorld (mkVars true true true fixed 0 0 EmptyString) (board 0 gsm [] []).

(** A modem that accepts an SMS: prompt at 700 ms, confirmation later. *)
Definition accepting : list (Z * string) :=
  [(120, (CRLF ++ "OK" ++ CRLF)%string);
   (900, (CRLF ++ "> ")%string);
   (2300, (CRLF ++ "+CMGS: 17" ++ CRLF)%string)].

(** The answer of the modem to [AT+CREG?] for a status [stat]. *)
Definition creg_answer (stat : string) : string :=
  (CRLF ++ "+CREG: 0," ++ stat ++ CRLF ++ CRLF ++ "OK" ++ CRLF)%string.

(** A board initialised but not registered, 50 ms before the registration
    check is due: the GPS line delivers [gps], the modem will answer the
    registration query with status [stat] and nothing else. *)
Definition before_check (gps : list (Z * string)) (stat : string) : World :=
  mkWorld (mkVars false false true gps_new 0 0 EmptyString)
          (board 9950 [(10050, creg_answer stat)] gps []).

(** Power-on, the GPS line delivering a position while the fix type is
    still 1. *)
Definition position_without_fix : World :=
  power_on (board 0 [] [(0, "R"%string)] []).

(** Power-on, the GPS line delivering a 3D fix and, 50 ms later, a void
    sentence. *)
Definition fix_then_void : World :=
  power_on (board 0 [] [(0, "A"%string); (50, "V"%string)] []).

(** An unsolicited delivery of an SMS asking for the location. *)
Definition request : string :=
  ("+CMT: +911234567890" ++ CRLF ++ "Send Location please")%string.

(** A board with a fix that is not registered, the request just arrived. *)
Definition asked_offline : World :=
  mkWorld (mkVars false true true fixed 0 0 EmptyString)
          (board 0 [(0, request)] [] []).

(** The same request on a registered board whose modem accepts the SMS. *)
Definition asked_online : World :=
  mkWorld (mkVars true true true fixed 0 0 EmptyString)
          (board 0 ((0, request) :: accepting) [] []).

(** A registered board with a fix whose modem accepts an SMS, the keys of
    the line " T" and its newline waiting on the console. *)
Definition typing : World :=
  mkWorld (mkVars true true true fixed 0 0 EmptyString)
          (board 0 accepting []
             [(0, " "%char); (0, "T"%char); (0, "010"%char)]).

(** A board at power-on whose modem answers the probe. *)
Definition answering : Hw := board 0 accepting [] [].

(** A board initialised but not registered whose registration check is
    due: the GPS line has delivered a 3D fix, the modem will answer the
    registration query with status 1 and deliver a location request
    8600 ms later, and nothing else. *)
Definition registering : World :=
  mkWorld (mkVars false false true gps_new 0 0 EmptyString)
          (board 10000 [(10050, creg_answer "1"); (18600, request)]
                 [(0, "A"%string)] []).

End Sample.

(** ** Vocabulary of the statements *)

(** The calls of [send_sms] recorded in a log, as (number, message). *)
Fixpoint sms_calls (evs : list (Z * event)) : list (string * string) :=
  match evs with
  | [] => []
  | (_, Sms n m) :: rest => (n, m) :: sms_calls rest
  | _ :: rest => sms_calls rest
  end.

(** The byte strings written to the modem recorded in a log. *)
Fixpoint tx_bytes (evs : list (Z * event)) : list string :=
  match evs with
  | [] => []
  | (_, Tx s) :: rest => s :: tx_bytes rest
  | _ :: rest => tx_bytes rest
  end.

(** The commands given to [send_at_command] recorded in a log. *)
Fixpoint at_commands (evs : list (Z * event)) : list string :=
  match evs with
  | [] => []
  | (_, AtCmd c) :: rest => c :: at_commands rest
  | _ :: rest => at_commands rest
  end.

Section Vocabulary.

Context {D : Decoder}.

(** [returns c w Q]: the computation [c] started in [w] returns, with a
    result and a final world that satisfy [Q]. *)
Definition returns {A} (c : M A) (w : World) (Q : A -> World -> Prop)
  : Prop :=
  exists a w', c w = Some (a, w') /\ Q a w'.

(** Chunks read from the modem, as log entries. *)
Definition received (chunks : list (Z * string)) : list (Z * event) :=
  map (fun c => (fst c, Rx (snd c))) chunks.

(** The text the chunks add up to. *)
Definition text_of (chunks : list (Z * string)) : string :=
  join (map snd chunks).

(** [w'] has the module-level variables of [w] and its log extended by
    [evs]. *)
Definition extends (w w' : World) (evs : list (Z * event)) : Prop :=
  vars w' = vars w /\ trace (hw w') = trace (hw w) ++ evs.

(** The log after the first [n] entries. *)
Definition since (w w' : World) : list (Z * event) :=
  skipn (List.length (trace (hw w))) (trace (hw w')).

(** The test of the fix-transition check. *)
Definition fix_due (v : Vars) : bool :=
  negb (gps_fix_acquired v) && (gps_fix_type (gps_parser v) >=? 2)
  && has_valid_gps_data (gps_parser v).

(** The test of the registration check at [current_time_ms]. *)
Definition check_due (current_time_ms : Z) (v : Vars) : bool :=
  gsm_initialized v && negb (gsm_connected v)
  && (ticks_diff current_time_ms (last_gsm_check_ms v)
      >=? GSM_CHECK_INTERVAL_MS).

(** The test of the periodic report at [current_time_ms]. *)
Definition report_due (current_time_ms : Z) (v : Vars) : bool :=
  gsm_connected v && gps_fix_acquired v
  && has_valid_gps_data (gps_parser v)
  && (ticks_diff current_time_ms (last_location_sent_ms v)
      >=? LOCATION_INTERVAL_MS).

(** The test of the reply to an incoming SMS on the chunk read. *)
Definition location_request (chunk : string) : bool :=
  contains "+CMT:" chunk && contains "location" (lower chunk).

(** What holds from a world [w] to any later world [w'] of the loop: the
    log grows, a set [gps_fix_acquired] stays set and its notification is
    not sent again, a set [gsm_connected] stays set and the registration
    check is not run again. *)
Definition latched (w w' : World) : Prop :=
  exists evs,
    trace (hw w') = trace (hw w) ++ evs
    /\ (gps_fix_acquired (vars w) = true ->
        gps_fix_acquired (vars w') = true
        /\ ~ In "GPS fix acquired. Vehicle tracking active."%string
               (map snd (sms_calls evs)))
    /\ (gsm_connected (vars w) = true ->
        gsm_connected (vars w') = true
        /\ last_gsm_check_ms (vars w') = last_gsm_check_ms (vars w)
        /\ forall c, In c (at_commands evs) -> c = "AT+CMGF=1"%string).

(** The decoder and the fix flag are left as they were. *)
Definition gps_frame (w w' : World) : Prop :=
  gps_parser (vars w') = gps_parser (vars w)
  /\ gps_fix_acquired (vars w') = gps_fix_acquired (vars w).

End Vocabulary.

(** The two tests of the confirmation loop of [send_sms]. *)
Definition success_marker (s : string) : bool :=
  contains "+CMGS:" s || contains "OK" s.

Definition error_marker (s : string) : bool := contains "ERROR" s.

(** What the log shows of one [send_at_command command] entered at [t]:
    the call, the stale bytes it discards, the command line, the answer. *)
Definition at_exchange (command : string) (t : Z) (evs : list (Z * event))
    (response : string) : Prop :=
  exists flush rxs,
    evs = (t, AtCmd command) :: received flush
            ++ (t, Tx (command ++ CRLF)%string) :: received rxs
    /\ response = text_of rxs.

(** How the confirmation loop of [send_sms] ends on the chunks [rxs] it
    read after the text [acc]: no marker before the last chunk, and the
    outcome follows the markers of the whole text, success first. *)
Definition confirmed (acc : string) (rxs : list (Z * string))
    (o : SmsOutcome) : Prop :=
  (forall pre suf, rxs = pre ++ suf -> suf <> [] ->
     success_marker (acc ++ text_of pre) = false
     /\ error_marker (acc ++ text_of pre) = false)
  /\ match o with
     | SmsSent => success_marker (acc ++ text_of rxs) = true
     | SmsError => success_marker (acc ++ text_of rxs) = false
                   /\ error_marker (acc ++ text_of rxs) = true
     | SmsTimeout => success_marker (acc ++ text_of rxs) = false
                     /\ error_marker (acc ++ text_of rxs) = false
     | NotConnected | NoPrompt => False
     end.

(** What a step that may call [send_sms] leaves in the log: the calls
    [calls], no AT command but the text-mode setting of [send_sms], and no
    byte written while [connected] is false. *)
Definition sms_log (connected : bool) (calls : list (string * string))
    (evs : list (Z * event)) : Prop :=
  sms_calls evs = calls
  /\ (forall c, In c (at_commands evs) -> c = "AT+CMGF=1"%string)
  /\ (connected = false -> tx_bytes evs = []).

(** The fixed texts of the notifications. *)
Definition FIX_NOTICE : string := "GPS fix acquired. Vehicle tracking active.".
Definition ONLINE_NOTICE : string := "Vehicle Tracking System is online.".
Definition TEST_MESSAGE : string := "Test message from Vehicle Tracker".

(** ** Vocabulary for the rest of the program *)

Section Frames.

Context {D : Decoder}.

(** [ensures c w Q]: whenever [c] started in [w] returns, the result and the
    final world satisfy [Q]. *)
Definition ensures {A} (c : M A) (w : World) (Q : A -> World -> Prop)
  : Prop :=
  forall a w', c w = Some (a, w') -> Q a w'.

(** From [w] to [w'] only the modem line, the log and the clock may have
    changed, and the clock did not go back. *)
Definition modem_frame (w w' : World) : Prop :=
  vars w' = vars w
  /\ gps_uart_rx (hw w') = gps_uart_rx (hw w)
  /\ stdin_rx (hw w') = stdin_rx (hw w)
  /\ has_select (hw w') = has_select (hw w)
  /\ gsm_led (hw w') = gsm_led (hw w)
  /\ gps_led (hw w') = gps_led (hw w)
  /\ now (hw w) <= now (hw w').

(** What every block of the loop keeps, from [w] to [w']: the probe result
    [gsm_initialized], the clock order, each LED showing its flag if it
    did, and a log that grows -- holding nothing but registration queries
    as long as [gsm_connected] is false, and nothing for the modem at all
    when the probe had failed. *)
Definition loop_frame (w w' : World) : Prop :=
  gsm_initialized (vars w') = gsm_initialized (vars w)
  /\ has_select (hw w') = has_select (hw w)
  /\ now (hw w) <= now (hw w')
  /\ (gsm_led (hw w) = gsm_connected (vars w) ->
      gsm_led (hw w') = gsm_connected (vars w'))
  /\ (gps_led (hw w) = gps_fix_acquired (vars w) ->
      gps_led (hw w') = gps_fix_acquired (vars w'))
  /\ exists evs,
      trace (hw w') = trace (hw w) ++ evs
      /\ (gsm_connected (vars w') = false ->
          gsm_connected (vars w) = false
          /\ (forall b, In b (tx_bytes evs) -> b = ("AT+CREG?" ++ CRLF)%string)
          /\ (forall c, In c (at_commands evs) -> c = "AT+CREG?"%string))
      /\ (gsm_initialized (vars w) = false ->
          gsm_connected (vars w) = false ->
          gsm_connected (vars w') = false
          /\ tx_bytes evs = [] /\ at_commands evs = []).

(** The GPS line, the console input and the command buffer are left as
    they were. *)
Definition block_frame (w w' : World) : Prop :=
  gps_uart_rx (hw w') = gps_uart_rx (hw w)
  /\ stdin_rx (hw w') = stdin_rx (hw w)
  /\ input_buffer (vars w') = input_buffer (vars w).

(** The log grew from [w] to [w'] without a call of [send_sms] for the
    test message. *)
Definition no_test_sms (w w' : World) : Prop :=
  exists evs,
    trace (hw w') = trace (hw w) ++ evs
    /\ ~ In (ADMIN_NUMBER, "Test message from Vehicle Tracker"%string)
           (sms_calls evs).

End Frames.

(** The text sent when there is no position. *)
Definition NO_SIGNAL : string := "GPS signal not available. Please wait.".

(** The chunks of a line are listed in the order of their arrival. *)
Fixpoint time_ordered (rx : list (Z * string)) : Prop :=
  match rx with
  | [] => True
  | c :: rest => (forall c', In c' rest -> fst c <= fst c') /\ time_ordered rest
  end.

(** The console block treats the character as the end of a line. *)
Definition is_newline (c : ascii) : bool :=
  ((String c EmptyString =? NL)
   || (String c EmptyString =? String "013" EmptyString))%string.

(** The characters of some key strokes, in order. *)
Definition text_of_keys (keys : list (Z * ascii)) : string :=
  string_of_list_ascii (map snd keys).

(** ** Vocabulary of the modem line *)

(** The text the line [rx] delivers after [t0] and up to [t1]. *)
Definition delivered (t0 t1 : Z) (rx : list (Z * string)) : string :=
  arrived t1 (pending t0 rx).

(** The chunks read from the modem that a log records. *)
Fixpoint reads (evs : list (Z * event)) : list (Z * string) :=
  match evs with
  | [] => []
  | (t, Rx s) :: rest => (t, s) :: reads rest
  | _ :: rest => reads rest
  end.

(** The line [rx] after the reads [chunks]. *)
Fixpoint drain (chunks : list (Z * string)) (rx : list (Z * string))
  : list (Z * string) :=
  match chunks with
  | [] => rx
  | c :: rest => drain rest (pending (fst c) rx)
  end.

(** Each of the reads [chunks], in order, returned the text the line [rx]
    held at its time. *)
Fixpoint reads_line (rx : list (Z * string)) (chunks : list (Z * string))
  : Prop :=
  match chunks with
  | [] => True
  | c :: rest =>
      snd c = arrived (fst c) rx /\ reads_line (pending (fst c) rx) rest
  end.

(** What is read from the line [rx] by [n] polls, [step] ms apart from [t]
    on, each of which reads the line when it holds some text. *)
Fixpoint polled (n : nat) (t step : Z) (rx : list (Z * string))
  : list (Z * string) :=
  match n with
  | O => []
  | S n' =>
      if truthy (arrived t rx)
      then (t, arrived t rx) :: polled n' (t + step) step (pending t rx)
      else polled n' (t + step) step rx
  end.

(** The response to a command entered at [t] on the line [rx], with [q]
    polls 100 ms apart and the settle delay [wt]: empty when the line has
    delivered nothing by the last poll; otherwise what it has delivered by
    the first poll that finds some text, followed by what it delivers
    during the settle delay.  Text that was on the line before [t] is not
    part of it. *)
Definition answers (rx : list (Z * string)) (t wt : Z) (q : nat)
    (response : string) : Prop :=
  (delivered t (t + 100 * Z.of_nat q - 100) rx = EmptyString ->
   response = EmptyString)
  /\ forall k : nat,
      (k < q)%nat ->
      delivered t (t + 100 * Z.of_nat k - 100) rx = EmptyString ->
      delivered t (t + 100 * Z.of_nat k) rx <> EmptyString ->
      response
      = (delivered t (t + 100 * Z.of_nat k) rx
           ++ delivered (t + 100 * Z.of_nat k)
                (t + 100 * Z.of_nat k + Z.max 0 wt) rx)%string.

(** ** Strings *)

Lemma append_nil_r (s : string) : (s ++ "")%string = s.
Proof. induction s as [|c s IH]; simpl; [reflexivity | now rewrite IH]. Qed.

Lemma append_assoc (a b c : string) :
  ((a ++ b) ++ c)%string = (a ++ (b ++ c))%string.
Proof. induction a as [|x a IH]; simpl; [reflexivity | now rewrite IH]. Qed.

Lemma prefix_iff (n h : string) :
  prefix n h = true <-> exists b, h = (n ++ b)%string.
Proof.
  revert h; induction n as [|x n IH]; intros h; destruct h as [|y h]; simpl.
  - split; [intros _; now exists EmptyString | reflexivity].
  - split; [intros _; now exists (String y h) | reflexivity].
  - split; [discriminate | intros [b Hb]; discriminate].
  - destruct (ascii_dec x y) as [->|Hxy].
    + rewrite IH. split; intros [b Hb]; exists b; congruence.
    + split; [discriminate | intros [b Hb]; congruence].
Qed.

(** [contains] is the substring relation. *)
Lemma contains_iff (n h : string) :
  contains n h = true <-> exists a b, h = (a ++ n ++ b)%string.
Proof.
  induction h as [|y h IH]; cbn [contains].
  - rewrite prefix_iff. split.
    + intros [b Hb]. now exists EmptyString, b.
    + intros [a [b Hab]]. destruct a; simpl in Hab; [now exists b|discriminate].
  - rewrite orb_true_iff, IH, prefix_iff. split.
    + intros [[b Hb] | [a [b Hab]]].
      * now exists EmptyString, b.
      * exists (String y a), b. simpl. now rewrite Hab.
    + intros [a [b Hab]]. destruct a as [|x a]; simpl in Hab.
      * left. now exists b.
      * right. exists a, b. congruence.
Qed.

Lemma contains_needle_prefix (n m h : string) :
  contains (n ++ m) h = true -> contains n h = true.
Proof.
  rewrite !contains_iff. intros [a [b H]].
  exists a, (m ++ b)%string. now rewrite H, append_assoc.
Qed.

Lemma contains_empty (n : string) :
  n <> EmptyString -> contains n EmptyString = false.
Proof. destruct n; [congruence | reflexivity]. Qed.

Lemma truthy_false (s : string) : truthy s = false -> s = EmptyString.
Proof. destruct s; [reflexivity | discriminate]. Qed.

(** ** Ticks *)

(** Within half a period, [ticks_diff] of two readings of the clock is the
    time that passed between them. *)
Lemma ticks_diff_elapsed (t d : Z) :
  - (TICKS_PERIOD / 2) <= d < TICKS_PERIOD / 2 ->
  ticks_diff ((t + d) mod TICKS_PERIOD) (t mod TICKS_PERIOD) = d.
Proof.
  intros Hd. unfold ticks_diff.
  assert (HP : 0 < TICKS_PERIOD) by reflexivity.
  assert (Hh : TICKS_PERIOD / 2 = 2 ^ 29) by reflexivity.
  assert (HPv : TICKS_PERIOD = 2 * 2 ^ 29) by reflexivity.
  rewrite (Z.mod_eq (t + d) TICKS_PERIOD), (Z.mod_eq t TICKS_PERIOD) by lia.
  replace (t + d - TICKS_PERIOD * ((t + d) / TICKS_PERIOD)
           - (t - TICKS_PERIOD * (t / TICKS_PERIOD)) + TICKS_PERIOD / 2)
    with (d + TICKS_PERIOD / 2
          + (t / TICKS_PERIOD - (t + d) / TICKS_PERIOD) * TICKS_PERIOD)
    by ring.
  rewrite Z_mod_plus_full, Z.mod_small; lia.
Qed.

(** ** Reasoning about computations *)

Section Properties.

Context {D : Decoder}.

Lemma returns_prim {A} (c : M A) (w : World) (a : A) (w' : World)
    (Q : A -> World -> Prop) :
  c w = Some (a, w') -> Q a w' -> returns c w Q.
Proof. intros Hc HQ. exists a, w'. auto. Qed.

Lemma returns_bind {A B} (c : M A) (k : A -> M B) (w : World)
    (Q : B -> World -> Prop) :
  returns c w (fun a w1 => returns (k a) w1 Q) -> returns (bind c k) w Q.
Proof.
  intros [a [w1 [Hc [b [w2 [Hk HQ]]]]]].
  exists b, w2. split; [|exact HQ]. unfold bind. now rewrite Hc.
Qed.

Lemma returns_weaken {A} (c : M A) (w : World) (Q Q' : A -> World -> Prop) :
  returns c w Q -> (forall a w', Q a w' -> Q' a w') -> returns c w Q'.
Proof. intros [a [w' [Hc HQ]]] HQQ'. exists a, w'. auto. Qed.

Lemma returns_and {A} (c : M A) (w : World) (Q R : A -> World -> Prop) :
  returns c w Q -> returns c w R ->
  returns c w (fun a w' => Q a w' /\ R a w').
Proof.
  intros [a [w' [Hc HQ]]] [a' [w'' [Hc' HR]]].
  exists a, w'. split; [exact Hc|]. split; [exact HQ|]. congruence.
Qed.

Lemma extends_refl (w : World) : extends w w [].
Proof. split; [reflexivity | now rewrite app_nil_r]. Qed.

Lemma extends_trans (w w1 w2 : World) (e1 e2 : list (Z * event)) :
  extends w w1 e1 -> extends w1 w2 e2 -> extends w w2 (e1 ++ e2).
Proof.
  intros [Hv1 Ht1] [Hv2 Ht2]. split; [congruence|].
  now rewrite Ht2, Ht1, app_assoc.
Qed.

Lemma since_extends (w w' : World) (evs : list (Z * event)) :
  extends w w' evs -> since w w' = evs.
Proof.
  intros [_ Ht]. unfold since. rewrite Ht.
  rewrite skipn_app, skipn_all, Nat.sub_diag. reflexivity.
Qed.

(** Run one primitive at the head of a computation. *)
Ltac prim :=
  first [ apply returns_bind; eapply returns_prim; [reflexivity|]
        | eapply returns_prim; [reflexivity|] ].

(** Project the fields of explicit records. *)
Ltac fields :=
  cbn [vars hw now trace gsm_uart_rx gps_uart_rx stdin_rx has_select
       gsm_led gps_led gsm_connected gps_fix_acquired gsm_initialized
       gps_parser last_location_sent_ms last_gsm_check_ms input_buffer].

Ltac fields_all :=
  cbn [vars hw now trace gsm_uart_rx gps_uart_rx stdin_rx has_select
       gsm_led gps_led gsm_connected gps_fix_acquired gsm_initialized
       gps_parser last_location_sent_ms last_gsm_check_ms input_buffer]
    in *.

(** Split on the test of the conditional the computation starts with. *)
Ltac branch H :=
  match goal with
  | |- returns (if ?b then _ else _) _ _ => destruct b eqn:H
  | |- returns (bind (if ?b then _ else _) _) _ _ => destruct b eqn:H
  end.

(** *** [send_at_command] *)

Lemma send_at_wait_returns (fuel : nat) :
  forall (k : nat) (T0 wt mx : Z) (w : World),
    now (hw w) = T0 + 100 * Z.of_nat k ->
    100 * Z.of_nat k < mx + 100 ->
    mx + 100 <= 2 ^ 29 ->
    mx <= 100 * (Z.of_nat k + Z.of_nat fuel - 1) ->
    returns (send_at_wait fuel (T0 mod TICKS_PERIOD) wt mx) w
      (fun r w' => exists rxs,
           extends w w' (received rxs) /\ r = text_of rxs).
Proof.
  induction fuel as [|fuel IH]; intros k T0 wt mx w Hnow Hk Hmx Hfuel.
  - lia.
  - cbn [send_at_wait].
    apply returns_bind. eapply returns_prim; [reflexivity|].
    rewrite Hnow, ticks_diff_elapsed
      by (change (TICKS_PERIOD / 2) with (2 ^ 29); lia).
    destruct (100 * Z.of_nat k <? mx) eqn:Hlt.
    + apply returns_bind. eapply returns_prim; [reflexivity|].
      branch Hany.
      * apply returns_bind. eapply returns_prim; [reflexivity|].
        apply returns_bind. eapply returns_prim; [reflexivity|].
        apply returns_bind. eapply returns_prim; [reflexivity|].
        cbn.
        branch Hany2.
        -- apply returns_bind. eapply returns_prim; [reflexivity|].
           eapply returns_prim; [reflexivity|]. cbn.
           eexists [(_, _); (_, _)]. split; [split|]; cbn.
           ++ reflexivity.
           ++ rewrite <- app_assoc. reflexivity.
           ++ unfold text_of. cbn. now rewrite append_nil_r.
        -- eapply returns_prim; [reflexivity|].
           eexists [(_, _)]. split; [split|]; cbn.
           ++ reflexivity.
           ++ reflexivity.
           ++ unfold text_of. cbn. now rewrite append_nil_r.
      * apply returns_bind. eapply returns_prim; [reflexivity|].
        apply Z.ltb_lt in Hlt.
        eapply returns_weaken.
        -- apply (IH (S k)); fields; lia.
        -- cbn. intros r w' [rxs [[Hv Ht] Hr]]. exists rxs. repeat split; auto.
    + apply Z.ltb_ge in Hlt. eapply returns_prim; [reflexivity|].
      exists []. split; [apply extends_refl | reflexivity].
Qed.

(** Nothing arrives on the modem line from [t0] (excluded) to [t1]
    (excluded). *)
Lemma arrived_gap (rx : list (Z * string)) (t0 t1 T : Z) :
  (forall c, In c rx -> fst c <= t0 \/ t1 <= fst c) ->
  t0 <= T < t1 ->
  arrived T rx = arrived t0 rx.
Proof.
  intros Hgap HT. unfold arrived. f_equal. f_equal.
  apply filter_ext_in. intros c Hc.
  destruct (Hgap c Hc); destruct (Z.leb_spec (fst c) T);
    destruct (Z.leb_spec (fst c) t0); try reflexivity; lia.
Qed.

Lemma arrived_pending_gap (rx : list (Z * string)) (t0 t1 T : Z) :
  (forall c, In c rx -> fst c <= t0 \/ t1 <= fst c) ->
  t0 <= T < t1 ->
  arrived T (pending t0 rx) = EmptyString.
Proof.
  intros Hgap HT. unfold arrived, pending.
  induction rx as [|c rx IH]; [reflexivity|].
  cbn [filter].
  assert (Hc := Hgap c (or_introl eq_refl)).
  assert (Hrx : forall c', In c' rx -> fst c' <= t0 \/ t1 <= fst c')
    by (intros c' Hc'; apply Hgap; now right).
  destruct (Z.leb_spec (fst c) t0); cbn [negb]; [now apply IH|].
  cbn [filter]. destruct (Z.leb_spec (fst c) T); [lia | now apply IH].
Qed.

Lemma send_at_wait_silent (fuel : nat) :
  forall (k : nat) (T0 wt mx : Z) (w : World),
    now (hw w) = T0 + 100 * Z.of_nat k ->
    100 * Z.of_nat k < mx + 100 ->
    mx + 100 <= 2 ^ 29 ->
    mx <= 100 * (Z.of_nat k + Z.of_nat fuel - 1) ->
    (forall T, now (hw w) <= T < T0 + mx ->
               arrived T (gsm_uart_rx (hw w)) = EmptyString) ->
    returns (send_at_wait fuel (T0 mod TICKS_PERIOD) wt mx) w
      (fun r w' => r = EmptyString /\ extends w w' []).
Proof.
  induction fuel as [|fuel IH]; intros k T0 wt mx w Hnow Hk Hmx Hfuel Hq.
  - lia.
  - cbn [send_at_wait]. prim.
    rewrite Hnow, ticks_diff_elapsed
      by (change (TICKS_PERIOD / 2) with (2 ^ 29); lia).
    destruct (100 * Z.of_nat k <? mx) eqn:Hlt.
    + apply Z.ltb_lt in Hlt. prim.
      rewrite (Hq (now (hw w))) by lia. cbn [truthy]. prim.
      eapply returns_weaken.
      * apply (IH (S k)); fields; try lia.
        intros T HT. apply Hq. lia.
      * cbn beta. intros r w' [Hr [Hv Ht]]. repeat split; auto.
    + prim. split; [reflexivity | apply extends_refl].
Qed.

Lemma send_at_command_returns (fuel : nat) (command : string)
    (wt mx : Z) (w : World) :
  -100 < mx -> mx + 100 <= 2 ^ 29 -> mx <= 100 * (Z.of_nat fuel - 1) ->
  returns (send_at_command fuel command wt mx) w
    (fun r w' => exists flush rxs,
         extends w w'
           ((now (hw w), AtCmd command) :: received flush
              ++ (now (hw w), Tx (command ++ CRLF)%string) :: received rxs)
         /\ r = text_of rxs).
Proof.
  intros Hlo Hhi Hfuel. unfold send_at_command, gsm_write.
  prim. prim. branch Hany.
  - prim. prim. prim.
    eapply returns_weaken.
    + apply (send_at_wait_returns fuel 0); fields; lia.
    + cbn beta. intros r w' [rxs [[Hv Ht] Hr]].
      exists [(now (hw w), arrived (now (hw w)) (gsm_uart_rx (hw w)))], rxs.
      split; [split|]; auto.
      revert Ht. fields. intros ->.
      now rewrite <- !app_assoc.
  - prim. prim. prim.
    eapply returns_weaken.
    + apply (send_at_wait_returns fuel 0); fields; lia.
    + cbn beta. intros r w' [rxs [[Hv Ht] Hr]].
      exists [], rxs. split; [split|]; auto.
      revert Ht. fields. intros ->.
      now rewrite <- !app_assoc.
Qed.

Lemma send_at_command_silent (fuel : nat) (command : string)
    (wt mx : Z) (w : World) :
  -100 < mx -> mx + 100 <= 2 ^ 29 -> mx <= 100 * (Z.of_nat fuel - 1) ->
  (forall c, In c (gsm_uart_rx (hw w)) ->
             fst c <= now (hw w) \/ now (hw w) + mx <= fst c) ->
  returns (send_at_command fuel command wt mx) w
    (fun r w' => r = EmptyString).
Proof.
  intros Hlo Hhi Hfuel Hgap. unfold send_at_command, gsm_write.
  prim. prim. branch Hany.
  - prim. prim. prim.
    eapply returns_weaken.
    + apply (send_at_wait_silent fuel 0); fields; try lia.
      intros T HT. eapply arrived_pending_gap; [exact Hgap | lia].
    + cbn beta. intros r w' [Hr _]. exact Hr.
  - prim. prim. prim.
    eapply returns_weaken.
    + apply (send_at_wait_silent fuel 0); fields; try lia.
      intros T HT.
      rewrite (arrived_gap _ (now (hw w)) (now (hw w) + mx)) by (auto; lia).
      revert Hany. fields. apply truthy_false.
    + cbn beta. intros r w' [Hr _]. exact Hr.
Qed.

(** *** [send_sms] *)

Lemma text_of_cons (t : Z) (chunk : string) (rxs : list (Z * string)) :
  text_of ((t, chunk) :: rxs) = (chunk ++ text_of rxs)%string.
Proof. reflexivity. Qed.

Lemma text_of_single (t : Z) (chunk : string) :
  text_of [(t, chunk)] = chunk.
Proof. unfold text_of. cbn. apply append_nil_r. Qed.

Lemma wait_prompt_returns (fuel : nat) :
  forall (k : nat) (T0 : Z) (response : string) (w : World),
    now (hw w) = T0 + 50 * Z.of_nat k ->
    (k <= 100)%nat -> (101 <= k + fuel)%nat ->
    contains ">" response = false ->
    returns (wait_prompt fuel (T0 mod TICKS_PERIOD) response) w
      (fun r w' => exists rxs,
           extends w w' (received rxs)
           /\ (forall c, In c rxs -> now (hw w) <= fst c < T0 + 5000)
           /\ contains ">" (response ++ text_of rxs) = r
           /\ (if r then now (hw w) <= now (hw w') < T0 + 5000
               else now (hw w') = T0 + 5000)).
Proof.
  induction fuel as [|fuel IH]; intros k T0 response w Hnow Hk Hfuel Hresp.
  - lia.
  - cbn [wait_prompt]. prim.
    rewrite Hnow, ticks_diff_elapsed
      by (change (TICKS_PERIOD / 2) with (2 ^ 29); lia).
    destruct (50 * Z.of_nat k <? 5000) eqn:Hlt.
    + apply Z.ltb_lt in Hlt. prim. branch Hany.
      * prim. fields. rewrite Hany.
        branch Hgt.
        -- prim.
           exists [(now (hw w), arrived (now (hw w)) (gsm_uart_rx (hw w)))].
           split; [split; fields; reflexivity|].
           rewrite text_of_single. fields.
           split; [|split].
           ++ intros c [<-|[]]; cbn [fst]; lia.
           ++ exact Hgt.
           ++ lia.
        -- prim. eapply returns_weaken.
           ++ apply (IH (S k)); fields; try lia. exact Hgt.
           ++ cbn beta. fields.
              intros r w' [rxs [[Hv Ht] [Htimes [Hr Hend]]]].
              exists ((now (hw w), arrived (now (hw w)) (gsm_uart_rx (hw w)))
                        :: rxs).
              split; [split; [exact Hv|]|split; [|split]].
              ** rewrite Ht. fields. now rewrite <- app_assoc.
              ** intros c [<-|Hc]; cbn [fst]; [lia|].
                 apply Htimes in Hc. lia.
              ** rewrite text_of_cons, <- append_assoc. exact Hr.
              ** destruct r; [lia | exact Hend].
      * prim. eapply returns_weaken.
        -- apply (IH (S k)); fields; try lia. exact Hresp.
        -- cbn beta. fields.
           intros r w' [rxs [[Hv Ht] [Htimes [Hr Hend]]]].
           exists rxs. split; [split; auto|split; [|split; auto]].
           ++ intros c Hc. apply Htimes in Hc. lia.
           ++ destruct r; [lia | exact Hend].
    + apply Z.ltb_ge in Hlt. prim. exists [].
      split; [apply extends_refl|]. split; [intros c []|]. split; [|lia].
      change (text_of []) with EmptyString.
      now rewrite append_nil_r.
Qed.

Lemma confirmed_nil (acc : string) (o : SmsOutcome) :
  match o with
  | SmsSent => success_marker acc = true
  | SmsError => success_marker acc = false /\ error_marker acc = true
  | SmsTimeout => success_marker acc = false /\ error_marker acc = false
  | NotConnected | NoPrompt => False
  end ->
  confirmed acc [] o.
Proof.
  intros Ho. split.
  - intros pre suf Hsplit Hsuf. symmetry in Hsplit.
    apply app_eq_nil in Hsplit. tauto.
  - change (text_of []) with EmptyString. rewrite append_nil_r. exact Ho.
Qed.

Lemma confirmed_cons (acc : string) (t : Z) (chunk : string)
    (rxs : list (Z * string)) (o : SmsOutcome) :
  success_marker acc = false -> error_marker acc = false ->
  confirmed (acc ++ chunk) rxs o ->
  confirmed acc ((t, chunk) :: rxs) o.
Proof.
  intros Hs He [Hpre Ho]. split.
  - intros pre suf Hsplit Hsuf. destruct pre as [|c pre].
    + change (text_of []) with EmptyString. rewrite append_nil_r. auto.
    + cbn [app] in Hsplit. injection Hsplit as <- Hrest.
      rewrite text_of_cons, <- append_assoc. now apply (Hpre pre suf).
  - rewrite text_of_cons, <- append_assoc. exact Ho.
Qed.

Lemma wait_confirmation_returns (fuel : nat) :
  forall (k : nat) (T0 : Z) (confirmation : string) (w : World),
    now (hw w) = T0 + 100 * Z.of_nat k ->
    (k <= 100)%nat -> (101 <= k + fuel)%nat ->
    success_marker confirmation = false ->
    error_marker confirmation = false ->
    returns (wait_confirmation fuel (T0 mod TICKS_PERIOD) confirmation) w
      (fun o w' => exists rxs,
           extends w w' (received rxs)
           /\ (forall c, In c rxs -> now (hw w) <= fst c < T0 + 10000)
           /\ confirmed confirmation rxs o
           /\ (o = SmsTimeout -> now (hw w') = T0 + 10000)).
Proof.
  induction fuel as [|fuel IH];
    intros k T0 confirmation w Hnow Hk Hfuel Hs He.
  - lia.
  - cbn [wait_confirmation]. prim.
    rewrite Hnow, ticks_diff_elapsed
      by (change (TICKS_PERIOD / 2) with (2 ^ 29); lia).
    destruct (100 * Z.of_nat k <? 10000) eqn:Hlt.
    + apply Z.ltb_lt in Hlt. prim. branch Hany.
      * prim. fields. rewrite Hany.
        set (chunk := arrived (now (hw w)) (gsm_uart_rx (hw w))) in *.
        change (contains "+CMGS:" (confirmation ++ chunk)
                || contains "OK" (confirmation ++ chunk))
          with (success_marker (confirmation ++ chunk)).
        change (contains "ERROR" (confirmation ++ chunk))
          with (error_marker (confirmation ++ chunk)).
        branch Hsucc; [|branch Herr].
        -- prim. exists [(now (hw w), chunk)].
           split; [split; fields; reflexivity|]. fields.
           split; [intros c [<-|[]]; cbn [fst]; lia|].
           split; [|discriminate].
           apply confirmed_cons; auto. now apply confirmed_nil.
        -- prim. exists [(now (hw w), chunk)].
           split; [split; fields; reflexivity|]. fields.
           split; [intros c [<-|[]]; cbn [fst]; lia|].
           split; [|discriminate].
           apply confirmed_cons; auto. now apply confirmed_nil.
        -- prim. eapply returns_weaken.
           ++ apply (IH (S k)); fields; try lia; assumption.
           ++ cbn beta. fields.
              intros o w' [rxs [[Hv Ht] [Htimes [Hconf Hend]]]].
              exists ((now (hw w), chunk) :: rxs).
              split; [split; [exact Hv|]|split; [|split]].
              ** rewrite Ht. fields. now rewrite <- app_assoc.
              ** intros c [<-|Hc]; cbn [fst]; [lia|].
                 apply Htimes in Hc. lia.
              ** now apply confirmed_cons.
              ** exact Hend.
      * prim. eapply returns_weaken.
        -- apply (IH (S k)); fields; try lia; assumption.
        -- cbn beta. fields.
           intros o w' [rxs [[Hv Ht] [Htimes [Hconf Hend]]]].
           exists rxs. split; [split; auto|split; [|split; auto]].
           intros c Hc. apply Htimes in Hc. lia.
    + apply Z.ltb_ge in Hlt. prim. exists [].
      split; [apply extends_refl|]. split; [intros c []|].
      split; [now apply confirmed_nil | lia].
Qed.

(** The log of a [send_sms] that passes its guard. *)
Lemma send_sms_connected (fuel : nat) (number message : string) (w : World) :
  (101 <= fuel)%nat ->
  gsm_connected (vars w) = true ->
  returns (send_sms fuel number message) w
    (fun o w' => exists setup resp t0 prompt rest,
         extends w w'
           ((now (hw w), Sms number message) :: setup
              ++ (t0, Tx (cmgs_command number)) :: received prompt ++ rest)
         /\ at_exchange "AT+CMGF=1" (now (hw w)) setup resp
         /\ (forall c, In c prompt -> t0 <= fst c < t0 + 5000)
         /\ ((contains ">" (text_of prompt) = false
              /\ rest = [(t0 + 5000, Tx ESC)] /\ o = NoPrompt)
             \/ (contains ">" (text_of prompt) = true
                 /\ exists t1 conf,
                     t0 <= t1 < t0 + 5000
                     /\ rest = (t1, Tx message) :: (t1 + 100, Tx CTRL_Z)
                                 :: received conf
                     /\ (forall c, In c conf ->
                                   t1 + 100 <= fst c < t1 + 10100)
                     /\ confirmed EmptyString conf o
                     /\ (o = SmsTimeout -> now (hw w') = t1 + 10100)))).
Proof.
  intros Hfuel Hconn. unfold send_sms, gsm_write.
  prim. prim. fields. rewrite Hconn. cbn [negb].
  apply returns_bind. eapply returns_weaken.
  { apply send_at_command_returns; lia. }
  cbn beta. intros resp w1 [flush [rxs [[Hv1 Ht1] Hresp]]]. fields_all.
  prim. prim.
  apply returns_bind. eapply returns_weaken.
  { apply (wait_prompt_returns fuel 0 (now (hw w1))); fields;
      [lia | lia | lia | reflexivity]. }
  cbn beta.
  intros r w2 [prompt [[Hv2 Ht2] [Htimes [Hr Hend]]]]. fields_all.
  change (("" ++ text_of prompt)%string) with (text_of prompt) in Hr.
  destruct r; cbn [negb].
  - prim. prim. prim. prim.
    eapply returns_weaken.
    { apply (wait_confirmation_returns fuel 0 (now (hw w2) + 100)); fields;
        [lia | lia | lia | reflexivity | reflexivity]. }
    cbn beta.
    intros o w3 [conf [[Hv3 Ht3] [Hctimes [Hconf Htimeout]]]]. fields_all.
    exists ((now (hw w), AtCmd "AT+CMGF=1") :: received flush
              ++ (now (hw w), Tx ("AT+CMGF=1" ++ CRLF)%string)
              :: received rxs), resp, (now (hw w1)), prompt,
      ((now (hw w2), Tx message) :: (now (hw w2) + 100, Tx CTRL_Z)
         :: received conf).
    split; [split|split; [|split]].
    + congruence.
    + rewrite Ht3, Ht2, Ht1.
      repeat (rewrite <- app_assoc; cbn [app]). reflexivity.
    + exists flush, rxs. auto.
    + exact Htimes.
    + right. split; [exact Hr|].
      exists (now (hw w2)), conf.
      split; [lia|]. split; [reflexivity|]. split; [|split].
      * intros c Hc. apply Hctimes in Hc. lia.
      * exact Hconf.
      * intros Ho. rewrite (Htimeout Ho). lia.
  - prim. prim.
    exists ((now (hw w), AtCmd "AT+CMGF=1") :: received flush
              ++ (now (hw w), Tx ("AT+CMGF=1" ++ CRLF)%string)
              :: received rxs), resp, (now (hw w1)), prompt,
      [(now (hw w1) + 5000, Tx ESC)].
    split; [split|split; [|split]].
    + fields. congruence.
    + fields. rewrite Hend, Ht2, Ht1.
      repeat (rewrite <- app_assoc; cbn [app]). reflexivity.
    + exists flush, rxs. auto.
    + exact Htimes.
    + left. auto.
Qed.

(** *** Reading a log *)

Lemma sms_calls_app (a b : list (Z * event)) :
  sms_calls (a ++ b) = sms_calls a ++ sms_calls b.
Proof.
  induction a as [|[t [s|s|c|n m]] a IH]; cbn [app sms_calls]; auto.
  now rewrite IH.
Qed.

Lemma at_commands_app (a b : list (Z * event)) :
  at_commands (a ++ b) = at_commands a ++ at_commands b.
Proof.
  induction a as [|[t [s|s|c|n m]] a IH]; cbn [app at_commands]; auto.
  now rewrite IH.
Qed.

Lemma tx_bytes_app (a b : list (Z * event)) :
  tx_bytes (a ++ b) = tx_bytes a ++ tx_bytes b.
Proof.
  induction a as [|[t [s|s|c|n m]] a IH]; cbn [app tx_bytes]; auto.
  now rewrite IH.
Qed.

Lemma sms_calls_received (rxs : list (Z * string)) :
  sms_calls (received rxs) = [].
Proof. induction rxs as [|c rxs IH]; cbn; auto. Qed.

Lemma at_commands_received (rxs : list (Z * string)) :
  at_commands (received rxs) = [].
Proof. induction rxs as [|c rxs IH]; cbn; auto. Qed.

Lemma tx_bytes_received (rxs : list (Z * string)) :
  tx_bytes (received rxs) = [].
Proof. induction rxs as [|c rxs IH]; cbn; auto. Qed.

Create Rewrite HintDb log.
Hint Rewrite sms_calls_app at_commands_app tx_bytes_app sms_calls_received
  at_commands_received tx_bytes_received app_nil_r : log.

Ltac read_log :=
  repeat (autorewrite with log; cbn [sms_calls at_commands tx_bytes app]).

(** [send_sms] behind its guard: for any fuel it returns at once and only
    the call is recorded. *)
Lemma send_sms_not_connected (fuel : nat) (number message : string)
    (w : World) :
  gsm_connected (vars w) = false ->
  send_sms fuel number message w
  = Some (NotConnected,
          mkWorld (vars w)
            (mkHw (now (hw w)) (gsm_uart_rx (hw w)) (gps_uart_rx (hw w))
                  (stdin_rx (hw w)) (has_select (hw w)) (gsm_led (hw w))
                  (gps_led (hw w))
                  (trace (hw w) ++ [(now (hw w), Sms number message)]))).
Proof.
  intros Hconn. unfold send_sms, bind, log, upd_hw, get_vars. fields.
  now rewrite Hconn.
Qed.

(** What every call of [send_sms] leaves in the log. *)
Lemma send_sms_returns (fuel : nat) (number message : string) (w : World) :
  (101 <= fuel)%nat ->
  returns (send_sms fuel number message) w
    (fun o w' => exists evs,
         extends w w' evs
         /\ sms_log (gsm_connected (vars w)) [(number, message)] evs
         /\ (gsm_connected (vars w) = true ->
             exists rest,
               tx_bytes evs = ("AT+CMGF=1" ++ CRLF)%string
                                :: cmgs_command number :: rest)).
Proof.
  intros Hfuel. destruct (gsm_connected (vars w)) eqn:Hconn.
  - eapply returns_weaken; [now apply send_sms_connected|].
    cbn beta.
    intros o w' [setup [resp [t0 [prompt [rest
      [Hext [[flush [rxs [-> _]]] [_ Hrest]]]]]]]].
    eexists. split; [exact Hext|].
    assert (Hr : sms_calls rest = [] /\ at_commands rest = []).
    { destruct Hrest as [[_ [-> _]] | [_ [t1 [conf [_ [-> _]]]]]];
        read_log; auto. }
    destruct Hr as [Hr1 Hr2]. unfold sms_log. read_log. rewrite Hr1, Hr2.
    split; [split; [reflexivity|split; [|discriminate]]|].
    + intros c [<-|[]]. reflexivity.
    + intros _. eexists. reflexivity.
  - eapply returns_prim; [now apply send_sms_not_connected|].
    eexists. split; [split; fields; reflexivity|]. unfold sms_log. read_log.
    split; [|discriminate].
    split; [reflexivity|]. split; [intros c []|reflexivity].
Qed.

Lemma sms_log_nil (connected : bool) : sms_log connected [] [].
Proof. repeat split. intros c []. Qed.

(** *** The blocks of the main loop *)

Lemma with_gps_parser_same (v : Vars) : with_gps_parser (gps_parser v) v = v.
Proof. now destruct v. Qed.

Lemma feed_empty (p : gps) : feed EmptyString p = p.
Proof. reflexivity. Qed.

Lemma process_gps_data_returns (w : World) :
  returns process_gps_data w
    (fun _ w' =>
       vars w'
       = with_gps_parser
           (feed (arrived (now (hw w)) (gps_uart_rx (hw w)))
                 (gps_parser (vars w)))
           (vars w)
       /\ trace (hw w') = trace (hw w)
       /\ now (hw w') = now (hw w)
       /\ gsm_uart_rx (hw w') = gsm_uart_rx (hw w)
       /\ stdin_rx (hw w') = stdin_rx (hw w)
       /\ has_select (hw w') = has_select (hw w)).
Proof.
  unfold process_gps_data. prim. branch Hany.
  - prim. prim. prim. fields. repeat split.
  - prim. apply truthy_false in Hany. fields_all. rewrite Hany, feed_empty.
    rewrite with_gps_parser_same. repeat split.
Qed.

Lemma check_gps_fix_returns (fuel : nat) (w : World) :
  (101 <= fuel)%nat ->
  returns (check_gps_fix fuel) w
    (fun _ w' =>
       vars w' = (if fix_due (vars w)
                  then with_gps_fix_acquired true (vars w) else vars w)
       /\ exists evs,
           trace (hw w') = trace (hw w) ++ evs
           /\ sms_log (gsm_connected (vars w))
                (if fix_due (vars w) && gsm_connected (vars w)
                 then [(ADMIN_NUMBER, FIX_NOTICE)] else [])
                evs).
Proof.
  intros Hfuel. unfold check_gps_fix. prim. fields.
  change (negb (gps_fix_acquired (vars w))
          && (gps_fix_type (gps_parser (vars w)) >=? 2)
          && has_valid_gps_data (gps_parser (vars w)))
    with (fix_due (vars w)).
  branch Hdue; cbn [andb].
  - prim. prim. branch Hconn.
    + apply returns_bind. eapply returns_weaken.
      { apply send_sms_returns. exact Hfuel. }
      cbn beta. intros o w' [evs [[Hv Ht] [Hlog _]]]. fields_all.
      prim. split; [exact Hv|]. exists evs. split; [exact Ht|].
      revert Hlog. cbn [with_gps_fix_acquired gsm_connected].
      now rewrite Hconn.
    + prim. fields. split; [reflexivity|]. exists [].
      split; [now rewrite app_nil_r | apply sms_log_nil].
  - prim. split; [reflexivity|]. exists [].
    split; [now rewrite app_nil_r | apply sms_log_nil].
Qed.

Lemma check_gsm_network_returns (fuel : nat) (current_time_ms : Z)
    (w : World) :
  (101 <= fuel)%nat ->
  returns (check_gsm_network fuel current_time_ms) w
    (fun _ w' =>
       if check_due current_time_ms (vars w) then
         exists response evs0 evs1,
           at_exchange "AT+CREG?" (now (hw w)) evs0 response
           /\ trace (hw w') = trace (hw w) ++ evs0 ++ evs1
           /\ match creg_status response with
              | Registered =>
                  vars w'
                  = with_last_gsm_check_ms current_time_ms
                      (with_last_location_sent_ms current_time_ms
                         (with_gsm_connected true (vars w)))
                  /\ sms_log true [(ADMIN_NUMBER, ONLINE_NOTICE)] evs1
              | Unregistered | Unknown =>
                  vars w' = with_last_gsm_check_ms current_time_ms (vars w)
                  /\ evs1 = []
              end
       else w' = w).
Proof.
  intros Hfuel. unfold check_gsm_network, check_due. prim. fields.
  destruct (gsm_initialized (vars w) && negb (gsm_connected (vars w)));
    cbn [andb]; [|prim; reflexivity].
  destruct (ticks_diff current_time_ms (last_gsm_check_ms (vars w))
            >=? GSM_CHECK_INTERVAL_MS); [|prim; reflexivity].
  apply returns_bind. eapply returns_weaken.
  { apply send_at_command_returns; lia. }
  cbn beta. intros response w1 [flush [rxs [[Hv1 Ht1] Hresp]]].
  destruct (creg_status response) eqn:Hstatus.
  - apply returns_bind. prim. prim. apply returns_bind.
    eapply returns_weaken.
    { apply send_sms_returns. exact Hfuel. }
    cbn beta. intros o w2 [evs [[Hv2 Ht2] [Hlog _]]]. fields_all.
    prim. prim. fields.
    exists response, ((now (hw w), AtCmd "AT+CREG?") :: received flush
              ++ (now (hw w), Tx ("AT+CREG?" ++ CRLF)%string)
              :: received rxs), evs.
    split; [exists flush, rxs; auto|].
    split; [rewrite Ht2, Ht1; now rewrite <- app_assoc|].
    rewrite Hstatus. split; [now rewrite Hv2, Hv1 | exact Hlog].
  - prim. prim. fields.
    exists response, ((now (hw w), AtCmd "AT+CREG?") :: received flush
              ++ (now (hw w), Tx ("AT+CREG?" ++ CRLF)%string)
              :: received rxs), [].
    split; [exists flush, rxs; auto|].
    split; [rewrite Ht1; now rewrite app_nil_r|].
    rewrite Hstatus. split; [now rewrite Hv1 | reflexivity].
  - prim. prim. fields.
    exists response, ((now (hw w), AtCmd "AT+CREG?") :: received flush
              ++ (now (hw w), Tx ("AT+CREG?" ++ CRLF)%string)
              :: received rxs), [].
    split; [exists flush, rxs; auto|].
    split; [rewrite Ht1; now rewrite app_nil_r|].
    rewrite Hstatus. split; [now rewrite Hv1 | reflexivity].
Qed.

Lemma interval_location_reporting_returns (fuel : nat)
    (current_time_ms : Z) (w : World) :
  (101 <= fuel)%nat ->
  returns (interval_location_reporting fuel current_time_ms) w
    (fun _ w' =>
       vars w' = (if report_due current_time_ms (vars w)
                  then with_last_location_sent_ms current_time_ms (vars w)
                  else vars w)
       /\ exists evs,
           trace (hw w') = trace (hw w) ++ evs
           /\ sms_log (gsm_connected (vars w))
                (if report_due current_time_ms (vars w)
                 then [(ADMIN_NUMBER,
                        get_current_location_string (gps_parser (vars w)))]
                 else [])
                evs).
Proof.
  intros Hfuel. unfold interval_location_reporting, report_due. prim. fields.
  destruct (gsm_connected (vars w) && gps_fix_acquired (vars w)
            && has_valid_gps_data (gps_parser (vars w))); cbn [andb].
  - destruct (ticks_diff current_time_ms (last_location_sent_ms (vars w))
              >=? LOCATION_INTERVAL_MS).
    + apply returns_bind. eapply returns_weaken.
      { apply send_sms_returns. exact Hfuel. }
      cbn beta. intros o w' [evs [[Hv Ht] [Hlog _]]].
      prim. fields. split; [now rewrite Hv|]. now exists evs.
    + prim. split; [reflexivity|]. exists [].
      split; [now rewrite app_nil_r | apply sms_log_nil].
  - prim. split; [reflexivity|]. exists [].
    split; [now rewrite app_nil_r | apply sms_log_nil].
Qed.

Lemma check_incoming_sms_returns (fuel : nat) (w : World) :
  (101 <= fuel)%nat ->
  returns (check_incoming_sms fuel) w
    (fun _ w' =>
       let chunk := arrived (now (hw w)) (gsm_uart_rx (hw w)) in
       vars w' = vars w
       /\ exists evs,
           trace (hw w')
           = trace (hw w)
               ++ (if truthy chunk then [(now (hw w), Rx chunk)] else [])
               ++ evs
           /\ sms_log (gsm_connected (vars w))
                (if truthy chunk && location_request chunk
                 then [(ADMIN_NUMBER,
                        get_current_location_string (gps_parser (vars w)))]
                 else [])
                evs
           /\ (truthy chunk && location_request chunk = true ->
               gsm_connected (vars w) = true ->
               exists rest,
                 tx_bytes evs = ("AT+CMGF=1" ++ CRLF)%string
                                  :: cmgs_command ADMIN_NUMBER :: rest)).
Proof.
  intros Hfuel. unfold check_incoming_sms, location_request. prim. cbn zeta.
  branch Hany; cbn [andb app].
  - prim. fields.
    destruct (contains "+CMT:" (arrived (now (hw w)) (gsm_uart_rx (hw w))));
      cbn [andb].
    + destruct (contains "location"
                  (lower (arrived (now (hw w)) (gsm_uart_rx (hw w))))).
      * prim. apply returns_bind. eapply returns_weaken.
        { apply send_sms_returns. exact Hfuel. }
        cbn beta. intros o w' [evs [[Hv Ht] [Hlog Htx]]]. fields_all.
        prim. split; [exact Hv|]. exists evs.
        split; [now rewrite Ht, <- app_assoc|]. split; [exact Hlog|].
        intros _. exact Htx.
      * prim. fields. split; [reflexivity|]. exists [].
        split; [reflexivity|]. split; [apply sms_log_nil | discriminate].
    + prim. fields. split; [reflexivity|]. exists [].
      split; [reflexivity|]. split; [apply sms_log_nil | discriminate].
  - prim. split; [reflexivity|]. exists [].
    split; [now rewrite app_nil_r|].
    split; [apply sms_log_nil | discriminate].
Qed.

Lemma with_input_buffer_same (v : Vars) :
  with_input_buffer (input_buffer v) v = v.
Proof. now destruct v. Qed.

Lemma check_console_commands_returns (fuel : nat) (w : World) :
  (101 <= fuel)%nat ->
  returns (check_console_commands fuel) w
    (fun _ w' =>
       (exists buffer, vars w' = with_input_buffer buffer (vars w))
       /\ exists evs calls,
           trace (hw w') = trace (hw w) ++ evs
           /\ sms_log (gsm_connected (vars w)) calls evs
           /\ (calls = [] \/ calls = [(ADMIN_NUMBER, TEST_MESSAGE)])).
Proof.
  intros Hfuel.
  assert (Hidle : forall Q : unit -> World -> Prop,
             Q tt w -> returns (ret tt) w Q)
    by (intros Q HQ; now prim).
  assert (Hnone :
    (exists buffer, vars w = with_input_buffer buffer (vars w))
    /\ exists evs calls,
        trace (hw w) = trace (hw w) ++ evs
        /\ sms_log (gsm_connected (vars w)) calls evs
        /\ (calls = [] \/ calls = [(ADMIN_NUMBER, TEST_MESSAGE)])).
  { split; [exists (input_buffer (vars w));
            now rewrite with_input_buffer_same|].
    exists [], []. split; [now rewrite app_nil_r|].
    split; [apply sms_log_nil | now left]. }
  unfold check_console_commands, returns.
  destruct (has_select (hw w)); [|now apply Hidle].
  change (returns
    (bind select_stdin (fun ready =>
       if ready then
         bind stdin_read1 (fun char => bind get_vars (fun v =>
           if ((char =? NL)%string
               || (char =? String "013" EmptyString)%string)
           then
             bind (set_input_buffer EmptyString) (fun _ =>
               if (lower (strip (input_buffer v)) =? "x")%string
               then ret tt
               else if (lower (strip (input_buffer v)) =? "t")%string
               then bind (send_sms fuel ADMIN_NUMBER
                            "Test message from Vehicle Tracker")
                         (fun _ => ret tt)
               else ret tt)
           else set_input_buffer (input_buffer v ++ char)%string))
       else ret tt)) w
    (fun _ w' =>
       (exists buffer, vars w' = with_input_buffer buffer (vars w))
       /\ exists evs calls,
           trace (hw w') = trace (hw w) ++ evs
           /\ sms_log (gsm_connected (vars w)) calls evs
           /\ (calls = [] \/ calls = [(ADMIN_NUMBER, TEST_MESSAGE)]))).
  prim. branch Hready; [|now apply Hidle].
  unfold stdin_ready in Hready.
  destruct (stdin_rx (hw w)) as [|[t c] rest] eqn:Hin; [discriminate|].
  apply returns_bind.
  eapply returns_prim; [unfold stdin_read1; rewrite Hin; reflexivity|].
  prim. fields.
  assert (Hquiet : forall h buffer,
    trace h = trace (hw w) ->
    (exists buffer0,
        vars (mkWorld (with_input_buffer buffer (vars w)) h)
        = with_input_buffer buffer0 (vars w))
    /\ exists evs calls,
        trace (hw (mkWorld (with_input_buffer buffer (vars w)) h))
        = trace (hw w) ++ evs
        /\ sms_log (gsm_connected (vars w)) calls evs
        /\ (calls = [] \/ calls = [(ADMIN_NUMBER, TEST_MESSAGE)])).
  { intros h buffer Hh. split; [now exists buffer|].
    exists [], []. fields. split; [now rewrite app_nil_r|].
    split; [apply sms_log_nil | now left]. }
  branch Hnl.
  - prim. branch Hx; [prim; now apply Hquiet|].
    branch Ht; [|prim; now apply Hquiet].
    apply returns_bind. eapply returns_weaken.
    { apply send_sms_returns. exact Hfuel. }
    cbn beta. intros o w' [evs [[Hv Htr] [Hlog _]]]. fields_all.
    prim. split; [exists EmptyString; exact Hv|].
    exists evs, [(ADMIN_NUMBER, TEST_MESSAGE)].
    split; [exact Htr|]. split; [exact Hlog | now right].
  - prim. now apply Hquiet.
Qed.

(** *** What a tick preserves *)

Lemma latched_refl (w : World) : latched w w.
Proof.
  exists []. split; [now rewrite app_nil_r|].
  split; intros H; repeat split; auto. intros c [].
Qed.

Lemma latched_trans (w w1 w2 : World) :
  latched w w1 -> latched w1 w2 -> latched w w2.
Proof.
  intros [e1 [Ht1 [Hf1 Hc1]]] [e2 [Ht2 [Hf2 Hc2]]].
  exists (e1 ++ e2). split; [now rewrite Ht2, Ht1, app_assoc|]. split.
  - intros H. destruct (Hf1 H) as [H1 Hn1]. destruct (Hf2 H1) as [H2 Hn2].
    split; [exact H2|].
    rewrite sms_calls_app, map_app, in_app_iff. tauto.
  - intros H. destruct (Hc1 H) as [H1 [Hl1 Ha1]].
    destruct (Hc2 H1) as [H2 [Hl2 Ha2]].
    split; [exact H2|]. split; [congruence|].
    intros c. rewrite at_commands_app, in_app_iff. intros [Hc|Hc]; auto.
Qed.

Lemma location_string_not_notice (p : gps) :
  get_current_location_string p <> FIX_NOTICE.
Proof.
  unfold get_current_location_string, FIX_NOTICE.
  destruct (has_valid_gps_data p); [|discriminate].
  cbn [append]. discriminate.
Qed.

(** A step whose variables and log are known is [latched]. *)
Lemma latched_intro (w w' : World) (calls : list (string * string))
    (evs : list (Z * event)) :
  trace (hw w') = trace (hw w) ++ evs ->
  sms_log (gsm_connected (vars w)) calls evs ->
  ~ In FIX_NOTICE (map snd calls) ->
  (gps_fix_acquired (vars w) = true -> gps_fix_acquired (vars w') = true) ->
  (gsm_connected (vars w) = true ->
   gsm_connected (vars w') = true
   /\ last_gsm_check_ms (vars w') = last_gsm_check_ms (vars w)) ->
  latched w w'.
Proof.
  intros Ht [Hcalls [Hat _]] Hn Hf Hc. exists evs. split; [exact Ht|].
  split.
  - intros H. split; [now apply Hf | now rewrite Hcalls].
  - intros H. destruct (Hc H). repeat split; auto.
Qed.

Lemma process_gps_data_keeps (w : World) :
  returns process_gps_data w
    (fun _ w' =>
       latched w w'
       /\ gps_fix_acquired (vars w') = gps_fix_acquired (vars w)
       /\ gps_parser (vars w')
          = feed (arrived (now (hw w)) (gps_uart_rx (hw w)))
                 (gps_parser (vars w))).
Proof.
  eapply returns_weaken; [apply process_gps_data_returns|].
  cbn beta. intros _ w' [Hv [Ht _]].
  rewrite Hv. cbn [with_gps_parser gps_fix_acquired gps_parser].
  split; [|split; reflexivity].
  apply (latched_intro w w' [] []).
  - now rewrite app_nil_r.
  - apply sms_log_nil.
  - intros [].
  - now rewrite Hv.
  - now rewrite Hv.
Qed.

Lemma check_gps_fix_keeps (fuel : nat) (w : World) :
  (101 <= fuel)%nat ->
  returns (check_gps_fix fuel) w
    (fun _ w' =>
       latched w w'
       /\ gps_parser (vars w') = gps_parser (vars w)
       /\ gps_fix_acquired (vars w')
          = gps_fix_acquired (vars w)
            || ((gps_fix_type (gps_parser (vars w)) >=? 2)
                && has_valid_gps_data (gps_parser (vars w)))).
Proof.
  intros Hfuel. eapply returns_weaken; [now apply check_gps_fix_returns|].
  cbn beta. intros _ w' [Hv [evs [Ht Hlog]]]. unfold fix_due in *.
  destruct (gps_fix_acquired (vars w)) eqn:Hacq; cbn [negb andb orb] in *.
  - rewrite Hv. split; [|auto].
    apply (latched_intro w w' [] evs); auto.
    + now rewrite Hv.
    + now rewrite Hv.
  - destruct ((gps_fix_type (gps_parser (vars w)) >=? 2)
              && has_valid_gps_data (gps_parser (vars w))) eqn:Hok;
      rewrite Hv; cbn [with_gps_fix_acquired gps_parser gps_fix_acquired];
      (split; [|auto]).
    + exists evs. split; [exact Ht|]. split; [congruence|].
      intros Hc. destruct Hlog as [_ [Hat _]]. rewrite Hv.
      repeat split; auto.
    + apply (latched_intro w w' [] evs); auto.
      * congruence.
      * now rewrite Hv.
Qed.

Lemma check_gsm_network_keeps (fuel : nat) (current_time_ms : Z)
    (w : World) :
  (101 <= fuel)%nat ->
  returns (check_gsm_network fuel current_time_ms) w
    (fun _ w' => latched w w' /\ gps_frame w w').
Proof.
  intros Hfuel.
  eapply returns_weaken; [now apply check_gsm_network_returns|].
  cbn beta. intros _ w'. unfold check_due.
  destruct (gsm_connected (vars w)) eqn:Hconn;
    [rewrite andb_false_r; cbn [andb]; intros ->;
     split; [apply latched_refl | split; reflexivity]|].
  destruct (gsm_initialized (vars w) && negb false
            && (ticks_diff current_time_ms (last_gsm_check_ms (vars w))
                >=? GSM_CHECK_INTERVAL_MS));
    [|intros ->; split; [apply latched_refl | split; reflexivity]].
  intros [response [evs0 [evs1 [[flush [rxs [-> _]]] [Ht Hcase]]]]].
  assert (Hv : gps_frame w w'
               /\ ~ In FIX_NOTICE (map snd (sms_calls evs1))).
  { unfold gps_frame.
    destruct (creg_status response); destruct Hcase as [-> Hevs].
    - destruct Hevs as [-> _]. split; [split; reflexivity|].
      cbn. intros [H|[]]. discriminate.
    - subst evs1. split; [split; reflexivity|intros []].
    - subst evs1. split; [split; reflexivity|intros []]. }
  destruct Hv as [Hframe Hno]. split; [|exact Hframe].
  eexists. split; [exact Ht|]. split; [|congruence].
  intros Hacq. split; [destruct Hframe; congruence|].
  read_log. exact Hno.
Qed.

Lemma interval_location_reporting_keeps (fuel : nat) (current_time_ms : Z)
    (w : World) :
  (101 <= fuel)%nat ->
  returns (interval_location_reporting fuel current_time_ms) w
    (fun _ w' => latched w w' /\ gps_frame w w').
Proof.
  intros Hfuel.
  eapply returns_weaken; [now apply interval_location_reporting_returns|].
  cbn beta. intros _ w' [Hv [evs [Ht Hlog]]].
  assert (Hframe : vars w' = vars w
                   \/ vars w' = with_last_location_sent_ms current_time_ms
                                   (vars w))
    by (destruct (report_due current_time_ms (vars w)); auto).
  split.
  - eapply latched_intro; eauto.
    + destruct (report_due current_time_ms (vars w)); [|intros []].
      intros [H|[]]. now apply location_string_not_notice in H.
    + intros H. destruct Hframe as [-> | ->]; exact H.
    + intros H. destruct Hframe as [-> | ->]; auto.
  - unfold gps_frame. destruct Hframe as [-> | ->]; split; reflexivity.
Qed.

Lemma check_incoming_sms_keeps (fuel : nat) (w : World) :
  (101 <= fuel)%nat ->
  returns (check_incoming_sms fuel) w
    (fun _ w' => latched w w' /\ gps_frame w w').
Proof.
  intros Hfuel.
  eapply returns_weaken; [now apply check_incoming_sms_returns|].
  cbn beta zeta. intros _ w' [Hv [evs [Ht [Hlog _]]]].
  split; [|unfold gps_frame; rewrite Hv; split; reflexivity].
  destruct Hlog as [Hcalls [Hat Htx]].
  eexists. split; [exact Ht|]. rewrite Hv. split.
  - intros H. split; [exact H|]. read_log.
    replace (sms_calls
               (if truthy (arrived (now (hw w)) (gsm_uart_rx (hw w)))
                then [(now (hw w),
                       Rx (arrived (now (hw w)) (gsm_uart_rx (hw w))))]
                else []))
      with (@nil (string * string)) by (now destruct (truthy _)).
    cbn [app]. rewrite Hcalls.
    destruct (truthy _ && location_request _); [|intros []].
    intros [E|[]]. now apply location_string_not_notice in E.
  - intros H. split; [exact H|]. split; [reflexivity|].
    intros c. read_log.
    replace (at_commands
               (if truthy (arrived (now (hw w)) (gsm_uart_rx (hw w)))
                then [(now (hw w),
                       Rx (arrived (now (hw w)) (gsm_uart_rx (hw w))))]
                else []))
      with (@nil string) by (now destruct (truthy _)).
    cbn [app]. apply Hat.
Qed.

Lemma check_console_commands_keeps (fuel : nat) (w : World) :
  (101 <= fuel)%nat ->
  returns (check_console_commands fuel) w
    (fun _ w' => latched w w' /\ gps_frame w w').
Proof.
  intros Hfuel.
  eapply returns_weaken; [now apply check_console_commands_returns|].
  cbn beta. intros _ w' [[buffer Hv] [evs [calls [Ht [Hlog Hcalls]]]]].
  split; [|unfold gps_frame; rewrite Hv; split; reflexivity].
  eapply latched_intro; eauto.
  - destruct Hcalls as [-> | ->]; [intros []|].
    intros [H|[]]. discriminate.
  - now rewrite Hv.
  - now rewrite Hv.
Qed.

(** One iteration of the loop. *)
Lemma tick_returns (fuel : nat) (w : World) :
  (101 <= fuel)%nat ->
  returns (tick fuel) w
    (fun _ w' =>
       latched w w'
       /\ gps_parser (vars w')
          = feed (arrived (now (hw w)) (gps_uart_rx (hw w)))
                 (gps_parser (vars w))
       /\ gps_fix_acquired (vars w')
          = gps_fix_acquired (vars w)
            || ((gps_fix_type (gps_parser (vars w')) >=? 2)
                && has_valid_gps_data (gps_parser (vars w')))).
Proof.
  intros Hfuel. unfold tick. prim.
  apply returns_bind. eapply returns_weaken; [apply process_gps_data_keeps|].
  cbn beta. intros _ w1 [L1 [A1 P1]].
  apply returns_bind.
  eapply returns_weaken; [now apply check_gps_fix_keeps|].
  cbn beta. intros _ w2 [L2 [P2 A2]].
  apply returns_bind.
  eapply returns_weaken; [now apply check_gsm_network_keeps|].
  cbn beta. intros _ w3 [L3 [P3 A3]].
  apply returns_bind.
  eapply returns_weaken; [now apply interval_location_reporting_keeps|].
  cbn beta. intros _ w4 [L4 [P4 A4]].
  apply returns_bind.
  eapply returns_weaken; [now apply check_incoming_sms_keeps|].
  cbn beta. intros _ w5 [L5 [P5 A5]].
  apply returns_bind.
  eapply returns_weaken; [now apply check_console_commands_keeps|].
  cbn beta. intros _ w6 [L6 [P6 A6]].
  prim. fields.
  assert (L : latched w w6)
    by (repeat (eapply latched_trans; [eassumption|]); apply latched_refl).
  split; [|split].
  - destruct L as [evs L]. exists evs. exact L.
  - congruence.
  - rewrite P6, P5, P4, P3, P2, A6, A5, A4, A3, A2, A1. reflexivity.
Qed.

Lemma run_latched (fuel : nat) (n : nat) :
  (101 <= fuel)%nat ->
  forall w, returns (run fuel n) w (fun _ w' => latched w w').
Proof.
  intros Hfuel. induction n as [|n IH]; intros w; cbn [run].
  - prim. apply latched_refl.
  - apply returns_bind. eapply returns_weaken; [now apply tick_returns|].
    cbn beta. intros _ w1 [L1 _].
    eapply returns_weaken; [apply IH|].
    cbn beta. intros _ w2 L2. eapply latched_trans; eassumption.
Qed.

Lemma since_app (w w' : World) (evs : list (Z * event)) :
  trace (hw w') = trace (hw w) ++ evs -> since w w' = evs.
Proof.
  intros Ht. unfold since. rewrite Ht.
  rewrite skipn_app, skipn_all, Nat.sub_diag. reflexivity.
Qed.

(** ** The modem line *)

Lemma append_empty (a b : string) :
  (a ++ b)%string = EmptyString <-> a = EmptyString /\ b = EmptyString.
Proof.
  destruct a; cbn [append]; split.
  - intros ->. auto.
  - intros [_ ->]. reflexivity.
  - discriminate.
  - intros [E _]. discriminate E.
Qed.

Lemma join_cons (a : string) (l : list string) :
  join (a :: l) = (a ++ join l)%string.
Proof. reflexivity. Qed.

(** A line holds no text at [t] when every chunk that has arrived is
    empty. *)
Lemma arrived_empty_iff (t : Z) (rx : list (Z * string)) :
  arrived t rx = EmptyString
  <-> forall c, In c rx -> fst c <= t -> snd c = EmptyString.
Proof.
  unfold arrived. induction rx as [|c rx IH]; cbn [filter].
  - split; [intros _ c [] | reflexivity].
  - destruct (Z.leb_spec (fst c) t) as [Hc|Hc].
    + cbn [map join fold_right].
      change (fold_right append EmptyString
                (map snd (filter (fun c0 => fst c0 <=? t) rx)))
        with (join (map snd (filter (fun c0 => fst c0 <=? t) rx))).
      rewrite append_empty, IH. split.
      * intros [H1 H2] c' [<-|Hin] Hle; auto.
      * intros H. split; [apply H; [now left | exact Hc]|].
        intros c' Hin. apply H. now right.
    + rewrite IH. split.
      * intros H c' [<-|Hin] Hle; [lia | auto].
      * intros H c' Hin. apply H. now right.
Qed.

Lemma arrived_empty_before (t t' : Z) (rx : list (Z * string)) :
  arrived t rx = EmptyString -> t' <= t -> arrived t' rx = EmptyString.
Proof.
  rewrite !arrived_empty_iff. intros H Hle c Hin Hc. apply H; [exact Hin|lia].
Qed.

Lemma pending_pending (t0 t1 : Z) (rx : list (Z * string)) :
  t0 <= t1 -> pending t1 (pending t0 rx) = pending t1 rx.
Proof.
  intros Hle. unfold pending. induction rx as [|c rx IH]; [reflexivity|].
  cbn [filter].
  destruct (Z.leb_spec (fst c) t0) as [H0|H0]; cbn [negb].
  - destruct (Z.leb_spec (fst c) t1) as [H1|H1]; cbn [negb]; [exact IH|lia].
  - cbn [filter]. destruct (Z.leb_spec (fst c) t1); cbn [negb];
      [exact IH | now rewrite IH].
Qed.

(** Chunks without text make no difference to what a line holds. *)
Lemma arrived_pending_empty (t T : Z) (rx : list (Z * string)) :
  arrived t rx = EmptyString -> arrived T (pending t rx) = arrived T rx.
Proof.
  rewrite arrived_empty_iff. unfold arrived, pending.
  induction rx as [|c rx IH]; intros H; [reflexivity|].
  assert (Hrx : forall c', In c' rx -> fst c' <= t -> snd c' = EmptyString)
    by (intros c' Hin; apply H; now right).
  cbn [filter].
  destruct (Z.leb_spec (fst c) t) as [H0|H0]; cbn [negb].
  - rewrite (IH Hrx).
    destruct (Z.leb_spec (fst c) T); [|reflexivity].
    cbn [map join fold_right]. rewrite (H c (or_introl eq_refl) H0).
    reflexivity.
  - cbn [filter]. destruct (Z.leb_spec (fst c) T); [|exact (IH Hrx)].
    cbn [map]. rewrite !join_cons. now rewrite (IH Hrx).
Qed.

(** The answer of the polling loop of [send_at_command] as a function of
    the line. *)
Lemma send_at_wait_answer (fuel : nat) :
  forall (k q : nat) (T0 wt : Z) (w : World),
    now (hw w) = T0 + 100 * Z.of_nat k ->
    (k <= q)%nat ->
    100 * Z.of_nat q + 100 <= 2 ^ 29 ->
    (q < k + fuel)%nat ->
    (forall j : nat, (j < k)%nat ->
       arrived (T0 + 100 * Z.of_nat j) (gsm_uart_rx (hw w)) = EmptyString) ->
    returns (send_at_wait fuel (T0 mod TICKS_PERIOD) wt (100 * Z.of_nat q)) w
      (fun r w' =>
         (arrived (T0 + 100 * Z.of_nat q - 100) (gsm_uart_rx (hw w))
          = EmptyString -> r = EmptyString)
         /\ forall j : nat,
             (j < q)%nat ->
             arrived (T0 + 100 * Z.of_nat j - 100) (gsm_uart_rx (hw w))
             = EmptyString ->
             arrived (T0 + 100 * Z.of_nat j) (gsm_uart_rx (hw w))
             <> EmptyString ->
             r = (arrived (T0 + 100 * Z.of_nat j) (gsm_uart_rx (hw w))
                    ++ arrived (T0 + 100 * Z.of_nat j + Z.max 0 wt)
                         (pending (T0 + 100 * Z.of_nat j)
                            (gsm_uart_rx (hw w))))%string).
Proof.
  induction fuel as [|fuel IH]; intros k q T0 wt w Hnow Hk Hq Hfuel Hnone.
  - lia.
  - cbn [send_at_wait]. prim.
    rewrite Hnow, ticks_diff_elapsed
      by (change (TICKS_PERIOD / 2) with (2 ^ 29); lia).
    destruct (100 * Z.of_nat k <? 100 * Z.of_nat q) eqn:Hlt.
    + apply Z.ltb_lt in Hlt. prim. branch Hany.
      * prim. prim. prim. fields. rewrite Hnow in *.
        set (rx := gsm_uart_rx (hw w)) in *.
        set (tk := T0 + 100 * Z.of_nat k) in *.
        assert (Hsome : arrived tk rx <> EmptyString)
          by (intros E; rewrite E in Hany; discriminate Hany).
        assert (Hr : forall r,
                   r = (arrived tk rx
                          ++ arrived (tk + Z.max 0 wt) (pending tk rx))%string
                   -> (arrived (T0 + 100 * Z.of_nat q - 100) rx = EmptyString
                       -> r = EmptyString)
                      /\ forall j : nat,
                          (j < q)%nat ->
                          arrived (T0 + 100 * Z.of_nat j - 100) rx
                          = EmptyString ->
                          arrived (T0 + 100 * Z.of_nat j) rx <> EmptyString ->
                          r = (arrived (T0 + 100 * Z.of_nat j) rx
                                 ++ arrived
                                      (T0 + 100 * Z.of_nat j + Z.max 0 wt)
                                      (pending (T0 + 100 * Z.of_nat j) rx))
                                %string).
        { intros r ->. split.
          - intros E. exfalso. apply Hsome.
            apply (arrived_empty_before _ _ _ E). unfold tk. lia.
          - intros j Hj Eprev Ecur.
            destruct (Nat.lt_trichotomy j k) as [Hjk|[->|Hjk]].
            + exfalso. apply Ecur. now apply Hnone.
            + reflexivity.
            + exfalso. apply Hsome.
              apply (arrived_empty_before _ _ _ Eprev). unfold tk. lia. }
        branch Hany2.
        -- prim. prim. apply Hr. fields. reflexivity.
        -- prim. apply Hr. fields_all.
           apply truthy_false in Hany2. rewrite Hany2.
           now rewrite append_nil_r.
      * prim. eapply returns_weaken.
        -- apply (IH (S k) q T0 wt); fields; try lia.
           intros j Hj. destruct (Nat.eq_dec j k) as [->|Hne].
           ++ rewrite <- Hnow. apply truthy_false. exact Hany.
           ++ apply Hnone. lia.
        -- cbn beta. fields. tauto.
    + apply Z.ltb_ge in Hlt. prim.
      split; [reflexivity|]. intros j Hj _ Ecur.
      exfalso. apply Ecur. apply Hnone. lia.
Qed.

(** The response of [send_at_command] is fixed by the line. *)
Lemma send_at_command_answer (fuel : nat) (command : string) (wt : Z)
    (q : nat) (w : World) :
  100 * Z.of_nat q + 100 <= 2 ^ 29 ->
  (q < fuel)%nat ->
  returns (send_at_command fuel command wt (100 * Z.of_nat q)) w
    (fun r w' => answers (gsm_uart_rx (hw w)) (now (hw w)) wt q r).
Proof.
  intros Hq Hfuel. unfold send_at_command, gsm_write.
  prim. prim. branch Hany.
  - prim. prim. prim.
    eapply returns_weaken.
    + apply (send_at_wait_answer fuel 0 q (now (hw w))); fields; try lia.
    + cbn beta. fields. intros r w' [H1 H2]. split; [exact H1|].
      intros k Hk Eprev Ecur. unfold delivered in *.
      rewrite (H2 k Hk Eprev Ecur).
      rewrite pending_pending by lia. reflexivity.
  - prim. prim. prim. fields_all. apply truthy_false in Hany.
    eapply returns_weaken.
    + apply (send_at_wait_answer fuel 0 q (now (hw w))); fields; try lia.
    + cbn beta. fields. intros r w' [H1 H2]. unfold answers, delivered.
      split.
      * rewrite (arrived_pending_empty _ _ _ Hany). exact H1.
      * intros k Hk. rewrite !(arrived_pending_empty _ _ _ Hany).
        apply H2. exact Hk.
Qed.

(** *** Reads of the line in a log *)

Lemma reads_app (a b : list (Z * event)) :
  reads (a ++ b) = reads a ++ reads b.
Proof.
  induction a as [|[t [x|x|c|n m]] a IH]; cbn [app reads]; auto.
  now rewrite IH.
Qed.

Lemma reads_received (rxs : list (Z * string)) : reads (received rxs) = rxs.
Proof.
  induction rxs as [|[t x] rxs IH]; [reflexivity|].
  cbn [received map reads fst snd]. f_equal. exact IH.
Qed.

Lemma drain_app (a b rx : list (Z * string)) :
  drain (a ++ b) rx = drain b (drain a rx).
Proof.
  revert rx. induction a as [|c a IH]; intros rx; cbn [app drain]; auto.
Qed.

Lemma reads_line_app (rx a b : list (Z * string)) :
  reads_line rx (a ++ b) <-> reads_line rx a /\ reads_line (drain a rx) b.
Proof.
  revert rx. induction a as [|c a IH]; intros rx; cbn [app reads_line drain].
  - tauto.
  - rewrite IH. tauto.
Qed.

(** What the polls of a loop read are reads of the line. *)
Lemma polled_reads_line (n : nat) :
  forall (t step : Z) (rx rxs more : list (Z * string)),
    polled n t step rx = rxs ++ more -> reads_line rx rxs.
Proof.
  induction n as [|n IH]; intros t step rx rxs more H; cbn [polled] in H.
  - symmetry in H. apply app_eq_nil in H. destruct H as [-> _]. exact I.
  - destruct (truthy (arrived t rx)).
    + destruct rxs as [|c rxs]; [exact I|].
      cbn [app] in H. injection H as <- H.
      cbn [reads_line fst snd]. split; [reflexivity|].
      exact (IH _ _ _ _ _ H).
    + exact (IH _ _ _ _ _ H).
Qed.

Hint Rewrite reads_app reads_received : log.

(** The reads of the polling loop of [send_at_command]. *)
Lemma send_at_wait_reads (fuel : nat) :
  forall (k : nat) (T0 wt mx : Z) (w : World),
    now (hw w) = T0 + 100 * Z.of_nat k ->
    100 * Z.of_nat k < mx + 100 ->
    mx + 100 <= 2 ^ 29 ->
    mx <= 100 * (Z.of_nat k + Z.of_nat fuel - 1) ->
    returns (send_at_wait fuel (T0 mod TICKS_PERIOD) wt mx) w
      (fun r w' => exists rxs,
           extends w w' (received rxs) /\ r = text_of rxs
           /\ reads_line (gsm_uart_rx (hw w)) rxs
           /\ gsm_uart_rx (hw w') = drain rxs (gsm_uart_rx (hw w))
           /\ now (hw w) <= now (hw w')).
Proof.
  induction fuel as [|fuel IH]; intros k T0 wt mx w Hnow Hk Hmx Hfuel.
  - lia.
  - cbn [send_at_wait]. prim.
    rewrite Hnow, ticks_diff_elapsed
      by (change (TICKS_PERIOD / 2) with (2 ^ 29); lia).
    destruct (100 * Z.of_nat k <? mx) eqn:Hlt.
    + prim. branch Hany.
      * prim. prim. prim. fields.
        set (chunk := arrived (now (hw w)) (gsm_uart_rx (hw w))) in *.
        branch Hany2.
        -- prim. prim.
           set (chunk2 := arrived _ _).
           exists [(now (hw w), chunk); (now (hw w) + Z.max 0 wt, chunk2)].
           split; [split; fields; [reflexivity|]|].
           { rewrite <- app_assoc. reflexivity. }
           split; [now rewrite text_of_cons, text_of_single|].
           cbn [reads_line drain fst snd]. fields.
           repeat split; lia.
        -- prim. exists [(now (hw w), chunk)].
           split; [split; fields; reflexivity|].
           split; [now rewrite text_of_single|].
           cbn [reads_line drain fst snd]. fields.
           repeat split; lia.
      * prim. apply Z.ltb_lt in Hlt. eapply returns_weaken.
        -- apply (IH (S k)); fields; lia.
        -- cbn beta. fields. intros r w' [rxs [[Hv Ht] [H1 [H2 [H3 H4]]]]].
           exists rxs. split; [split; auto|].
           split; [exact H1|]. split; [exact H2|]. split; [exact H3|]. lia.
    + prim. exists [].
      split; [apply extends_refl|]. split; [reflexivity|].
      cbn [reads_line drain]. repeat split; lia.
Qed.

Lemma send_at_command_reads (fuel : nat) (command : string)
    (wt mx : Z) (w : World) :
  -100 < mx -> mx + 100 <= 2 ^ 29 -> mx <= 100 * (Z.of_nat fuel - 1) ->
  returns (send_at_command fuel command wt mx) w
    (fun r w' => exists flush rxs,
         extends w w'
           ((now (hw w), AtCmd command) :: received flush
              ++ (now (hw w), Tx (command ++ CRLF)%string) :: received rxs)
         /\ r = text_of rxs
         /\ reads_line (gsm_uart_rx (hw w)) (flush ++ rxs)
         /\ gsm_uart_rx (hw w') = drain (flush ++ rxs) (gsm_uart_rx (hw w))
         /\ now (hw w) <= now (hw w')).
Proof.
  intros Hlo Hhi Hfuel. unfold send_at_command, gsm_write.
  prim. prim. branch Hany.
  - prim. prim. prim.
    eapply returns_weaken.
    + apply (send_at_wait_reads fuel 0); fields; lia.
    + cbn beta. fields.
      intros r w' [rxs [[Hv Ht] [Hr [Hline [Hrx Hnow]]]]].
      exists [(now (hw w), arrived (now (hw w)) (gsm_uart_rx (hw w)))], rxs.
      split; [split; [exact Hv|]|].
      { rewrite Ht. fields. now rewrite <- !app_assoc. }
      split; [exact Hr|].
      cbn [app reads_line drain fst snd]. auto.
  - prim. prim. prim.
    eapply returns_weaken.
    + apply (send_at_wait_reads fuel 0); fields; lia.
    + cbn beta. fields.
      intros r w' [rxs [[Hv Ht] [Hr [Hline [Hrx Hnow]]]]].
      exists [], rxs.
      split; [split; [exact Hv|]|].
      { rewrite Ht. fields. now rewrite <- !app_assoc. }
      split; [exact Hr|]. cbn [app]. auto.
Qed.

(** The prompt loop of [send_sms], poll by poll. *)
Lemma wait_prompt_polls (fuel : nat) :
  forall (k : nat) (T0 : Z) (response : string) (w : World),
    now (hw w) = T0 + 50 * Z.of_nat k ->
    (k <= 100)%nat -> (101 <= k + fuel)%nat ->
    contains ">" response = false ->
    returns (wait_prompt fuel (T0 mod TICKS_PERIOD) response) w
      (fun r w' => exists rxs more,
           extends w w' (received rxs)
           /\ polled (100 - k) (now (hw w)) 50 (gsm_uart_rx (hw w))
              = rxs ++ more
           /\ gsm_uart_rx (hw w') = drain rxs (gsm_uart_rx (hw w))
           /\ (forall c, In c rxs -> now (hw w) <= fst c < T0 + 5000)
           /\ (forall pre suf, rxs = pre ++ suf -> suf <> [] ->
                 contains ">" (response ++ text_of pre) = false)
           /\ contains ">" (response ++ text_of rxs) = r
           /\ (if r
               then now (hw w) <= now (hw w') < T0 + 5000
                    /\ exists pre s, rxs = pre ++ [(now (hw w'), s)]
               else more = [] /\ now (hw w') = T0 + 5000)).
Proof.
  induction fuel as [|fuel IH]; intros k T0 response w Hnow Hk Hfuel Hresp.
  - lia.
  - cbn [wait_prompt]. prim.
    assert (Hd : ticks_diff (now (hw w) mod TICKS_PERIOD)
                   (T0 mod TICKS_PERIOD) = 50 * Z.of_nat k).
    { rewrite Hnow. apply ticks_diff_elapsed.
      change (TICKS_PERIOD / 2) with (2 ^ 29). lia. }
    rewrite Hd.
    destruct (50 * Z.of_nat k <? 5000) eqn:Hlt.
    + apply Z.ltb_lt in Hlt.
      replace (100 - k)%nat with (S (99 - k)) by lia.
      cbn [polled]. prim. branch Hany.
      * prim. fields. fields_all. rewrite Hany.
        set (chunk := arrived (now (hw w)) (gsm_uart_rx (hw w))) in *.
        branch Hgt.
        -- prim. exists [(now (hw w), chunk)]. eexists.
           split; [split; fields; reflexivity|].
           split; [reflexivity|]. fields.
           split; [reflexivity|].
           split; [intros c [<-|[]]; cbn [fst]; lia|].
           split.
           { intros pre suf Hsplit Hsuf. destruct pre as [|c pre].
             - change (text_of []) with EmptyString.
               now rewrite append_nil_r.
             - cbn [app] in Hsplit. injection Hsplit as _ Hsplit.
               symmetry in Hsplit. apply app_eq_nil in Hsplit.
               tauto. }
           rewrite text_of_single. split; [exact Hgt|].
           split; [lia|]. exists [], chunk. reflexivity.
        -- prim. eapply returns_weaken.
           ++ apply (IH (S k)); fields; try lia. exact Hgt.
           ++ cbn beta. fields.
              replace (100 - S k)%nat with (99 - k)%nat by lia.
              change (Z.max 0 50) with 50.
              intros r w' [rxs [more [[Hv Ht]
                [Hpoll [Hrx [Htimes [Hmin [Hr Hend]]]]]]]].
              exists ((now (hw w), chunk) :: rxs), more.
              split; [split; [exact Hv|]|].
              { rewrite Ht. fields. now rewrite <- app_assoc. }
              split; [cbn [app]; now rewrite Hpoll|].
              split; [exact Hrx|].
              split; [intros c [<-|Hc]; cbn [fst];
                      [lia | apply Htimes in Hc; lia]|].
              split.
              { intros pre suf Hsplit Hsuf. destruct pre as [|c pre].
                - change (text_of []) with EmptyString.
                  now rewrite append_nil_r.
                - cbn [app] in Hsplit. injection Hsplit as <- Hsplit.
                  rewrite text_of_cons, <- append_assoc.
                  now apply (Hmin pre suf). }
              split; [rewrite text_of_cons, <- append_assoc; exact Hr|].
              destruct r; [|exact Hend].
              destruct Hend as [Hn [pre [s0 ->]]]. split; [lia|].
              exists ((now (hw w), chunk) :: pre), s0. reflexivity.
      * prim. eapply returns_weaken.
        -- apply (IH (S k)); fields; try lia. exact Hresp.
        -- cbn beta. fields.
           replace (100 - S k)%nat with (99 - k)%nat by lia.
           change (Z.max 0 50) with 50.
           intros r w' [rxs [more [[Hv Ht]
             [Hpoll [Hrx [Htimes [Hmin [Hr Hend]]]]]]]].
           exists rxs, more.
           split; [split; auto|]. split; [exact Hpoll|].
           split; [exact Hrx|].
           split; [intros c Hc; apply Htimes in Hc; lia|].
           split; [exact Hmin|]. split; [exact Hr|].
           destruct r; [|exact Hend].
           destruct Hend as [Hn Hlast]. split; [lia | exact Hlast].
    + apply Z.ltb_ge in Hlt. prim. exists [], [].
      replace (100 - k)%nat with 0%nat by lia.
      split; [apply extends_refl|]. split; [reflexivity|].
      split; [reflexivity|]. split; [intros c []|].
      split.
      { intros pre suf Hsplit Hsuf. symmetry in Hsplit.
        apply app_eq_nil in Hsplit. tauto. }
      change (text_of []) with EmptyString. rewrite append_nil_r.
      split; [exact Hresp|]. split; [reflexivity | lia].
Qed.

(** The confirmation loop of [send_sms], poll by poll. *)
Lemma wait_confirmation_polls (fuel : nat) :
  forall (k : nat) (T0 : Z) (confirmation : string) (w : World),
    now (hw w) = T0 + 100 * Z.of_nat k ->
    (k <= 100)%nat -> (101 <= k + fuel)%nat ->
    success_marker confirmation = false ->
    error_marker confirmation = false ->
    returns (wait_confirmation fuel (T0 mod TICKS_PERIOD) confirmation) w
      (fun o w' => exists rxs more,
           extends w w' (received rxs)
           /\ polled (100 - k) (now (hw w)) 100 (gsm_uart_rx (hw w))
              = rxs ++ more
           /\ gsm_uart_rx (hw w') = drain rxs (gsm_uart_rx (hw w))
           /\ (forall c, In c rxs -> now (hw w) <= fst c < T0 + 10000)
           /\ confirmed confirmation rxs o
           /\ (o = SmsTimeout -> more = [] /\ now (hw w') = T0 + 10000)
           /\ (o <> SmsTimeout ->
               now (hw w) <= now (hw w') < T0 + 10000
               /\ exists pre s, rxs = pre ++ [(now (hw w'), s)])).
Proof.
  induction fuel as [|fuel IH];
    intros k T0 confirmation w Hnow Hk Hfuel Hs He.
  - lia.
  - cbn [wait_confirmation]. prim.
    assert (Hd : ticks_diff (now (hw w) mod TICKS_PERIOD)
                   (T0 mod TICKS_PERIOD) = 100 * Z.of_nat k).
    { rewrite Hnow. apply ticks_diff_elapsed.
      change (TICKS_PERIOD / 2) with (2 ^ 29). lia. }
    rewrite Hd.
    destruct (100 * Z.of_nat k <? 10000) eqn:Hlt.
    + apply Z.ltb_lt in Hlt.
      replace (100 - k)%nat with (S (99 - k)) by lia.
      cbn [polled]. prim. branch Hany.
      * prim. fields. fields_all. rewrite Hany.
        set (chunk := arrived (now (hw w)) (gsm_uart_rx (hw w))) in *.
        change (contains "+CMGS:" (confirmation ++ chunk)
                || contains "OK" (confirmation ++ chunk))
          with (success_marker (confirmation ++ chunk)).
        change (contains "ERROR" (confirmation ++ chunk))
          with (error_marker (confirmation ++ chunk)).
        assert (Hone : forall o,
                   confirmed (confirmation ++ chunk) [] o ->
                   o <> SmsTimeout ->
                   exists rxs more,
                     extends w
                       (mkWorld (vars w)
                          (mkHw (now (hw w))
                             (pending (now (hw w)) (gsm_uart_rx (hw w)))
                             (gps_uart_rx (hw w)) (stdin_rx (hw w))
                             (has_select (hw w)) (gsm_led (hw w))
                             (gps_led (hw w))
                             (trace (hw w) ++ [(now (hw w), Rx chunk)])))
                       (received rxs)
                     /\ (now (hw w), chunk)
                          :: polled (99 - k) (now (hw w) + 100) 100
                               (pending (now (hw w)) (gsm_uart_rx (hw w)))
                        = rxs ++ more
                     /\ pending (now (hw w)) (gsm_uart_rx (hw w))
                        = drain rxs (gsm_uart_rx (hw w))
                     /\ (forall c, In c rxs ->
                           now (hw w) <= fst c < T0 + 10000)
                     /\ confirmed confirmation rxs o
                     /\ (o = SmsTimeout ->
                         more = [] /\ now (hw w) = T0 + 10000)
                     /\ (o <> SmsTimeout ->
                         now (hw w) <= now (hw w) < T0 + 10000
                         /\ exists pre s, rxs = pre ++ [(now (hw w), s)])).
        { intros o Ho Hno. exists [(now (hw w), chunk)]. eexists.
          split; [split; fields; reflexivity|].
          split; [reflexivity|]. split; [reflexivity|].
          split; [intros c [<-|[]]; cbn [fst]; lia|].
          split; [now apply confirmed_cons|].
          split; [intros E; contradiction|].
          intros _. split; [lia|]. exists [], chunk. reflexivity. }
        branch Hsucc; [|branch Herr].
        -- prim. fields.
           apply (Hone SmsSent); [|discriminate].
           apply confirmed_nil. exact Hsucc.
        -- prim. fields.
           apply (Hone SmsError); [|discriminate].
           apply confirmed_nil. auto.
        -- prim. eapply returns_weaken.
           ++ apply (IH (S k)); fields; try lia; assumption.
           ++ cbn beta. fields.
              replace (100 - S k)%nat with (99 - k)%nat by lia.
              change (Z.max 0 100) with 100.
              intros o w' [rxs [more [[Hv Ht]
                [Hpoll [Hrx [Htimes [Hconf [Hend Hlast]]]]]]]].
              exists ((now (hw w), chunk) :: rxs), more.
              split; [split; [exact Hv|]|].
              { rewrite Ht. fields. now rewrite <- app_assoc. }
              split; [cbn [app]; now rewrite Hpoll|].
              split; [exact Hrx|].
              split; [intros c [<-|Hc]; cbn [fst];
                      [lia | apply Htimes in Hc; lia]|].
              split; [now apply confirmed_cons|].
              split; [exact Hend|].
              intros Ho. destruct (Hlast Ho) as [Hn [pre [s0 ->]]].
              split; [lia|].
              exists ((now (hw w), chunk) :: pre), s0. reflexivity.
      * prim. eapply returns_weaken.
        -- apply (IH (S k)); fields; try lia; assumption.
        -- cbn beta. fields.
           replace (100 - S k)%nat with (99 - k)%nat by lia.
           change (Z.max 0 100) with 100.
           intros o w' [rxs [more [[Hv Ht]
             [Hpoll [Hrx [Htimes [Hconf [Hend Hlast]]]]]]]].
           exists rxs, more.
           split; [split; auto|]. split; [exact Hpoll|].
           split; [exact Hrx|].
           split; [intros c Hc; apply Htimes in Hc; lia|].
           split; [exact Hconf|]. split; [exact Hend|].
           intros Ho. destruct (Hlast Ho) as [Hn Hl]. split; [lia | exact Hl].
    + apply Z.ltb_ge in Hlt. prim. exists [], [].
      replace (100 - k)%nat with 0%nat by lia.
      split; [apply extends_refl|]. split; [reflexivity|].
      split; [reflexivity|]. split; [intros c []|].
      split; [now apply confirmed_nil|].
      split; [intros _; split; [reflexivity | lia]|].
      intros Ho. now contradiction Ho.
Qed.

(** A [send_sms] that passes its guard, phase by phase: the log, and how
    each phase follows from the line. *)
Lemma send_sms_protocol (fuel : nat) (number message : string) (w : World) :
  (101 <= fuel)%nat ->
  gsm_connected (vars w) = true ->
  returns (send_sms fuel number message) w
    (fun o w' => exists setup resp t0 prompt rest,
         extends w w'
           ((now (hw w), Sms number message) :: setup
              ++ (t0, Tx (cmgs_command number)) :: received prompt ++ rest)
         /\ at_exchange "AT+CMGF=1" (now (hw w)) setup resp
         /\ reads_line (gsm_uart_rx (hw w)) (reads setup)
         /\ (exists more,
                polled 100 t0 50 (drain (reads setup) (gsm_uart_rx (hw w)))
                = prompt ++ more
                /\ (contains ">" (text_of prompt) = false -> more = []))
         /\ (forall pre suf, prompt = pre ++ suf -> suf <> [] ->
               contains ">" (text_of pre) = false)
         /\ ((contains ">" (text_of prompt) = false
              /\ rest = [(t0 + 5000, Tx ESC)] /\ o = NoPrompt)
             \/ (contains ">" (text_of prompt) = true
                 /\ exists t conf,
                     rest = (t - 100, Tx message) :: (t, Tx CTRL_Z)
                              :: received conf
                     /\ (exists pre s, prompt = pre ++ [(t - 100, s)])
                     /\ (forall c, In c conf -> t <= fst c < t + 10000)
                     /\ (exists more,
                            polled 100 t 100
                              (drain (reads setup ++ prompt)
                                 (gsm_uart_rx (hw w)))
                            = conf ++ more
                            /\ (o = SmsTimeout -> more = []))
                     /\ confirmed EmptyString conf o
                     /\ (o = SmsTimeout -> now (hw w') = t + 10000)
                     /\ (o <> SmsTimeout ->
                         exists pre s, conf = pre ++ [(now (hw w'), s)])))).
Proof.
  intros Hfuel Hconn. unfold send_sms, gsm_write.
  prim. prim. fields. rewrite Hconn. cbn [negb].
  apply returns_bind. eapply returns_weaken.
  { apply send_at_command_reads; lia. }
  cbn beta.
  intros resp w1 [flush [rxs [[Hv1 Ht1] [Hresp [Hline1 [Hrx1 Hnow1]]]]]].
  fields_all.
  prim. prim.
  apply returns_bind. eapply returns_weaken.
  { apply (wait_prompt_polls fuel 0 (now (hw w1))); fields;
      [lia | lia | lia | reflexivity]. }
  cbn beta. fields. change (100 - 0)%nat with 100%nat.
  intros r w2 [prompt [more [[Hv2 Ht2]
    [Hpoll [Hrx2 [Htimes [Hmin [Hr Hend]]]]]]]].
  fields_all.
  change (("" ++ text_of prompt)%string) with (text_of prompt) in Hr.
  assert (Hmin' : forall pre suf, prompt = pre ++ suf -> suf <> [] ->
                    contains ">" (text_of pre) = false)
    by (intros pre suf H1 H2; exact (Hmin pre suf H1 H2)).
  assert (Hsetup : reads ((now (hw w), AtCmd "AT+CMGF=1") :: received flush
                            ++ (now (hw w), Tx ("AT+CMGF=1" ++ CRLF)%string)
                            :: received rxs) = flush ++ rxs).
  { cbn [reads]. rewrite reads_app. cbn [reads].
    now rewrite !reads_received. }
  destruct r; cbn [negb].
  - destruct Hend as [Hn2 [ppre [ps Hlast]]].
    prim. prim. prim. prim.
    eapply returns_weaken.
    { apply (wait_confirmation_polls fuel 0 (now (hw w2) + 100)); fields;
        [change (Z.max 0 100) with 100; lia | lia | lia
        | reflexivity | reflexivity]. }
    cbn beta. fields. change (100 - 0)%nat with 100%nat.
    change (Z.max 0 100) with 100.
    intros o w3 [conf [cmore [[Hv3 Ht3]
      [Hcpoll [Hrx3 [Hctimes [Hconf [Htimeout Hclast]]]]]]]].
    fields_all.
    exists ((now (hw w), AtCmd "AT+CMGF=1") :: received flush
              ++ (now (hw w), Tx ("AT+CMGF=1" ++ CRLF)%string)
              :: received rxs), resp, (now (hw w1)), prompt,
      ((now (hw w2), Tx message) :: (now (hw w2) + 100, Tx CTRL_Z)
         :: received conf).
    split; [split|].
    { congruence. }
    { rewrite Ht3, Ht2, Ht1.
      repeat (rewrite <- app_assoc; cbn [app]). reflexivity. }
    split; [exists flush, rxs; auto|].
    rewrite Hsetup. split; [exact Hline1|].
    split.
    { exists more. rewrite <- Hrx1. split; [exact Hpoll|].
      rewrite Hr. discriminate. }
    split; [exact Hmin'|].
    right. split; [exact Hr|].
    exists (now (hw w2) + 100), conf.
    replace (now (hw w2) + 100 - 100) with (now (hw w2)) by lia.
    split; [reflexivity|].
    split; [exists ppre, ps; exact Hlast|].
    split; [intros c Hc; apply Hctimes in Hc; lia|].
    split.
    { exists cmore. rewrite drain_app, <- Hrx1, <- Hrx2.
      split; [exact Hcpoll|]. intros Ho. now apply Htimeout. }
    split; [exact Hconf|].
    split; [intros Ho; destruct (Htimeout Ho) as [_ H]; lia|].
    intros Ho. exact (proj2 (Hclast Ho)).
  - destruct Hend as [Hmore Hn2]. prim. prim.
    exists ((now (hw w), AtCmd "AT+CMGF=1") :: received flush
              ++ (now (hw w), Tx ("AT+CMGF=1" ++ CRLF)%string)
              :: received rxs), resp, (now (hw w1)), prompt,
      [(now (hw w1) + 5000, Tx ESC)].
    split; [split|].
    { fields. congruence. }
    { fields. rewrite Hn2, Ht2, Ht1.
      repeat (rewrite <- app_assoc; cbn [app]). reflexivity. }
    split; [exists flush, rxs; auto|].
    rewrite Hsetup. split; [exact Hline1|].
    split.
    { exists more. rewrite <- Hrx1. split; [exact Hpoll|]. auto. }
    split; [exact Hmin'|].
    left. auto.
Qed.

(** *** The calls of [send_sms] in one iteration *)

Lemma location_string_not_online (p : gps) :
  get_current_location_string p <> ONLINE_NOTICE.
Proof.
  unfold get_current_location_string, ONLINE_NOTICE.
  destruct (has_valid_gps_data p); [|discriminate].
  cbn [append]. discriminate.
Qed.

(** The registration check calls [send_sms] exactly when it registers. *)
Lemma check_gsm_network_calls (fuel : nat) (current_time_ms : Z)
    (w : World) :
  (101 <= fuel)%nat ->
  returns (check_gsm_network fuel current_time_ms) w
    (fun _ w' => exists evs,
         trace (hw w') = trace (hw w) ++ evs
         /\ sms_calls evs
            = (if negb (gsm_connected (vars w)) && gsm_connected (vars w')
               then [(ADMIN_NUMBER, ONLINE_NOTICE)] else [])
         /\ gps_parser (vars w') = gps_parser (vars w)
         /\ gps_fix_acquired (vars w') = gps_fix_acquired (vars w)).
Proof.
  intros Hfuel.
  eapply returns_weaken; [now apply check_gsm_network_returns|].
  cbn beta. intros _ w'. unfold check_due.
  destruct (gsm_connected (vars w)) eqn:Hconn.
  - rewrite andb_false_r. cbn [andb negb]. intros ->.
    exists []. rewrite app_nil_r. auto.
  - destruct (gsm_initialized (vars w) && negb false
              && (ticks_diff current_time_ms (last_gsm_check_ms (vars w))
                  >=? GSM_CHECK_INTERVAL_MS)).
    + intros [response [evs0 [evs1 [[flush [rxs [-> _]]] [Ht Hcase]]]]].
      eexists. split; [exact Ht|]. read_log.
      destruct (creg_status response).
      * destruct Hcase as [-> [-> _]]. repeat split.
      * destruct Hcase as [-> ->]. cbn. rewrite Hconn. repeat split.
      * destruct Hcase as [-> ->]. cbn. rewrite Hconn. repeat split.
    + intros ->. exists []. rewrite app_nil_r, Hconn. auto.
Qed.

(** The registration check registers exactly when it is due and the
    answer of the modem holds a registered status. *)
Lemma check_gsm_network_registers (fuel : nat) (current_time_ms : Z)
    (w : World) :
  (101 <= fuel)%nat ->
  returns (check_gsm_network fuel current_time_ms) w
    (fun _ w' =>
       if check_due current_time_ms (vars w) then
         exists response,
           answers (gsm_uart_rx (hw w)) (now (hw w)) 500 20 response
           /\ gsm_connected (vars w')
              = match creg_status response with
                | Registered => true
                | Unregistered | Unknown => false
                end
       else w' = w).
Proof.
  intros Hfuel. unfold check_gsm_network, check_due. prim. fields.
  destruct (gsm_initialized (vars w) && negb (gsm_connected (vars w)))
    eqn:Hguard; cbn [andb]; [|prim; reflexivity].
  destruct (ticks_diff current_time_ms (last_gsm_check_ms (vars w))
            >=? GSM_CHECK_INTERVAL_MS); [|prim; reflexivity].
  apply andb_true_iff in Hguard. destruct Hguard as [_ Hconn].
  apply negb_true_iff in Hconn.
  apply returns_bind. eapply returns_weaken.
  { apply returns_and.
    - apply send_at_command_returns; lia.
    - change 2000 with (100 * Z.of_nat 20).
      apply send_at_command_answer; [change (2 ^ 29) with 536870912|]; lia. }
  cbn beta. intros response w1 [[flush [rxs [[Hv1 Ht1] Hresp]]] Hans].
  destruct (creg_status response) eqn:Hstatus.
  - apply returns_bind. prim. prim. apply returns_bind.
    eapply returns_weaken.
    { apply send_sms_returns. exact Hfuel. }
    cbn beta. intros o w2 [evs [[Hv2 Ht2] _]]. fields_all.
    prim. prim. fields.
    exists response. split; [exact Hans|].
    rewrite Hstatus, Hv2. reflexivity.
  - prim. prim. fields. exists response. split; [exact Hans|].
    now rewrite Hstatus, Hv1.
  - prim. prim. fields. exists response. split; [exact Hans|].
    now rewrite Hstatus, Hv1.
Qed.

(** The calls of [send_sms] of one iteration, in order: the fix notice,
    the online notice, then replies and the console test. *)
Lemma tick_calls (fuel : nat) (w : World) :
  (101 <= fuel)%nat ->
  returns (tick fuel) w
    (fun _ w' =>
       let fed := feed (arrived (now (hw w)) (gps_uart_rx (hw w)))
                       (gps_parser (vars w)) in
       let fix_now := negb (gps_fix_acquired (vars w))
                      && (gps_fix_type fed >=? 2)
                      && has_valid_gps_data fed in
       exists others,
         sms_calls (since w w')
         = (if fix_now && gsm_connected (vars w)
            then [(ADMIN_NUMBER, FIX_NOTICE)] else [])
           ++ (if negb (gsm_connected (vars w)) && gsm_connected (vars w')
               then [(ADMIN_NUMBER, ONLINE_NOTICE)] else [])
           ++ others
         /\ (forall c, In c others ->
               c = (ADMIN_NUMBER, get_current_location_string fed)
               \/ c = (ADMIN_NUMBER, TEST_MESSAGE))
         /\ gps_fix_acquired (vars w')
            = gps_fix_acquired (vars w) || fix_now).
Proof.
  intros Hfuel. unfold tick. prim.
  apply returns_bind.
  eapply returns_weaken; [apply process_gps_data_returns|].
  cbn beta. intros _ w1 [Hv1 [Ht1 _]].
  apply returns_bind.
  eapply returns_weaken; [now apply check_gps_fix_returns|].
  cbn beta. intros _ w2 [Hv2 [e2 [Ht2 [Hc2 _]]]].
  apply returns_bind.
  eapply returns_weaken; [now apply check_gsm_network_calls|].
  cbn beta. intros _ w3 [e3 [Ht3 [Hc3 [Hp3 Hf3]]]].
  apply returns_bind.
  eapply returns_weaken; [now apply interval_location_reporting_returns|].
  cbn beta. intros _ w4 [Hv4 [e4 [Ht4 [Hc4 _]]]].
  apply returns_bind.
  eapply returns_weaken; [now apply check_incoming_sms_returns|].
  cbn beta zeta. intros _ w5 [Hv5 [e5 [Ht5 [[Hc5 _] _]]]].
  apply returns_bind.
  eapply returns_weaken; [now apply check_console_commands_returns|].
  cbn beta. intros _ w6 [[buffer Hv6] [e6 [calls [Ht6 [[Hc6 _] Hcalls]]]]].
  prim. cbv zeta.
  set (fed := feed (arrived (now (hw w)) (gps_uart_rx (hw w)))
                   (gps_parser (vars w))) in *.
  assert (Hfix1 : fix_due (vars w1)
                  = negb (gps_fix_acquired (vars w))
                    && (gps_fix_type fed >=? 2) && has_valid_gps_data fed)
    by (rewrite Hv1; reflexivity).
  assert (Hconn1 : gsm_connected (vars w1) = gsm_connected (vars w))
    by (rewrite Hv1; reflexivity).
  assert (Hacq1 : gps_fix_acquired (vars w1) = gps_fix_acquired (vars w))
    by (rewrite Hv1; reflexivity).
  assert (Hp1 : gps_parser (vars w1) = fed) by (rewrite Hv1; reflexivity).
  assert (Hconn2 : gsm_connected (vars w2) = gsm_connected (vars w))
    by (rewrite Hv2; destruct (fix_due (vars w1)); exact Hconn1).
  assert (Hp2 : gps_parser (vars w2) = fed)
    by (rewrite Hv2; destruct (fix_due (vars w1)); exact Hp1).
  assert (Hacq2 : gps_fix_acquired (vars w2)
                  = gps_fix_acquired (vars w) || fix_due (vars w1)).
  { rewrite Hv2. destruct (fix_due (vars w1)) eqn:E.
    - cbn [with_gps_fix_acquired gps_fix_acquired]. now rewrite orb_true_r.
    - now rewrite orb_false_r. }
  assert (Hp3' : gps_parser (vars w3) = fed) by congruence.
  assert (Hconn4 : gsm_connected (vars w4) = gsm_connected (vars w3))
    by (rewrite Hv4; destruct (report_due _ _); reflexivity).
  assert (Hacq4 : gps_fix_acquired (vars w4) = gps_fix_acquired (vars w3))
    by (rewrite Hv4; destruct (report_due _ _); reflexivity).
  assert (Hp4 : gps_parser (vars w4) = fed)
    by (rewrite Hv4; destruct (report_due _ _); exact Hp3').
  assert (Hconn6 : gsm_connected (vars w6) = gsm_connected (vars w3))
    by (rewrite Hv6, Hv5; exact Hconn4).
  assert (Hacq6 : gps_fix_acquired (vars w6)
                  = gps_fix_acquired (vars w) || fix_due (vars w1)).
  { rewrite Hv6. cbn [with_input_buffer gps_fix_acquired].
    rewrite Hv5, Hacq4, Hf3. exact Hacq2. }
  fields. rewrite Hconn6, Hacq6, <- Hfix1.
  assert (Hsince : forall w',
             trace (hw w') = trace (hw w6) ->
             since w w'
             = e2 ++ e3 ++ e4
                 ++ ((if truthy (arrived (now (hw w4)) (gsm_uart_rx (hw w4)))
                      then [(now (hw w4),
                             Rx (arrived (now (hw w4)) (gsm_uart_rx (hw w4))))]
                      else []) ++ e5) ++ e6).
  { intros w' Hw'. apply since_app.
    rewrite Hw', Ht6, Ht5, Ht4, Ht3, Ht2, Ht1.
    now rewrite <- !app_assoc. }
  erewrite Hsince by (fields; reflexivity).
  exists (sms_calls e4 ++ sms_calls e5 ++ sms_calls e6).
  split; [|split; [|reflexivity]].
  - rewrite !sms_calls_app, Hc2, Hc3, Hconn1, Hconn2.
    replace (sms_calls
               (if truthy (arrived (now (hw w4)) (gsm_uart_rx (hw w4)))
                then [(now (hw w4),
                       Rx (arrived (now (hw w4)) (gsm_uart_rx (hw w4))))]
                else []))
      with (@nil (string * string)) by (now destruct (truthy _)).
    reflexivity.
  - intros c. rewrite !in_app_iff, Hc4, Hc5, Hc6, Hp3', Hp4.
    intros [Hin|[Hin|Hin]].
    + destruct (report_due _ _); cbn [In] in Hin; [|contradiction].
      destruct Hin as [<-|[]]. now left.
    + destruct (truthy _ && location_request _); cbn [In] in Hin;
        [|contradiction].
      destruct Hin as [<-|[]]. now left.
    + destruct Hcalls as [E | E]; rewrite E in Hin; cbn [In] in Hin;
        [contradiction|].
      destruct Hin as [<-|[]]. now right.
Qed.

(** ** The claims *)

(** C8.  [check_gsm_module] answers [True] exactly when the response that
    [send_at_command('AT', 1000, 2000)] returns -- the text read after the
    command line was written -- contains "OK".  That response is fixed by
    the modem line: it is what the line delivers from the call to the
    first of the 20 polls (100 ms apart) that finds some text, followed by
    what it delivers during the 1000 ms after that poll, and it is empty
    when the line has delivered nothing by the last poll.  When no byte
    arrives on the modem line during the 2000 ms after the call,
    [send_at_command] returns the empty response and [check_gsm_module]
    answers [False]. *)
Theorem check_gsm_module_ok (fuel : nat) (w : World) :
  (21 <= fuel)%nat ->
  (exists response w',
      send_at_command fuel "AT" 1000 2000 w = Some (response, w')
      /\ at_exchange "AT" (now (hw w)) (since w w') response
      /\ answers (gsm_uart_rx (hw w)) (now (hw w)) 1000 20 response
      /\ check_gsm_module fuel w = Some (contains "OK" response, w'))
  /\ ((forall c, In c (gsm_uart_rx (hw w)) ->
                 fst c <= now (hw w) \/ now (hw w) + 2000 <= fst c) ->
      exists w',
        send_at_command fuel "AT" 1000 2000 w = Some (EmptyString, w')
        /\ check_gsm_module fuel w = Some (false, w')).
Proof.
  intros Hfuel. split.
  - destruct (send_at_command_returns fuel "AT" 1000 2000 w)
      as [response [w' [Hrun [flush [rxs [Hext Hresp]]]]]]; try lia.
    destruct (send_at_command_answer fuel "AT" 1000 20 w)
      as [response' [w'' [Hrun' Hanswer]]];
      [change (2 ^ 29) with 536870912; lia | lia |].
    change (100 * Z.of_nat 20) with 2000 in Hrun'.
    assert (E : response' = response) by congruence. subst response'.
    exists response, w'. split; [exact Hrun|]. split; [|split].
    + exists flush, rxs. split; [|exact Hresp]. now apply since_extends.
    + exact Hanswer.
    + unfold check_gsm_module, bind. now rewrite Hrun.
  - intros Hsilent.
    destruct (send_at_command_silent fuel "AT" 1000 2000 w)
      as [response [w' [Hrun Hresp]]]; try lia; [exact Hsilent|].
    subst response. exists w'. split; [exact Hrun|].
    unfold check_gsm_module, bind. now rewrite Hrun.
Qed.

(** C10.  While [gsm_connected] is false, [send_sms] returns at its guard
    with the failure [NotConnected] ([False]): it returns for any fuel,
    changes no variable, does not read the modem line, lets no time pass
    and writes no byte; the log only gains the record of the call.  So the
    reply to an incoming location request and the console test command
    write nothing to the modem before registration. *)
Theorem send_sms_guard (fuel : nat) (number message : string) (w : World) :
  gsm_connected (vars w) = false ->
  (exists w',
      send_sms fuel number message w = Some (NotConnected, w')
      /\ sms_ok NotConnected = false
      /\ vars w' = vars w
      /\ now (hw w') = now (hw w)
      /\ gsm_uart_rx (hw w') = gsm_uart_rx (hw w)
      /\ since w w' = [(now (hw w), Sms number message)]
      /\ tx_bytes (since w w') = [])
  /\ ((101 <= fuel)%nat ->
      returns (check_incoming_sms fuel) w
        (fun _ w' => exists evs,
             trace (hw w') = trace (hw w) ++ evs /\ tx_bytes evs = [])
      /\ returns (check_console_commands fuel) w
           (fun _ w' => exists evs,
                trace (hw w') = trace (hw w) ++ evs /\ tx_bytes evs = [])).
Proof.
  intros Hconn. split.
  - eexists. split; [now apply send_sms_not_connected|].
    fields. repeat split.
    + now apply since_app.
    + erewrite since_app by (fields; reflexivity). reflexivity.
  - intros Hfuel. split.
    + eapply returns_weaken; [now apply check_incoming_sms_returns|].
      cbn beta zeta. intros _ w' [_ [evs [Ht [[_ [_ Htx]] _]]]].
      eexists. split; [exact Ht|]. read_log. rewrite (Htx Hconn).
      now destruct (truthy _).
    + eapply returns_weaken; [now apply check_console_commands_returns|].
      cbn beta. intros _ w' [_ [evs [calls [Ht [[_ [_ Htx]] _]]]]].
      exists evs. split; [exact Ht | now apply Htx].
Qed.

(** C3.  A [send_sms] stopped by its guard writes nothing.  A [send_sms]
    that passes the guard writes, after the text-mode command, the compose
    command at some time [t0] and then only reads until the prompt loop
    ends.  If the text read in the 5000 ms after [t0] holds no '>', the one
    further write is the cancel byte 0x1B, at [t0 + 5000], and the call
    fails with [NoPrompt]; the message is written (followed by 0x1A) only
    when the text read holds '>'. *)
Theorem send_sms_prompt_gate (fuel : nat) (number message : string)
    (w : World) :
  (101 <= fuel)%nat ->
  returns (send_sms fuel number message) w
    (fun o w' =>
       (gsm_connected (vars w) = false
        /\ o = NotConnected /\ tx_bytes (since w w') = [])
       \/ (gsm_connected (vars w) = true
           /\ exists setup t0 prompt rest,
               since w w'
               = (now (hw w), Sms number message) :: setup
                   ++ (t0, Tx (cmgs_command number)) :: received prompt
                   ++ rest
               /\ tx_bytes setup = [("AT+CMGF=1" ++ CRLF)%string]
               /\ (forall c, In c prompt -> t0 <= fst c < t0 + 5000)
               /\ ((contains ">" (text_of prompt) = false
                    /\ rest = [(t0 + 5000, Tx ESC)]
                    /\ o = NoPrompt /\ sms_ok o = false)
                   \/ (contains ">" (text_of prompt) = true
                       /\ exists t1 conf,
                           t0 <= t1 < t0 + 5000
                           /\ rest = (t1, Tx message)
                                       :: (t1 + 100, Tx CTRL_Z)
                                       :: received conf)))).
Proof.
  intros Hfuel. destruct (gsm_connected (vars w)) eqn:Hconn.
  - eapply returns_weaken; [now apply send_sms_connected|].
    cbn beta.
    intros o w' [setup [resp [t0 [prompt [rest
      [Hext [[flush [rxs [Hsetup _]]] [Htimes Hrest]]]]]]]].
    right. split; [reflexivity|].
    exists setup, t0, prompt, rest.
    split; [now apply since_extends|].
    split; [subst setup; read_log; reflexivity|].
    split; [exact Htimes|].
    destruct Hrest as [[Hno [Hr Ho]] | [Hyes [t1 [conf [Ht1 [Hr _]]]]]].
    + left. subst o. auto.
    + right. split; [exact Hyes|]. now exists t1, conf.
  - eapply returns_prim; [now apply send_sms_not_connected|].
    left. split; [reflexivity|]. split; [reflexivity|].
    erewrite since_app by (fields; reflexivity). reflexivity.
Qed.

(** C9.  [send_sms] is stopped by its guard exactly when [gsm_connected]
    is false, and fails with [NoPrompt] exactly when it passed the guard
    and the text read after the compose command holds no '>'.  Otherwise
    it writes the message and, at [t], 0x1A, and then polls the modem line
    every 100 ms, at most 100 times: the chunks it reads are what these
    polls find on the line -- all of them when the outcome is
    [SmsTimeout], and up to the first chunk that brings a marker into the
    text read so far otherwise, in which case it returns at that read.  No
    marker is in the text before the last chunk; the outcome is [SmsSent]
    ([True]) when the text holds "+CMGS:" or "OK" -- tested first --,
    [SmsError] when it holds "ERROR" and no success marker, and
    [SmsTimeout], 10000 ms after [t], when it holds neither.  Every read
    of the call returns what the line held at its time. *)
Theorem send_sms_confirmation (fuel : nat) (number message : string)
    (w : World) :
  (101 <= fuel)%nat ->
  returns (send_sms fuel number message) w
    (fun o w' =>
       (o = NotConnected <-> gsm_connected (vars w) = false)
       /\ reads_line (gsm_uart_rx (hw w)) (reads (since w w'))
       /\ (gsm_connected (vars w) = true ->
           exists before t0 prompt rest,
             since w w'
             = before ++ (t0, Tx (cmgs_command number)) :: received prompt
                 ++ rest
             /\ (exists more,
                    polled 100 t0 50
                      (drain (reads before) (gsm_uart_rx (hw w)))
                    = prompt ++ more
                    /\ (contains ">" (text_of prompt) = false -> more = []))
             /\ (forall pre suf, prompt = pre ++ suf -> suf <> [] ->
                   contains ">" (text_of pre) = false)
             /\ (o = NoPrompt <-> contains ">" (text_of prompt) = false)
             /\ (contains ">" (text_of prompt) = true ->
                 exists t conf,
                   rest = (t - 100, Tx message) :: (t, Tx CTRL_Z)
                            :: received conf
                   /\ (forall c, In c conf -> t <= fst c < t + 10000)
                   /\ (exists more,
                          polled 100 t 100
                            (drain (reads before ++ prompt)
                               (gsm_uart_rx (hw w)))
                          = conf ++ more
                          /\ (o = SmsTimeout -> more = []))
                   /\ confirmed EmptyString conf o
                   /\ (o = SmsTimeout -> now (hw w') = t + 10000)
                   /\ (o <> SmsTimeout ->
                       exists pre s, conf = pre ++ [(now (hw w'), s)])
                   /\ (sms_ok o = true <-> o = SmsSent)))).
Proof.
  intros Hfuel. destruct (gsm_connected (vars w)) eqn:Hconn.
  - eapply returns_weaken; [now apply send_sms_protocol|].
    cbn beta.
    intros o w' [setup [resp [t0 [prompt [rest
      [Hext [Hex [Hline [Hpoll [Hmin Hrest]]]]]]]]]].
    rewrite (since_extends _ _ _ Hext).
    assert (Hconnected : o <> NotConnected).
    { destruct Hrest
        as [[_ [_ ->]] | [_ [t [conf [_ [_ [_ [_ [[_ Ho] _]]]]]]]]];
        [discriminate | intros ->; contradiction]. }
    split; [split; [contradiction | discriminate]|].
    assert (Hreads : reads ((now (hw w), Sms number message) :: setup)
                     = reads setup) by reflexivity.
    split.
    { cbn [reads]. rewrite reads_app. cbn [reads].
      rewrite reads_app, reads_received. apply reads_line_app.
      split; [exact Hline|]. apply reads_line_app.
      destruct Hpoll as [more [Hpoll _]].
      split; [exact (polled_reads_line _ _ _ _ _ _ Hpoll)|].
      destruct Hrest as [[_ [-> _]] | [_ [t [conf [-> [_ [_ [[cmore
        [Hcpoll _]] _]]]]]]]]; cbn [reads]; [exact I|].
      rewrite reads_received. rewrite drain_app in Hcpoll.
      exact (polled_reads_line _ _ _ _ _ _ Hcpoll). }
    intros _.
    exists ((now (hw w), Sms number message) :: setup), t0, prompt, rest.
    rewrite Hreads.
    split; [reflexivity|]. split; [exact Hpoll|]. split; [exact Hmin|].
    destruct Hrest as [[Hno [Hr Ho]] | [Hyes [t [conf
      [Hr [Hlast [Htimes [Hcpoll [Hconf [Hend Hclast]]]]]]]]]].
    + split; [split; auto|]. rewrite Hno. discriminate.
    + split.
      { rewrite Hyes. split; [|discriminate].
        intros ->. destruct Hconf as [_ []]. }
      intros _. exists t, conf.
      split; [exact Hr|]. split; [exact Htimes|]. split; [exact Hcpoll|].
      split; [exact Hconf|]. split; [exact Hend|]. split; [exact Hclast|].
      destruct o; cbn; split; congruence.
  - eapply returns_prim; [now apply send_sms_not_connected|].
    split; [split; reflexivity|].
    erewrite since_app by (fields; reflexivity).
    split; [exact I | discriminate].
Qed.

(** C4.  Over any number of iterations of the loop, a [gsm_connected]
    that is set stays set, the registration check is not run again (no
    [AT+CREG?] is issued and [last_gsm_check_ms] keeps its value), and a
    [gps_fix_acquired] that is set stays set, whatever the decoder reports
    afterwards.  Each flag therefore changes at most once, from false to
    true. *)
Theorem flags_latch (fuel : nat) (n : nat) (w : World) :
  (101 <= fuel)%nat ->
  returns (run fuel n) w
    (fun _ w' =>
       (gsm_connected (vars w) = true ->
        gsm_connected (vars w') = true
        /\ last_gsm_check_ms (vars w') = last_gsm_check_ms (vars w)
        /\ ~ In "AT+CREG?"%string (at_commands (since w w')))
       /\ (gps_fix_acquired (vars w) = true ->
           gps_fix_acquired (vars w') = true)
       /\ forall m,
           returns (run fuel m) w'
             (fun _ w'' =>
                (gsm_connected (vars w') <> gsm_connected (vars w) ->
                 gsm_connected (vars w'') = gsm_connected (vars w'))
                /\ (gps_fix_acquired (vars w') <> gps_fix_acquired (vars w)
                    -> gps_fix_acquired (vars w'')
                       = gps_fix_acquired (vars w')))).
Proof.
  intros Hfuel.
  eapply returns_weaken; [now apply run_latched|].
  cbn beta. intros _ w' [evs [Ht [Hfix Hconn]]].
  split; [|split].
  - intros H. destruct (Hconn H) as [H1 [H2 H3]].
    split; [exact H1|]. split; [exact H2|].
    rewrite (since_app _ _ _ Ht). intros Hin.
    apply H3 in Hin. discriminate.
  - intros H. now apply Hfix.
  - intros m. eapply returns_weaken; [now apply run_latched|].
    cbn beta. intros _ w'' [evs' [_ [Hfix' Hconn']]]. split.
    + intros Hne. destruct (gsm_connected (vars w')) eqn:E.
      * now apply Hconn'.
      * destruct (gsm_connected (vars w)) eqn:E0; [|congruence].
        destruct (Hconn eq_refl). congruence.
    + intros Hne. destruct (gps_fix_acquired (vars w')) eqn:E.
      * now apply Hfix'.
      * destruct (gps_fix_acquired (vars w)) eqn:E0; [|congruence].
        destruct (Hfix eq_refl). congruence.
Qed.

(** C5.  [last_location_sent_ms] is written at two places only.  The GPS
    block, the fix-transition check, the reply to an incoming SMS, the
    console commands and [send_sms] itself leave it as it is.  The
    registration check sets it to [current_time_ms] exactly when
    [gsm_connected] goes from false to true.  The periodic report sets it to
    [current_time_ms] exactly when it calls [send_sms], whatever that call
    returns; it calls [send_sms] once when the report is due and not at all
    otherwise.  A report is not due again before [LOCATION_INTERVAL_MS] has
    passed since the anchor, and from then on it is due as soon as the
    three conditions on the flags and the position hold. *)
Theorem location_anchor_writes (fuel : nat) (current_time_ms : Z)
    (w : World) :
  (101 <= fuel)%nat ->
  let anchor := fun x : World => last_location_sent_ms (vars x) in
  returns process_gps_data w (fun _ w' => anchor w' = anchor w)
  /\ returns (check_gps_fix fuel) w (fun _ w' => anchor w' = anchor w)
  /\ returns (check_incoming_sms fuel) w (fun _ w' => anchor w' = anchor w)
  /\ returns (check_console_commands fuel) w
       (fun _ w' => anchor w' = anchor w)
  /\ (forall number message,
        returns (send_sms fuel number message) w
          (fun _ w' => anchor w' = anchor w))
  /\ returns (check_gsm_network fuel current_time_ms) w
       (fun _ w' =>
          anchor w'
          = if negb (gsm_connected (vars w)) && gsm_connected (vars w')
            then current_time_ms else anchor w)
  /\ returns (interval_location_reporting fuel current_time_ms) w
       (fun _ w' =>
          anchor w'
          = (if report_due current_time_ms (vars w)
             then current_time_ms else anchor w)
          /\ sms_calls (since w w')
             = (if report_due current_time_ms (vars w)
                then [(ADMIN_NUMBER,
                       get_current_location_string (gps_parser (vars w)))]
                else []))
  /\ (forall t d,
        anchor w = t mod TICKS_PERIOD ->
        current_time_ms = (t + d) mod TICKS_PERIOD ->
        (0 <= d < LOCATION_INTERVAL_MS ->
         report_due current_time_ms (vars w) = false)
        /\ (LOCATION_INTERVAL_MS <= d < TICKS_PERIOD / 2 ->
            report_due current_time_ms (vars w)
            = gsm_connected (vars w) && gps_fix_acquired (vars w)
              && has_valid_gps_data (gps_parser (vars w)))).
Proof.
  intros Hfuel anchor. unfold anchor.
  split; [|split; [|split; [|split; [|split; [|split; [|split]]]]]].
  - eapply returns_weaken; [apply process_gps_data_returns|].
    cbn beta. intros _ w' [-> _]. reflexivity.
  - eapply returns_weaken; [now apply check_gps_fix_returns|].
    cbn beta. intros _ w' [-> _]. now destruct (fix_due (vars w)).
  - eapply returns_weaken; [now apply check_incoming_sms_returns|].
    cbn beta zeta. intros _ w' [-> _]. reflexivity.
  - eapply returns_weaken; [now apply check_console_commands_returns|].
    cbn beta. intros _ w' [[buffer ->] _]. reflexivity.
  - intros number message.
    eapply returns_weaken; [now apply send_sms_returns|].
    cbn beta. intros _ w' [evs [[-> _] _]]. reflexivity.
  - eapply returns_weaken; [now apply check_gsm_network_returns|].
    cbn beta. intros _ w'. unfold check_due.
    destruct (gsm_connected (vars w)) eqn:Hconn.
    + rewrite andb_false_r. cbn [andb negb]. intros ->. reflexivity.
    + destruct (gsm_initialized (vars w) && negb false
                && (ticks_diff current_time_ms (last_gsm_check_ms (vars w))
                    >=? GSM_CHECK_INTERVAL_MS));
        [|intros ->; now rewrite Hconn].
      intros [response [evs0 [evs1 [_ [_ Hcase]]]]].
      destruct (creg_status response); destruct Hcase as [-> _];
        cbn; now rewrite ?Hconn.
  - eapply returns_weaken;
      [now apply interval_location_reporting_returns|].
    cbn beta. intros _ w' [-> [evs [Ht [Hcalls _]]]].
    rewrite (since_app _ _ _ Ht), Hcalls.
    now destruct (report_due current_time_ms (vars w)).
  - intros t d Hanchor Hcur. unfold report_due. rewrite Hanchor, Hcur.
    change LOCATION_INTERVAL_MS with 60000.
    change (TICKS_PERIOD / 2) with (2 ^ 29).
    split; intros Hd;
      (rewrite ticks_diff_elapsed
         by (change (TICKS_PERIOD / 2) with (2 ^ 29); lia)).
    + destruct (Z.geb_spec d 60000); [lia|]. apply andb_false_r.
    + destruct (Z.geb_spec d 60000); [|lia]. apply andb_true_r.
Qed.

(** C6 (amended).  The "GPS fix acquired. Vehicle tracking active."
    message is a fixed text, and the fix-transition check calls [send_sms]
    with it exactly when the transition happens while [gsm_connected] is
    already true.  The registration check calls [send_sms] exactly when it
    registers, with "Vehicle Tracking System is online."; it registers
    exactly when it is due and the answer of the modem line to [AT+CREG?]
    holds a registered status.  Once [gps_fix_acquired] is set, no later
    iteration sends the fix message.
    In one iteration of the loop the calls of [send_sms] are, in this
    order: the fix message, if the fix transition happens in this iteration
    while [gsm_connected] is already true; the online message, if this
    iteration registers; and then only replies to a location request and
    the console test message, which are neither of the two notices.  An
    iteration that registers therefore makes exactly one call with the
    online message and none with the fix message, whatever the decoder
    holds, and it may make further calls for a reply or a test. *)
Theorem fix_notice_needs_registration (fuel : nat) (current_time_ms : Z)
    (w : World) :
  (101 <= fuel)%nat ->
  returns (check_gps_fix fuel) w
    (fun _ w' =>
       sms_calls (since w w')
       = if fix_due (vars w) && gsm_connected (vars w)
         then [(ADMIN_NUMBER, FIX_NOTICE)] else [])
  /\ returns (check_gsm_network fuel current_time_ms) w
       (fun _ w' =>
          sms_calls (since w w')
          = (if negb (gsm_connected (vars w)) && gsm_connected (vars w')
             then [(ADMIN_NUMBER, ONLINE_NOTICE)] else [])
          /\ if check_due current_time_ms (vars w) then
               exists response,
                 answers (gsm_uart_rx (hw w)) (now (hw w)) 500 20 response
                 /\ gsm_connected (vars w')
                    = match creg_status response with
                      | Registered => true
                      | Unregistered | Unknown => false
                      end
             else w' = w)
  /\ (gps_fix_acquired (vars w) = true ->
      forall n,
        returns (run fuel n) w
          (fun _ w' =>
             ~ In FIX_NOTICE (map snd (sms_calls (since w w')))))
  /\ returns (tick fuel) w
       (fun _ w' =>
          let fed := feed (arrived (now (hw w)) (gps_uart_rx (hw w)))
                          (gps_parser (vars w)) in
          let fix_now := negb (gps_fix_acquired (vars w))
                         && (gps_fix_type fed >=? 2)
                         && has_valid_gps_data fed in
          exists others,
            sms_calls (since w w')
            = (if fix_now && gsm_connected (vars w)
               then [(ADMIN_NUMBER, FIX_NOTICE)] else [])
              ++ (if negb (gsm_connected (vars w))
                     && gsm_connected (vars w')
                  then [(ADMIN_NUMBER, ONLINE_NOTICE)] else [])
              ++ others
            /\ (forall c, In c others ->
                  c = (ADMIN_NUMBER, get_current_location_string fed)
                  \/ c = (ADMIN_NUMBER, TEST_MESSAGE))
            /\ ~ In FIX_NOTICE (map snd others)
            /\ ~ In ONLINE_NOTICE (map snd others)
            /\ gps_fix_acquired (vars w')
               = gps_fix_acquired (vars w) || fix_now).
Proof.
  intros Hfuel. split; [|split; [|split]].
  - eapply returns_weaken; [now apply check_gps_fix_returns|].
    cbn beta. intros _ w' [_ [evs [Ht [Hcalls _]]]].
    now rewrite (since_app _ _ _ Ht).
  - eapply returns_weaken.
    { apply returns_and; [now apply check_gsm_network_calls|].
      now apply check_gsm_network_registers. }
    cbn beta. intros _ w' [[evs [Ht [Hcalls _]]] Hreg].
    rewrite (since_app _ _ _ Ht). split; [exact Hcalls | exact Hreg].
  - intros Hacq n. eapply returns_weaken; [now apply run_latched|].
    cbn beta. intros _ w' [evs [Ht [Hfix _]]].
    rewrite (since_app _ _ _ Ht). now apply Hfix.
  - eapply returns_weaken; [now apply tick_calls|].
    cbn beta zeta. intros _ w' [others [Hcalls [Hothers Hacq]]].
    exists others. split; [exact Hcalls|]. split; [exact Hothers|].
    split; [|split; [|exact Hacq]].
    + intros Hin. apply in_map_iff in Hin.
      destruct Hin as [c [Hc Hin]].
      destruct (Hothers c Hin) as [-> | ->]; cbn [snd] in Hc.
      * now apply location_string_not_notice in Hc.
      * discriminate Hc.
    + intros Hin. apply in_map_iff in Hin.
      destruct Hin as [c [Hc Hin]].
      destruct (Hothers c Hin) as [-> | ->]; cbn [snd] in Hc.
      * now apply location_string_not_online in Hc.
      * discriminate Hc.
Qed.

(** C7 (amended).  When the chunk read by block 4 of the loop contains
    "+CMT:" and, in lower case, "location", [send_sms] is called once, with
    [ADMIN_NUMBER] and the current [get_current_location_string()];
    nothing of the chunk goes into the call.  With [gsm_connected] true the
    call starts the SMS protocol towards [ADMIN_NUMBER]; with
    [gsm_connected] false it writes nothing.  A chunk without the two marks
    causes no call. *)
Theorem location_request_reply (fuel : nat) (w : World) (chunk : string) :
  (101 <= fuel)%nat ->
  arrived (now (hw w)) (gsm_uart_rx (hw w)) = chunk ->
  truthy chunk = true ->
  returns (check_incoming_sms fuel) w
    (fun _ w' =>
       vars w' = vars w
       /\ exists evs,
           since w w' = (now (hw w), Rx chunk) :: evs
           /\ sms_calls evs
              = (if contains "+CMT:" chunk && contains "location" (lower chunk)
                 then [(ADMIN_NUMBER,
                        get_current_location_string (gps_parser (vars w)))]
                 else [])
           /\ (gsm_connected (vars w) = false -> tx_bytes evs = [])
           /\ (contains "+CMT:" chunk && contains "location" (lower chunk)
               = true ->
               gsm_connected (vars w) = true ->
               exists rest,
                 tx_bytes evs = ("AT+CMGF=1" ++ CRLF)%string
                                  :: cmgs_command ADMIN_NUMBER :: rest)).
Proof.
  intros Hfuel Hchunk Htruthy.
  eapply returns_weaken; [now apply check_incoming_sms_returns|].
  cbn beta zeta. rewrite Hchunk, Htruthy. cbn [andb app].
  intros _ w' [Hv [evs [Ht [[Hcalls [_ Htx]] Hproto]]]].
  split; [exact Hv|]. exists evs.
  split; [now apply since_app|].
  split; [exact Hcalls|]. split; [exact Htx | exact Hproto].
Qed.

(** C1 (amended).  [has_valid_gps_data] is true exactly when the decoder
    currently exposes a latitude and a longitude that are both present and
    non-zero; the fix type plays no part and nothing is remembered.  The
    flag that latches is [gps_fix_acquired]: after an iteration of the loop
    it is true exactly when it was true before or the decoder, fed with the
    bytes of this iteration, reports a fix type of 2 or more together with
    valid position data. *)
Theorem fix_flag_latches (fuel : nat) (w : World) :
  (101 <= fuel)%nat ->
  (forall p,
      has_valid_gps_data p = true
      <-> exists lat lon,
          gps_latitude0 p = Some lat /\ gps_longitude0 p = Some lon
          /\ ~ Qeq lat (0 # 1) /\ ~ Qeq lon (0 # 1))
  /\ returns (tick fuel) w
       (fun _ w' =>
          gps_parser (vars w')
          = feed (arrived (now (hw w)) (gps_uart_rx (hw w)))
                 (gps_parser (vars w))
          /\ gps_fix_acquired (vars w')
             = gps_fix_acquired (vars w)
               || ((gps_fix_type (gps_parser (vars w')) >=? 2)
                   && has_valid_gps_data (gps_parser (vars w')))).
Proof.
  intros Hfuel. split.
  - intros p. unfold has_valid_gps_data, nonzero.
    destruct (gps_latitude0 p) as [lat|], (gps_longitude0 p) as [lon|].
    + rewrite andb_true_iff, !negb_true_iff. split.
      * intros [Hlat Hlon]. exists lat, lon. repeat split.
        -- intros E. apply Qeq_bool_iff in E. congruence.
        -- intros E. apply Qeq_bool_iff in E. congruence.
      * intros [lat' [lon' [E1 [E2 [Hlat Hlon]]]]].
        injection E1 as <-. injection E2 as <-.
        split; apply not_true_is_false; intros E;
          apply Qeq_bool_iff in E; tauto.
    + split; [discriminate | intros [? [? [_ [E _]]]]; discriminate].
    + split; [discriminate | intros [? [? [E _]]]; discriminate].
    + split; [discriminate | intros [? [? [E _]]]; discriminate].
  - eapply returns_weaken; [now apply tick_returns|].
    cbn beta. intros _ w' [_ H]. exact H.
Qed.

(** C2 (amended).  The loop takes its registered branch exactly when the
    response contains "+CREG: 0,1" or "+CREG: 0,5" as a substring -- so
    also for a status line that merely starts with one of them --, its
    "not registered yet" branch exactly when the response contains "+CREG:"
    but neither of the two, and neither branch exactly when "+CREG:" does
    not occur; an empty response takes neither. *)
Theorem creg_status_spec (response : string) :
  let occurs := fun needle : string =>
                  exists a b, response = (a ++ needle ++ b)%string in
  (creg_status response = Registered
   <-> occurs "+CREG: 0,1"%string \/ occurs "+CREG: 0,5"%string)
  /\ (creg_status response = Unregistered
      <-> occurs "+CREG:"%string
          /\ ~ (occurs "+CREG: 0,1"%string \/ occurs "+CREG: 0,5"%string))
  /\ (creg_status response = Unknown <-> ~ occurs "+CREG:"%string)
  /\ creg_status EmptyString = Unknown.
Proof.
  intros occurs. unfold occurs, creg_status.
  rewrite <- !contains_iff.
  assert (H1 : contains "+CREG: 0,1" response = true ->
               contains "+CREG:" response = true)
    by apply (contains_needle_prefix "+CREG:" " 0,1").
  assert (H5 : contains "+CREG: 0,5" response = true ->
               contains "+CREG:" response = true)
    by apply (contains_needle_prefix "+CREG:" " 0,5").
  destruct (contains "+CREG: 0,1" response) eqn:E1;
    destruct (contains "+CREG: 0,5" response) eqn:E5;
    destruct (contains "+CREG:" response) eqn:E; cbn [orb];
    try (specialize (H1 eq_refl)); try (specialize (H5 eq_refl));
    try discriminate;
    repeat split; try discriminate; try tauto; try reflexivity;
    try (intros [? | ?]; discriminate); intuition discriminate.
Qed.

(** ** Beyond the claims *)

(** *** Partial correctness *)

Lemma ensures_prim {A} (c : M A) (w : World) (a : A) (w1 : World)
    (Q : A -> World -> Prop) :
  c w = Some (a, w1) -> Q a w1 -> ensures c w Q.
Proof. intros Hc HQ a' w' H. congruence. Qed.

Lemma ensures_bind {A B} (c : M A) (k : A -> M B) (w : World)
    (Q : B -> World -> Prop) :
  ensures c w (fun a w1 => ensures (k a) w1 Q) -> ensures (bind c k) w Q.
Proof.
  intros H b w2 Hb. unfold bind in Hb.
  destruct (c w) as [[a w1]|] eqn:E; [|discriminate].
  exact (H a w1 E b w2 Hb).
Qed.

Lemma ensures_weaken {A} (c : M A) (w : World) (Q Q' : A -> World -> Prop) :
  ensures c w Q -> (forall a w', Q a w' -> Q' a w') -> ensures c w Q'.
Proof. intros H HQ a w' Hc. auto. Qed.

Lemma ensures_out_of_fuel {A} (w : World) (Q : A -> World -> Prop) :
  ensures out_of_fuel w Q.
Proof. intros a w' H. discriminate. Qed.

Lemma returns_ensures {A} (c : M A) (w : World) (Q R : A -> World -> Prop) :
  returns c w Q -> ensures c w R ->
  returns c w (fun a w' => Q a w' /\ R a w').
Proof. intros [a [w' [Hc HQ]]] HR. exists a, w'. auto. Qed.

Ltac eprim :=
  first [ apply ensures_bind; eapply ensures_prim; [reflexivity|]
        | eapply ensures_prim; [reflexivity|] ].

Ltac ebranch H :=
  match goal with
  | |- ensures (if ?b then _ else _) _ _ => destruct b eqn:H
  | |- ensures (bind (if ?b then _ else _) _) _ _ => destruct b eqn:H
  end.

(** *** What the modem functions leave alone *)

Lemma modem_frame_refl (w : World) : modem_frame w w.
Proof. unfold modem_frame. repeat split; lia. Qed.

Lemma modem_frame_trans (w w1 w2 : World) :
  modem_frame w w1 -> modem_frame w1 w2 -> modem_frame w w2.
Proof.
  unfold modem_frame.
  intros [A1 [A2 [A3 [A4 [A5 [A6 A7]]]]]] [B1 [B2 [B3 [B4 [B5 [B6 B7]]]]]].
  repeat split; try congruence. lia.
Qed.

Ltac frame_step :=
  unfold modem_frame; fields; repeat split; lia.

Lemma send_at_wait_frame (fuel : nat) :
  forall (start wt mx : Z) (w : World),
    ensures (send_at_wait fuel start wt mx) w (fun _ w' => modem_frame w w').
Proof.
  induction fuel as [|fuel IH]; intros start wt mx w; cbn [send_at_wait].
  - apply ensures_out_of_fuel.
  - eprim. ebranch Hlt; [|eprim; apply modem_frame_refl].
    eprim. ebranch Hany.
    + eprim. eprim. eprim. ebranch Hany2; [eprim; eprim|eprim]; frame_step.
    + eprim. eapply ensures_weaken; [apply IH|].
      cbn beta. intros _ w' H.
      eapply modem_frame_trans; [|exact H]. frame_step.
Qed.

Lemma send_at_command_frame (fuel : nat) (command : string) (wt mx : Z)
    (w : World) :
  ensures (send_at_command fuel command wt mx) w
    (fun _ w' => modem_frame w w').
Proof.
  unfold send_at_command, gsm_write. eprim. eprim. ebranch Hany.
  - eprim. eprim. eprim. eapply ensures_weaken; [apply send_at_wait_frame|].
    cbn beta. intros _ w' H.
    eapply modem_frame_trans; [|exact H]. frame_step.
  - eprim. eprim. eprim. eapply ensures_weaken; [apply send_at_wait_frame|].
    cbn beta. intros _ w' H.
    eapply modem_frame_trans; [|exact H]. frame_step.
Qed.

Lemma wait_prompt_frame (fuel : nat) :
  forall (start : Z) (response : string) (w : World),
    ensures (wait_prompt fuel start response) w
      (fun _ w' => modem_frame w w').
Proof.
  induction fuel as [|fuel IH]; intros start response w; cbn [wait_prompt].
  - apply ensures_out_of_fuel.
  - eprim. ebranch Hlt; [|eprim; apply modem_frame_refl].
    eprim.
    assert (Hrec : forall resp w1,
               modem_frame w w1 ->
               ensures (bind (sleep_ms 50)
                          (fun _ => wait_prompt fuel start resp)) w1
                 (fun _ w' => modem_frame w w')).
    { intros resp w1 H1. eprim. eapply ensures_weaken; [apply IH|].
      cbn beta. intros _ w' H.
      eapply modem_frame_trans; [exact H1|].
      eapply modem_frame_trans; [|exact H]. frame_step. }
    ebranch Hany.
    + eprim. ebranch Htruthy.
      * ebranch Hgt; [eprim; frame_step | apply Hrec; frame_step].
      * apply Hrec; frame_step.
    + apply Hrec. apply modem_frame_refl.
Qed.

Lemma wait_confirmation_frame (fuel : nat) :
  forall (start : Z) (confirmation : string) (w : World),
    ensures (wait_confirmation fuel start confirmation) w
      (fun _ w' => modem_frame w w').
Proof.
  induction fuel as [|fuel IH]; intros start confirmation w;
    cbn [wait_confirmation].
  - apply ensures_out_of_fuel.
  - eprim. ebranch Hlt; [|eprim; apply modem_frame_refl].
    eprim.
    assert (Hrec : forall conf w1,
               modem_frame w w1 ->
               ensures (bind (sleep_ms 100)
                          (fun _ => wait_confirmation fuel start conf)) w1
                 (fun _ w' => modem_frame w w')).
    { intros conf w1 H1. eprim. eapply ensures_weaken; [apply IH|].
      cbn beta. intros _ w' H.
      eapply modem_frame_trans; [exact H1|].
      eapply modem_frame_trans; [|exact H]. frame_step. }
    ebranch Hany.
    + eprim. ebranch Htruthy.
      * ebranch Hs; [eprim; frame_step|].
        ebranch He; [eprim; frame_step | apply Hrec; frame_step].
      * apply Hrec; frame_step.
    + apply Hrec. apply modem_frame_refl.
Qed.

Lemma send_sms_frame (fuel : nat) (number message : string) (w : World) :
  ensures (send_sms fuel number message) w (fun _ w' => modem_frame w w').
Proof.
  unfold send_sms, gsm_write. eprim. eprim.
  ebranch Hconn; [eprim; frame_step|].
  apply ensures_bind. eapply ensures_weaken; [apply send_at_command_frame|].
  cbn beta. intros _ w1 H1. eprim. eprim.
  apply ensures_bind. eapply ensures_weaken; [apply wait_prompt_frame|].
  cbn beta. intros r w2 H2.
  assert (H02 : modem_frame w w2).
  { eapply modem_frame_trans; [|exact H2].
    eapply modem_frame_trans; [|eapply modem_frame_trans; [exact H1|]];
      frame_step. }
  destruct r; cbn [negb].
  - eprim. eprim. eprim. eprim.
    eapply ensures_weaken; [apply wait_confirmation_frame|].
    cbn beta. intros _ w3 H3.
    eapply modem_frame_trans; [exact H02|].
    eapply modem_frame_trans; [|exact H3]. frame_step.
  - eprim. eprim. eapply modem_frame_trans; [exact H02|]. frame_step.
Qed.

Lemma truthy_append (a b : string) :
  truthy a = true -> (a ++ b)%string <> EmptyString.
Proof. destruct a; [discriminate | intros _; discriminate]. Qed.

(** *** [send_at_command]: reads, writes and time *)

Lemma send_at_wait_contract (fuel : nat) :
  forall (k q : nat) (T0 wt : Z) (w : World),
    now (hw w) = T0 + 100 * Z.of_nat k ->
    (k <= q)%nat ->
    100 * Z.of_nat q + 100 <= 2 ^ 29 ->
    (q < k + fuel)%nat ->
    returns (send_at_wait fuel (T0 mod TICKS_PERIOD) wt (100 * Z.of_nat q)) w
      (fun r w' => exists rxs,
           extends w w' (received rxs)
           /\ r = text_of rxs
           /\ (List.length rxs <= 2)%nat
           /\ ((rxs = [] /\ r = EmptyString
                /\ now (hw w') = T0 + 100 * Z.of_nat q)
               \/ (rxs <> [] /\ r <> EmptyString
                   /\ now (hw w) <= now (hw w')
                      < T0 + 100 * Z.of_nat q + Z.max 0 wt))).
Proof.
  induction fuel as [|fuel IH]; intros k q T0 wt w Hnow Hk Hq Hfuel.
  - lia.
  - cbn [send_at_wait]. prim.
    rewrite Hnow, ticks_diff_elapsed
      by (change (TICKS_PERIOD / 2) with (2 ^ 29); lia).
    destruct (100 * Z.of_nat k <? 100 * Z.of_nat q) eqn:Hlt.
    + apply Z.ltb_lt in Hlt. prim. branch Hany.
      * prim. prim. prim. fields.
        set (chunk := arrived (now (hw w)) (gsm_uart_rx (hw w))) in *.
        branch Hany2.
        -- prim. prim.
           set (chunk2 := arrived _ _).
           exists [(now (hw w), chunk); (now (hw w) + Z.max 0 wt, chunk2)].
           split; [split; fields; [reflexivity|]|].
           { rewrite <- app_assoc. reflexivity. }
           split; [now rewrite text_of_cons, text_of_single|].
           split; [cbn; lia|]. right.
           split; [discriminate|]. split; [now apply truthy_append|].
           fields. lia.
        -- prim. exists [(now (hw w), chunk)].
           split; [split; fields; reflexivity|].
           split; [now rewrite text_of_single|].
           split; [cbn; lia|]. right.
           split; [discriminate|].
           split; [destruct chunk; [discriminate Hany | discriminate]|].
           fields. lia.
      * prim. eapply returns_weaken.
        -- apply (IH (S k) q T0 wt); fields; lia.
        -- cbn beta. fields.
           intros r w' [rxs [[Hv Ht] [Hr [Hlen Hcase]]]].
           exists rxs. split; [split; auto|]. split; [exact Hr|].
           split; [exact Hlen|].
           destruct Hcase as [H|[H1 [H2 H3]]]; [now left|].
           right. split; [exact H1|]. split; [exact H2|]. lia.
    + apply Z.ltb_ge in Hlt. prim. exists [].
      split; [apply extends_refl|]. split; [reflexivity|].
      split; [cbn; lia|]. left. split; [reflexivity|].
      split; [reflexivity|]. lia.
Qed.

Lemma send_at_command_exchange (fuel : nat) (command : string) (wt : Z)
    (q : nat) (w : World) :
  100 * Z.of_nat q + 100 <= 2 ^ 29 ->
  (q < fuel)%nat ->
  returns (send_at_command fuel command wt (100 * Z.of_nat q)) w
    (fun r w' => exists flush rxs,
         extends w w'
           ((now (hw w), AtCmd command) :: received flush
              ++ (now (hw w), Tx (command ++ CRLF)%string) :: received rxs)
         /\ r = text_of rxs
         /\ (List.length flush <= 1)%nat
         /\ (List.length rxs <= 2)%nat
         /\ ((rxs = [] /\ r = EmptyString
              /\ now (hw w') = now (hw w) + 100 * Z.of_nat q)
             \/ (rxs <> [] /\ r <> EmptyString
                 /\ now (hw w) <= now (hw w')
                    < now (hw w) + 100 * Z.of_nat q + Z.max 0 wt))).
Proof.
  intros Hq Hfuel. unfold send_at_command, gsm_write.
  prim. prim. branch Hany.
  - prim. prim. prim.
    eapply returns_weaken.
    + apply (send_at_wait_contract fuel 0 q); fields; lia.
    + cbn beta. fields. intros r w' [rxs [[Hv Ht] [Hr [Hlen Hcase]]]].
      exists [(now (hw w), arrived (now (hw w)) (gsm_uart_rx (hw w)))], rxs.
      split; [split; [exact Hv|]|].
      { rewrite Ht. fields. now rewrite <- !app_assoc. }
      split; [exact Hr|]. split; [cbn; lia|]. split; [exact Hlen|].
      exact Hcase.
  - prim. prim. prim.
    eapply returns_weaken.
    + apply (send_at_wait_contract fuel 0 q); fields; lia.
    + cbn beta. fields. intros r w' [rxs [[Hv Ht] [Hr [Hlen Hcase]]]].
      exists [], rxs.
      split; [split; [exact Hv|]|].
      { rewrite Ht. fields. now rewrite <- !app_assoc. }
      split; [exact Hr|]. split; [cbn; lia|]. split; [exact Hlen|].
      exact Hcase.
Qed.

(** X1.  One [send_at_command] writes to the modem exactly once, the
    command followed by CR LF, without retry.  Before the write it reads
    at most once (the stale bytes), after it at most twice, and the
    response is the text of the reads after the write.  It leaves the
    variables, the GPS line, the console and the LEDs as they are. *)
Theorem send_at_command_io (fuel : nat) (command : string) (wt : Z)
    (q : nat) (w : World) :
  100 * Z.of_nat q + 100 <= 2 ^ 29 ->
  (q < fuel)%nat ->
  returns (send_at_command fuel command wt (100 * Z.of_nat q)) w
    (fun r w' =>
       tx_bytes (since w w') = [(command ++ CRLF)%string]
       /\ at_commands (since w w') = [command]
       /\ (exists flush rxs,
              since w w'
              = (now (hw w), AtCmd command) :: received flush
                  ++ (now (hw w), Tx (command ++ CRLF)%string)
                  :: received rxs
              /\ (List.length flush <= 1)%nat
              /\ (List.length rxs <= 2)%nat
              /\ r = text_of rxs)
       /\ modem_frame w w').
Proof.
  intros Hq Hfuel.
  eapply returns_weaken.
  { apply returns_ensures;
      [now apply send_at_command_exchange | apply send_at_command_frame]. }
  cbn beta. intros r w' [[flush [rxs [Hext [Hr [Hf [Hlen _]]]]]] Hframe].
  rewrite (since_extends _ _ _ Hext). read_log.
  split; [reflexivity|]. split; [reflexivity|]. split; [|exact Hframe].
  exists flush, rxs. auto.
Qed.

(** X2.  With a bound that is a multiple of the 100 ms poll period, a
    [send_at_command] returns no earlier than it was called and no later
    than [max_wait_ms] plus the settle delay.  An empty response comes back
    after exactly [max_wait_ms]; a non-empty one comes back sooner than
    [max_wait_ms] plus the settle delay.  When every byte of the line is
    either already there at the call or arrives after the bound, the
    response is empty: stale bytes are discarded, not answered. *)
Theorem send_at_command_latency (fuel : nat) (command : string) (wt : Z)
    (q : nat) (w : World) :
  100 * Z.of_nat q + 100 <= 2 ^ 29 ->
  (q < fuel)%nat ->
  returns (send_at_command fuel command wt (100 * Z.of_nat q)) w
    (fun r w' =>
       now (hw w) <= now (hw w')
                  <= now (hw w) + 100 * Z.of_nat q + Z.max 0 wt
       /\ (r = EmptyString ->
           now (hw w') = now (hw w) + 100 * Z.of_nat q)
       /\ (r <> EmptyString ->
           now (hw w') < now (hw w) + 100 * Z.of_nat q + Z.max 0 wt)
       /\ ((forall c, In c (gsm_uart_rx (hw w)) ->
                      fst c <= now (hw w)
                      \/ now (hw w) + 100 * Z.of_nat q <= fst c) ->
           r = EmptyString)).
Proof.
  intros Hq Hfuel.
  destruct (send_at_command_exchange fuel command wt q w Hq Hfuel)
    as [r [w' [Hrun [flush [rxs [_ [_ [_ [_ Hcase]]]]]]]]].
  exists r, w'. split; [exact Hrun|].
  split; [|split; [|split]].
  - destruct Hcase as [[_ [_ H]] | [_ [_ H]]]; lia.
  - intros Hr. destruct Hcase as [[_ [_ H]] | [_ [H _]]]; [exact H | tauto].
  - intros Hr. destruct Hcase as [[_ [H _]] | [_ [_ H]]]; [tauto | lia].
  - intros Hsilent.
    destruct (send_at_command_silent fuel command wt (100 * Z.of_nat q) w)
      as [r' [w'' [Hrun' Hr']]]; try lia; [exact Hsilent|].
    congruence.
Qed.

(** *** [send_sms]: bytes and time *)

(** X3.  What a [send_sms] writes to the modem is fixed by its outcome:
    nothing when the guard stops it; the text-mode command, the compose
    command and the cancel byte when no prompt came; and otherwise the
    text-mode command, the compose command, the message and the terminator
    0x1A -- whether the modem then confirms, rejects or stays silent.  The
    cancel byte and the message never occur in the same call. *)
Theorem send_sms_bytes (fuel : nat) (number message : string) (w : World) :
  (101 <= fuel)%nat ->
  returns (send_sms fuel number message) w
    (fun o w' =>
       tx_bytes (since w w')
       = match o with
         | NotConnected => []
         | NoPrompt =>
             [("AT+CMGF=1" ++ CRLF)%string; cmgs_command number; ESC]
         | SmsSent | SmsError | SmsTimeout =>
             [("AT+CMGF=1" ++ CRLF)%string; cmgs_command number;
              message; CTRL_Z]
         end
       /\ (o = NotConnected <-> gsm_connected (vars w) = false)).
Proof.
  intros Hfuel. destruct (gsm_connected (vars w)) eqn:Hconn.
  - eapply returns_weaken; [now apply send_sms_connected|].
    cbn beta.
    intros o w' [setup [resp [t0 [prompt [rest
      [Hext [[flush [rxs [-> _]]] [_ Hrest]]]]]]]].
    rewrite (since_extends _ _ _ Hext).
    destruct Hrest as [[_ [-> ->]] | [_ [t1 [conf [_ [-> [_ [[_ Ho] _]]]]]]]].
    + read_log. split; [reflexivity|]. split; discriminate.
    + read_log. destruct o; try contradiction;
        (split; [reflexivity|]; split; discriminate).
  - eapply returns_prim; [now apply send_sms_not_connected|].
    erewrite since_app by (fields; reflexivity).
    split; [reflexivity|]. split; reflexivity.
Qed.

Lemma wait_confirmation_time (fuel : nat) :
  forall (k : nat) (T0 : Z) (confirmation : string) (w : World),
    now (hw w) = T0 + 100 * Z.of_nat k ->
    (k <= 100)%nat ->
    ensures (wait_confirmation fuel (T0 mod TICKS_PERIOD) confirmation) w
      (fun _ w' => now (hw w') <= T0 + 10000).
Proof.
  induction fuel as [|fuel IH]; intros k T0 confirmation w Hnow Hk;
    cbn [wait_confirmation].
  - apply ensures_out_of_fuel.
  - eprim.
    rewrite Hnow, ticks_diff_elapsed
      by (change (TICKS_PERIOD / 2) with (2 ^ 29); lia).
    destruct (100 * Z.of_nat k <? 10000) eqn:Hlt.
    + apply Z.ltb_lt in Hlt. eprim.
      assert (Hrec : forall conf w1,
                 now (hw w1) = now (hw w) ->
                 ensures (bind (sleep_ms 100)
                            (fun _ => wait_confirmation fuel
                                        (T0 mod TICKS_PERIOD) conf)) w1
                   (fun _ w' => now (hw w') <= T0 + 10000)).
      { intros conf w1 H1. eprim. apply (IH (S k)); fields; lia. }
      ebranch Hany.
      * eprim. ebranch Htruthy.
        -- ebranch Hs; [eprim; fields; lia|].
           ebranch He; [eprim; fields; lia | now apply Hrec].
        -- now apply Hrec.
      * now apply Hrec.
    + apply Z.ltb_ge in Hlt. eprim. lia.
Qed.

Lemma send_sms_time (fuel : nat) (number message : string) (w : World) :
  (101 <= fuel)%nat ->
  returns (send_sms fuel number message) w
    (fun o w' => now (hw w') <= now (hw w) + 18600
                 /\ (o = NotConnected -> now (hw w') = now (hw w))).
Proof.
  intros Hfuel. destruct (gsm_connected (vars w)) eqn:Hconn.
  - unfold send_sms, gsm_write.
    prim. prim. fields. rewrite Hconn. cbn [negb].
    apply returns_bind. eapply returns_weaken.
    { apply (send_at_command_exchange fuel "AT+CMGF=1" 500 30); [|lia].
      change (2 ^ 29) with 536870912. lia. }
    cbn beta. intros resp w1 [flush [rxs [_ [_ [_ [_ Hcase]]]]]].
    fields_all.
    assert (H1 : now (hw w1) <= now (hw w) + 3500)
      by (destruct Hcase as [[_ [_ H]] | [_ [_ H]]]; lia).
    clear Hcase. prim. prim.
    apply returns_bind. eapply returns_weaken.
    { apply (wait_prompt_returns fuel 0 (now (hw w1))); fields;
        [lia | lia | lia | reflexivity]. }
    cbn beta. intros r w2 [prompt [_ [_ [_ Hend]]]]. fields_all.
    assert (H2 : now (hw w2) <= now (hw w1) + 5000)
      by (destruct r; lia).
    clear Hend. destruct r; cbn [negb].
    + prim. prim. prim. prim.
      eapply returns_weaken.
      { apply returns_ensures.
        - apply (wait_confirmation_returns fuel 0 (now (hw w2) + 100));
            fields; [lia | lia | lia | reflexivity | reflexivity].
        - apply (wait_confirmation_time fuel 0 (now (hw w2) + 100));
            fields; lia. }
      cbn beta. intros o w3 [[conf [_ [_ [[_ Ho] _]]]] H3].
      split; [lia|]. intros ->. contradiction.
    + prim. prim. fields. split; [lia | discriminate].
  - eapply returns_prim; [now apply send_sms_not_connected|].
    fields. split; [lia | reflexivity].
Qed.

(** X4.  A [send_sms] returns within 18600 ms of its call (3500 for the
    text-mode command, 5000 for the prompt, 100 of settle delay, 10000 for
    the confirmation), at once when the guard stops it, and the clock never
    goes back.  It changes no module-level variable and leaves the GPS
    line, the console input and the LEDs untouched. *)
Theorem send_sms_latency (fuel : nat) (number message : string) (w : World) :
  (101 <= fuel)%nat ->
  returns (send_sms fuel number message) w
    (fun o w' =>
       now (hw w) <= now (hw w') <= now (hw w) + 18600
       /\ (o = NotConnected -> now (hw w') = now (hw w))
       /\ modem_frame w w').
Proof.
  intros Hfuel.
  eapply returns_weaken.
  { apply returns_ensures; [now apply send_sms_time | apply send_sms_frame]. }
  cbn beta. intros o w' [[Hhi Hguard] Hframe].
  split; [|split; [exact Hguard | exact Hframe]].
  destruct Hframe as [_ [_ [_ [_ [_ [_ Hlo]]]]]]. lia.
Qed.

(** *** A modem that stays silent *)

Lemma send_at_wait_quiet (fuel : nat) :
  forall (k q : nat) (T0 wt : Z) (w : World),
    now (hw w) = T0 + 100 * Z.of_nat k ->
    (k <= q)%nat ->
    100 * Z.of_nat q + 100 <= 2 ^ 29 ->
    (q < k + fuel)%nat ->
    (forall T, now (hw w) <= T < T0 + 100 * Z.of_nat q ->
               arrived T (gsm_uart_rx (hw w)) = EmptyString) ->
    returns (send_at_wait fuel (T0 mod TICKS_PERIOD) wt (100 * Z.of_nat q)) w
      (fun r w' =>
         r = EmptyString
         /\ now (hw w') = T0 + 100 * Z.of_nat q
         /\ vars w' = vars w
         /\ gsm_uart_rx (hw w') = gsm_uart_rx (hw w)
         /\ trace (hw w') = trace (hw w)).
Proof.
  induction fuel as [|fuel IH]; intros k q T0 wt w Hnow Hk Hq Hfuel Hquiet.
  - lia.
  - cbn [send_at_wait]. prim.
    rewrite Hnow, ticks_diff_elapsed
      by (change (TICKS_PERIOD / 2) with (2 ^ 29); lia).
    destruct (100 * Z.of_nat k <? 100 * Z.of_nat q) eqn:Hlt.
    + apply Z.ltb_lt in Hlt. prim.
      rewrite (Hquiet (now (hw w))) by lia. cbn [truthy]. prim.
      eapply returns_weaken.
      * apply (IH (S k) q T0 wt); fields; try lia.
        intros T HT. apply Hquiet. lia.
      * cbn beta. fields. tauto.
    + apply Z.ltb_ge in Hlt. prim. repeat split. lia.
Qed.

Lemma wait_prompt_quiet (fuel : nat) :
  forall (k : nat) (T0 : Z) (response : string) (w : World),
    now (hw w) = T0 + 50 * Z.of_nat k ->
    (k <= 100)%nat -> (101 <= k + fuel)%nat ->
    (forall T, now (hw w) <= T < T0 + 5000 ->
               arrived T (gsm_uart_rx (hw w)) = EmptyString) ->
    returns (wait_prompt fuel (T0 mod TICKS_PERIOD) response) w
      (fun r w' =>
         r = false
         /\ now (hw w') = T0 + 5000
         /\ vars w' = vars w
         /\ trace (hw w') = trace (hw w)).
Proof.
  induction fuel as [|fuel IH]; intros k T0 response w Hnow Hk Hfuel Hquiet.
  - lia.
  - cbn [wait_prompt]. prim.
    rewrite Hnow, ticks_diff_elapsed
      by (change (TICKS_PERIOD / 2) with (2 ^ 29); lia).
    destruct (50 * Z.of_nat k <? 5000) eqn:Hlt.
    + apply Z.ltb_lt in Hlt. prim.
      rewrite (Hquiet (now (hw w))) by lia. cbn [truthy]. prim.
      eapply returns_weaken.
      * apply (IH (S k) T0 response); fields; try lia.
        intros T HT. apply Hquiet. lia.
      * cbn beta. fields. tauto.
    + apply Z.ltb_ge in Hlt. prim. repeat split. lia.
Qed.

Lemma arrived_pending_now (rx : list (Z * string)) (t : Z) :
  arrived t (pending t rx) = EmptyString.
Proof.
  unfold arrived, pending. induction rx as [|c rx IH]; [reflexivity|].
  cbn [filter]. destruct (Z.leb_spec (fst c) t) as [H|H]; cbn [negb].
  - exact IH.
  - cbn [filter]. destruct (Z.leb_spec (fst c) t); [lia | exact IH].
Qed.

Lemma send_at_command_quiet (fuel : nat) (command : string) (wt : Z)
    (q : nat) (B : Z) (w : World) :
  100 * Z.of_nat q + 100 <= 2 ^ 29 ->
  (q < fuel)%nat ->
  100 * Z.of_nat q <= B ->
  (forall c, In c (gsm_uart_rx (hw w)) ->
             fst c <= now (hw w) \/ now (hw w) + B <= fst c) ->
  returns (send_at_command fuel command wt (100 * Z.of_nat q)) w
    (fun r w' =>
       r = EmptyString
       /\ now (hw w') = now (hw w) + 100 * Z.of_nat q
       /\ vars w' = vars w
       /\ (exists evs,
              trace (hw w') = trace (hw w) ++ evs
              /\ tx_bytes evs = [(command ++ CRLF)%string]
              /\ sms_calls evs = [])
       /\ (forall T, now (hw w) <= T < now (hw w) + B ->
                     arrived T (gsm_uart_rx (hw w')) = EmptyString)).
Proof.
  intros Hq Hfuel HB Hgap. unfold send_at_command, gsm_write.
  prim. prim. branch Hany.
  - prim. prim. prim.
    eapply returns_weaken.
    + apply (send_at_wait_quiet fuel 0 q); fields; try lia.
      intros T HT. eapply arrived_pending_gap; [exact Hgap | lia].
    + cbn beta. fields. intros r w' [Hr [Hnow [Hv [Hrx Ht]]]].
      split; [exact Hr|]. split; [lia|]. split; [exact Hv|]. split.
      * eexists. rewrite Ht. split.
        { repeat (rewrite <- app_assoc; cbn [app]). reflexivity. }
        split; reflexivity.
      * intros T HT. rewrite Hrx.
        eapply arrived_pending_gap; [exact Hgap | lia].
  - prim. prim. prim.
    eapply returns_weaken.
    + apply (send_at_wait_quiet fuel 0 q); fields; try lia.
      intros T HT.
      rewrite (arrived_gap _ (now (hw w)) (now (hw w) + B)) by (auto; lia).
      revert Hany. fields. apply truthy_false.
    + cbn beta. fields. intros r w' [Hr [Hnow [Hv [Hrx Ht]]]].
      split; [exact Hr|]. split; [lia|]. split; [exact Hv|]. split.
      * eexists. rewrite Ht. split.
        { repeat (rewrite <- app_assoc; cbn [app]). reflexivity. }
        split; reflexivity.
      * intros T HT. rewrite Hrx.
        rewrite (arrived_gap _ (now (hw w)) (now (hw w) + B)) by (auto; lia).
        revert Hany. fields. apply truthy_false.
Qed.

(** X5.  On a registered board whose modem delivers nothing during the
    8000 ms after the call (bytes already waiting are stale and discarded),
    [send_sms] writes the text-mode command, the compose command and, 8000
    ms after the call, the cancel byte, and fails with [NoPrompt]: the
    message is never written and the call takes exactly 8000 ms. *)
Theorem send_sms_silent_modem (fuel : nat) (number message : string)
    (w : World) :
  (101 <= fuel)%nat ->
  gsm_connected (vars w) = true ->
  (forall c, In c (gsm_uart_rx (hw w)) ->
             fst c <= now (hw w) \/ now (hw w) + 8000 <= fst c) ->
  returns (send_sms fuel number message) w
    (fun o w' =>
       o = NoPrompt
       /\ now (hw w') = now (hw w) + 8000
       /\ tx_bytes (since w w')
          = [("AT+CMGF=1" ++ CRLF)%string; cmgs_command number; ESC]
       /\ In (now (hw w) + 8000, Tx ESC) (since w w')).
Proof.
  intros Hfuel Hconn Hgap. unfold send_sms, gsm_write.
  prim. prim. fields. rewrite Hconn. cbn [negb].
  apply returns_bind. eapply returns_weaken.
  { apply (send_at_command_quiet fuel "AT+CMGF=1" 500 30 8000); fields;
      [change (2 ^ 29) with 536870912; lia | lia | lia | exact Hgap]. }
  cbn beta. fields.
  intros resp w1 [_ [Hnow1 [Hv1 [[evs [Ht1 [Htx1 _]]] Hquiet1]]]].
  prim. prim.
  apply returns_bind. eapply returns_weaken.
  { apply (wait_prompt_quiet fuel 0 (now (hw w1))); fields; try lia.
    intros T HT. apply Hquiet1. lia. }
  cbn beta. fields. intros r w2 [-> [Hnow2 [Hv2 Ht2]]]. cbn [negb].
  prim. prim. fields.
  split; [reflexivity|]. split; [lia|].
  assert (Hsince : since w
            (mkWorld (vars w2)
               (mkHw (now (hw w2)) (gsm_uart_rx (hw w2))
                     (gps_uart_rx (hw w2)) (stdin_rx (hw w2))
                     (has_select (hw w2)) (gsm_led (hw w2))
                     (gps_led (hw w2))
                     (trace (hw w2) ++ [(now (hw w2), Tx ESC)])))
          = (now (hw w), Sms number message) :: evs
              ++ [(now (hw w1), Tx (cmgs_command number));
                  (now (hw w2), Tx ESC)]).
  { apply since_app. fields. rewrite Ht2, Ht1.
    repeat (rewrite <- app_assoc; cbn [app]). reflexivity. }
  rewrite Hsince. split.
  - read_log. now rewrite Htx1.
  - right. apply in_or_app. right. right. left.
    f_equal. lia.
Qed.

(** *** [get_current_location_string] *)

Lemma fmt_02d_small :
  forallb (fun m => Nat.eqb (String.length (fmt_02d (Z.of_nat m))) 2)
          (seq 0 100) = true.
Proof. vm_compute. reflexivity. Qed.

Lemma fmt_02d_width (n : Z) :
  0 <= n <= 99 -> String.length (fmt_02d n) = 2%nat.
Proof.
  intros Hn. pose proof fmt_02d_small as H.
  rewrite forallb_forall in H.
  specialize (H (Z.to_nat n)). rewrite Z2Nat.id in H by lia.
  apply Nat.eqb_eq, H, in_seq. lia.
Qed.

Lemma length_append (a b : string) :
  String.length (a ++ b) = (String.length a + String.length b)%nat.
Proof. induction a as [|c a IH]; cbn; [reflexivity | now rewrite IH]. Qed.

Ltac normal_text :=
  unfold NL; repeat (progress (cbn [append]; rewrite ?append_assoc)).

Lemma location_string_no_signal (p : gps) :
  get_current_location_string p = NO_SIGNAL
  <-> has_valid_gps_data p = false.
Proof.
  unfold get_current_location_string, NO_SIGNAL.
  destruct (has_valid_gps_data p); [|tauto].
  cbn [append]. split; discriminate.
Qed.

Lemma location_string_prefix (p : gps) :
  has_valid_gps_data p = true ->
  prefix "Location: " (get_current_location_string p) = true.
Proof.
  intros Hvalid. unfold get_current_location_string. rewrite Hvalid.
  apply prefix_iff. eexists. reflexivity.
Qed.

(** What the f-string of the time line yields when no field raises. *)
Lemma format_time_some (dt ts : pyval * pyval * pyval) (text : string) :
  format_time dt ts = Some text ->
  exists a b c h m second,
    dt = (PyInt a, PyInt b, PyInt c)
    /\ fst ts = (PyInt h, PyInt m)
    /\ format_int_02d (snd ts) = Some second
    /\ text = (NL ++ "Time: " ++ fmt_02d a ++ "/" ++ fmt_02d b ++ "/20"
                  ++ fmt_02d c ++ " " ++ fmt_02d h ++ ":" ++ fmt_02d m
                  ++ ":" ++ second)%string.
Proof.
  destruct dt as [[d0 d1] d2], ts as [[t0 t1] t2]. unfold format_time.
  destruct d0 as [|a|]; cbn [format_02d]; try discriminate.
  destruct d1 as [|b|]; cbn [format_02d]; try discriminate.
  destruct d2 as [|c|]; cbn [format_02d]; try discriminate.
  destruct t0 as [|h|]; cbn [format_02d]; try discriminate.
  destruct t1 as [|m|]; cbn [format_02d]; try discriminate.
  destruct (format_int_02d t2) as [second|] eqn:E; [|discriminate].
  intros H. injection H as <-.
  exists a, b, c, h, m, second. cbn [fst snd]. auto.
Qed.

(** A field that is not an [int] makes the f-string raise. *)
Lemma format_time_raises (d0 d1 d2 t0 t1 t2 : pyval) :
  (exists x, In x [d0; d1; d2; t0; t1] /\ is_int x = false)
  \/ t2 = PyNone ->
  format_time (d0, d1, d2) (t0, t1, t2) = None.
Proof.
  intros H. destruct (format_time _ _) as [text|] eqn:E; [|reflexivity].
  apply format_time_some in E.
  destruct E as [a [b [c [h [m [second [E1 [E2 [E3 _]]]]]]]]].
  cbn [fst snd] in E2, E3. injection E1 as -> -> ->. injection E2 as -> ->.
  destruct H as [[x [Hin Hx]] | ->]; [|discriminate E3].
  cbn [In] in Hin.
  destruct Hin as [<-|[<-|[<-|[<-|[<-|[]]]]]]; discriminate Hx.
Qed.

(** The shape of the location text, and where its time comes from. *)
Lemma location_string_parts (p : gps) (lat lon : Q) :
  has_valid_gps_data p = true ->
  gps_latitude0 p = Some lat -> gps_longitude0 p = Some lon ->
  exists time,
    get_current_location_string p
    = ("Location: " ++ gps_latitude_string p ++ ", "
         ++ gps_longitude_string p ++ NL ++ "Time: " ++ time ++ NL
         ++ "Map: http://maps.google.com/maps?q=" ++ float_str lat
         ++ "," ++ float_str lon)%string
    /\ ((time = "N/A"%string
         /\ (py_truthy (fst (fst (gps_date p)))
               && is_not_none (fst (fst (gps_timestamp p))) = false
             \/ format_time (gps_date p) (gps_timestamp p) = None))
        \/ (py_truthy (fst (fst (gps_date p)))
              && is_not_none (fst (fst (gps_timestamp p))) = true
            /\ format_time (gps_date p) (gps_timestamp p)
               = Some (NL ++ "Time: " ++ time)%string)).
Proof.
  intros Hvalid Hlat Hlon. unfold get_current_location_string.
  rewrite Hvalid, Hlat, Hlon. cbv zeta.
  destruct (py_truthy _ && is_not_none _) eqn:Hguard.
  - destruct (format_time _ _) as [text|] eqn:Hfmt.
    + destruct (format_time_some _ _ _ Hfmt)
        as [a [b [c [h [m [second [_ [_ [_ Htext]]]]]]]]].
      subst text.
      exists (fmt_02d a ++ "/" ++ fmt_02d b ++ "/20" ++ fmt_02d c ++ " "
                ++ fmt_02d h ++ ":" ++ fmt_02d m ++ ":" ++ second)%string.
      split; [|right; split; reflexivity].
      normal_text. reflexivity.
    + exists "N/A"%string. split; [normal_text; reflexivity|].
      left. split; [reflexivity | now right].
  - exists "N/A"%string. split; [normal_text; reflexivity|].
    left. split; [reflexivity | now left].
Qed.

(** X6.  [get_current_location_string] returns the text "GPS signal not
    available. Please wait." exactly when [has_valid_gps_data] is false.
    Otherwise the text starts with "Location: ", carries the two position
    strings of the decoder, a time line, and ends with a map link built
    from the very latitude and longitude that were tested, both non-zero. *)
Theorem location_string_shape (p : gps) :
  (get_current_location_string p = NO_SIGNAL
   <-> has_valid_gps_data p = false)
  /\ (has_valid_gps_data p = true ->
      exists lat lon time,
        gps_latitude0 p = Some lat /\ gps_longitude0 p = Some lon
        /\ ~ Qeq lat (0 # 1) /\ ~ Qeq lon (0 # 1)
        /\ get_current_location_string p
           = ("Location: " ++ gps_latitude_string p ++ ", "
                ++ gps_longitude_string p ++ NL ++ "Time: " ++ time ++ NL
                ++ "Map: http://maps.google.com/maps?q=" ++ float_str lat
                ++ "," ++ float_str lon)%string).
Proof.
  split; [apply location_string_no_signal|].
  intros Hvalid. pose proof Hvalid as Hv.
  unfold has_valid_gps_data, nonzero in Hv.
  destruct (gps_latitude0 p) as [lat|] eqn:Hlat; [|discriminate].
  destruct (gps_longitude0 p) as [lon|] eqn:Hlon; [|discriminate].
  apply andb_true_iff in Hv. destruct Hv as [Hnz1 Hnz2].
  apply negb_true_iff in Hnz1, Hnz2.
  destruct (location_string_parts p lat lon Hvalid Hlat Hlon)
    as [time [Htext _]].
  exists lat, lon, time.
  split; [reflexivity|]. split; [reflexivity|].
  split; [intros E; apply Qeq_bool_iff in E; congruence|].
  split; [intros E; apply Qeq_bool_iff in E; congruence|].
  exact Htext.
Qed.

(** X7.  The time line of the location text degrades, it never fails.
    It is "Time: N/A" when the day of the date is falsy (0 or [None]) or
    the hour is [None], and also when the formatting raises: when the day,
    the month, the year, the hour or the minute is not an [int] -- the hour
    of a decoder built with a fractional [local_offset] is a [float] -- or
    the seconds are [None].  Only when those five are [int]s and the day is
    not 0 is the time dd/mm/20yy hh:mm:ss, every field zero-padded to two
    digits and the seconds truncated; it then is 19 characters long when
    all fields lie in 0..99. *)
Theorem location_string_time (p : gps) (lat lon : Q)
    (d0 d1 d2 t0 t1 t2 : pyval) :
  has_valid_gps_data p = true ->
  gps_latitude0 p = Some lat -> gps_longitude0 p = Some lon ->
  gps_date p = (d0, d1, d2) ->
  gps_timestamp p = (t0, t1, t2) ->
  exists time,
    get_current_location_string p
    = ("Location: " ++ gps_latitude_string p ++ ", "
         ++ gps_longitude_string p ++ NL ++ "Time: " ++ time ++ NL
         ++ "Map: http://maps.google.com/maps?q=" ++ float_str lat
         ++ "," ++ float_str lon)%string
    /\ (py_truthy d0 = false \/ t0 = PyNone -> time = "N/A"%string)
    /\ ((exists x, In x [d0; d1; d2; t0; t1] /\ is_int x = false)
        \/ t2 = PyNone ->
        time = "N/A"%string)
    /\ (forall day month year hour minute second,
          d0 = PyInt day -> day <> 0 ->
          d1 = PyInt month -> d2 = PyInt year ->
          t0 = PyInt hour -> t1 = PyInt minute ->
          t2 = PyInt second
          \/ (exists x, t2 = PyFloat x /\ second = int_of_float x) ->
          time = (fmt_02d day ++ "/" ++ fmt_02d month ++ "/20"
                    ++ fmt_02d year ++ " " ++ fmt_02d hour ++ ":"
                    ++ fmt_02d minute ++ ":" ++ fmt_02d second)%string
          /\ (0 <= day <= 99 -> 0 <= month <= 99 -> 0 <= year <= 99 ->
              0 <= hour <= 99 -> 0 <= minute <= 99 ->
              0 <= second <= 99 ->
              String.length time = 19%nat)).
Proof.
  intros Hvalid Hlat Hlon Hdate Htime.
  destruct (location_string_parts p lat lon Hvalid Hlat Hlon)
    as [time [Htext Hcases]].
  rewrite Hdate, Htime in Hcases. cbn [fst snd] in Hcases.
  exists time. split; [exact Htext|].
  destruct Hcases as [[-> Hwhy] | [Hguard Hfmt]].
  - split; [reflexivity|]. split; [reflexivity|].
    intros day month year hour minute second -> Hday -> -> -> -> Hsec.
    exfalso. destruct Hwhy as [Hguard | Hfmt].
    + cbn [py_truthy is_not_none] in Hguard.
      rewrite andb_true_r in Hguard. apply negb_false_iff in Hguard.
      apply Z.eqb_eq in Hguard. contradiction.
    + destruct Hsec as [-> | [x [-> _]]]; discriminate Hfmt.
  - apply andb_true_iff in Hguard. destruct Hguard as [Hd0 Ht0].
    split; [|split].
    + intros [E|E]; [congruence | subst t0; discriminate Ht0].
    + intros Hraise.
      rewrite (format_time_raises _ _ _ _ _ _ Hraise) in Hfmt.
      discriminate Hfmt.
    + intros day month year hour minute second -> Hday -> -> -> -> Hsec.
      assert (Htxt : (NL ++ "Time: " ++ time)%string
                     = (NL ++ "Time: " ++ fmt_02d day ++ "/"
                          ++ fmt_02d month ++ "/20" ++ fmt_02d year ++ " "
                          ++ fmt_02d hour ++ ":" ++ fmt_02d minute ++ ":"
                          ++ fmt_02d second)%string).
      { destruct Hsec as [-> | [x [-> ->]]];
          cbn [format_time format_02d format_int_02d] in Hfmt;
          congruence. }
      unfold NL in Htxt. cbn [append] in Htxt.
      injection Htxt as Htxt. split; [exact Htxt|].
      intros R0 R1 R2 R3 R4 R5. rewrite Htxt.
      repeat (progress (rewrite ?length_append; cbn [String.length])).
      rewrite !fmt_02d_width by assumption. reflexivity.
Qed.

(** X8.  The periodic report never carries the "GPS signal not available"
    text: when it calls [send_sms], the message is a location.  The reply
    to an incoming request is sent with or without a position, and carries
    that text exactly when the position data is not valid. *)
Theorem report_text (fuel : nat) (current_time_ms : Z) (w : World) :
  (101 <= fuel)%nat ->
  returns (interval_location_reporting fuel current_time_ms) w
    (fun _ w' =>
       forall n m, In (n, m) (sms_calls (since w w')) ->
                   n = ADMIN_NUMBER /\ m <> NO_SIGNAL
                   /\ prefix "Location: " m = true)
  /\ returns (check_incoming_sms fuel) w
       (fun _ w' =>
          forall n m, In (n, m) (sms_calls (since w w')) ->
                      n = ADMIN_NUMBER
                      /\ (m = NO_SIGNAL
                          <-> has_valid_gps_data (gps_parser (vars w))
                              = false)).
Proof.
  intros Hfuel. split.
  - eapply returns_weaken;
      [now apply interval_location_reporting_returns|].
    cbn beta. intros _ w' [_ [evs [Ht [Hcalls _]]]].
    rewrite (since_app _ _ _ Ht), Hcalls. intros n m.
    unfold report_due.
    destruct (has_valid_gps_data (gps_parser (vars w))) eqn:Hvalid;
      [|rewrite andb_false_r; cbn [andb]; intros []].
    destruct (_ && _ && true && _); [|intros []].
    intros [E|[]]. injection E as <- <-. split; [reflexivity|].
    split; [|now apply location_string_prefix].
    intros E. apply location_string_no_signal in E. congruence.
  - eapply returns_weaken; [now apply check_incoming_sms_returns|].
    cbn beta zeta. intros _ w' [_ [evs [Ht [[Hcalls _] _]]]].
    rewrite (since_app _ _ _ Ht). read_log.
    replace (sms_calls
               (if truthy (arrived (now (hw w)) (gsm_uart_rx (hw w)))
                then [(now (hw w),
                       Rx (arrived (now (hw w)) (gsm_uart_rx (hw w))))]
                else []))
      with (@nil (string * string)) by (now destruct (truthy _)).
    cbn [app]. rewrite Hcalls. intros n m.
    destruct (_ && _); [|intros []].
    intros [E|[]]. injection E as <- <-. split; [reflexivity|].
    apply location_string_no_signal.
Qed.

(** *** The loop, block by block *)

Lemma loop_frame_refl (w : World) : loop_frame w w.
Proof.
  unfold loop_frame. repeat split; auto; try lia.
  exists []. rewrite app_nil_r. repeat split; auto; intros x [].
Qed.

Lemma loop_frame_trans (w w1 w2 : World) :
  loop_frame w w1 -> loop_frame w1 w2 -> loop_frame w w2.
Proof.
  intros [A1 [A2 [A3 [A4 [A5 [e1 [At [Ac Ai]]]]]]]]
         [B1 [B2 [B3 [B4 [B5 [e2 [Bt [Bc Bi]]]]]]]].
  split; [congruence|]. split; [congruence|]. split; [lia|].
  split; [auto|]. split; [auto|].
  exists (e1 ++ e2). split; [now rewrite Bt, At, app_assoc|]. split.
  - intros H2. destruct (Bc H2) as [H1 [Bx By]].
    destruct (Ac H1) as [H0 [Ax Ay]]. split; [exact H0|].
    rewrite tx_bytes_app, at_commands_app.
    split; intros x Hx; apply in_app_iff in Hx; destruct Hx; auto.
  - intros Hi Hc. destruct (Ai Hi Hc) as [H1 [Ax Ay]].
    assert (Hi1 : gsm_initialized (vars w1) = false) by congruence.
    destruct (Bi Hi1 H1) as [H2 [Bx By]]. split; [exact H2|].
    rewrite tx_bytes_app, at_commands_app, Ax, Ay, Bx, By. auto.
Qed.

Lemma block_frame_refl (w : World) : block_frame w w.
Proof. repeat split. Qed.

Lemma block_frame_trans (w w1 w2 : World) :
  block_frame w w1 -> block_frame w1 w2 -> block_frame w w2.
Proof. intros [A1 [A2 A3]] [B1 [B2 B3]]. repeat split; congruence. Qed.

(** A call that touches only the modem, and writes nothing while the board
    is not connected, keeps the frame of the loop. *)
Lemma modem_loop_frame (w w' : World) (evs : list (Z * event)) :
  modem_frame w w' ->
  trace (hw w') = trace (hw w) ++ evs ->
  (gsm_connected (vars w) = false ->
   tx_bytes evs = [] /\ at_commands evs = []) ->
  loop_frame w w' /\ block_frame w w'.
Proof.
  intros [Hv [Hg [Hs [Hsel [Hl1 [Hl2 Hnow]]]]]] Ht Hoff. split.
  - unfold loop_frame. rewrite Hv, Hsel, Hl1, Hl2.
    repeat split; auto.
    exists evs. split; [exact Ht|]. split.
    + intros Hc. destruct (Hoff Hc) as [-> ->].
      repeat split; auto; intros x [].
    + intros _ Hc. destruct (Hoff Hc). auto.
  - unfold block_frame. now rewrite Hv, Hg, Hs.
Qed.

Lemma send_sms_effect (fuel : nat) (number message : string) (w : World) :
  (101 <= fuel)%nat ->
  returns (send_sms fuel number message) w
    (fun _ w' =>
       (loop_frame w w' /\ block_frame w w')
       /\ vars w' = vars w
       /\ gsm_led (hw w') = gsm_led (hw w)
       /\ gps_led (hw w') = gps_led (hw w)
       /\ now (hw w') <= now (hw w)
                          + (if gsm_connected (vars w) then 18600 else 0)).
Proof.
  intros Hfuel. destruct (gsm_connected (vars w)) eqn:Hconn.
  - eapply returns_weaken.
    { apply returns_and; [|now apply send_sms_time].
      apply returns_ensures; [now apply send_sms_returns|].
      apply send_sms_frame. }
    cbn beta.
    intros o w' [[[evs [[_ Ht] _]] Hframe] [Hhi _]].
    split.
    + apply (modem_loop_frame w w' evs); auto. congruence.
    + destruct Hframe as [Hv [_ [_ [_ [H1 [H2 _]]]]]]. auto.
  - eapply returns_prim; [now apply send_sms_not_connected|].
    split.
    + apply (modem_loop_frame w _ [(now (hw w), Sms number message)]).
      * frame_step.
      * reflexivity.
      * intros _. split; reflexivity.
    + fields. repeat split. lia.
Qed.

(** A step that leaves the log as it is. *)
Lemma quiet_loop_frame (w w' : World) :
  trace (hw w') = trace (hw w) ->
  gsm_initialized (vars w') = gsm_initialized (vars w) ->
  gsm_connected (vars w') = gsm_connected (vars w) ->
  has_select (hw w') = has_select (hw w) ->
  now (hw w) <= now (hw w') ->
  (gsm_led (hw w) = gsm_connected (vars w) ->
   gsm_led (hw w') = gsm_connected (vars w')) ->
  (gps_led (hw w) = gps_fix_acquired (vars w) ->
   gps_led (hw w') = gps_fix_acquired (vars w')) ->
  loop_frame w w'.
Proof.
  intros Ht Hi Hc Hs Hn Hl1 Hl2. unfold loop_frame.
  repeat split; auto.
  exists []. rewrite app_nil_r. split; [exact Ht|]. split.
  - intros H. split; [congruence|]. split; intros x [].
  - intros _ H. split; [congruence|]. auto.
Qed.

Ltac var_fields :=
  cbn [vars hw now trace gsm_uart_rx gps_uart_rx stdin_rx has_select
       gsm_led gps_led gsm_connected gps_fix_acquired gsm_initialized
       gps_parser last_location_sent_ms last_gsm_check_ms input_buffer
       with_gsm_connected with_gps_fix_acquired with_gsm_initialized
       with_gps_parser with_last_location_sent_ms with_last_gsm_check_ms
       with_input_buffer] in *.

Lemma process_gps_data_paced (w : World) :
  returns process_gps_data w
    (fun _ w' =>
       loop_frame w w'
       /\ stdin_rx (hw w') = stdin_rx (hw w)
       /\ input_buffer (vars w') = input_buffer (vars w)
       /\ gsm_connected (vars w') = gsm_connected (vars w)
       /\ now (hw w') = now (hw w)
       /\ gps_uart_rx (hw w')
          = (if truthy (arrived (now (hw w)) (gps_uart_rx (hw w)))
             then pending (now (hw w)) (gps_uart_rx (hw w))
             else gps_uart_rx (hw w))).
Proof.
  unfold process_gps_data. prim. branch Hany.
  - prim. prim. prim. var_fields. split.
    + apply quiet_loop_frame; var_fields; auto. lia.
    + repeat split.
  - prim. split; [apply loop_frame_refl|]. repeat split.
Qed.

Lemma check_gps_fix_paced (fuel : nat) (w : World) :
  (101 <= fuel)%nat ->
  returns (check_gps_fix fuel) w
    (fun _ w' =>
       loop_frame w w' /\ block_frame w w'
       /\ gsm_connected (vars w') = gsm_connected (vars w)
       /\ now (hw w') <= now (hw w)
                          + (if gsm_connected (vars w) then 18600 else 0)).
Proof.
  intros Hfuel. unfold check_gps_fix. prim. fields.
  assert (Hidle : loop_frame w w /\ block_frame w w
                  /\ gsm_connected (vars w) = gsm_connected (vars w)
                  /\ now (hw w) <= now (hw w)
                       + (if gsm_connected (vars w) then 18600 else 0)).
  { split; [apply loop_frame_refl|]. split; [apply block_frame_refl|].
    split; [reflexivity|]. destruct (gsm_connected (vars w)); lia. }
  branch Hdue; [|prim; exact Hidle].
  prim. prim.
  set (w1 := mkWorld _ _).
  assert (H1 : loop_frame w w1 /\ block_frame w w1).
  { split; [|repeat split].
    apply quiet_loop_frame; subst w1; var_fields; auto. lia. }
  branch Hconn.
  - apply returns_bind. eapply returns_weaken.
    { apply send_sms_effect. exact Hfuel. }
    cbn beta. intros _ w2 [[L2 F2] [Hv2 [_ [_ Hhi]]]]. prim.
    destruct H1 as [L1 F1].
    split; [exact (loop_frame_trans _ _ _ L1 L2)|].
    split; [exact (block_frame_trans _ _ _ F1 F2)|].
    rewrite Hv2. subst w1. var_fields. rewrite Hconn in Hhi.
    split; [exact Hconn | exact Hhi].
  - prim. destruct H1 as [L1 F1]. split; [exact L1|]. split; [exact F1|].
    subst w1. var_fields. split; [exact Hconn | lia].
Qed.

Lemma creg_query (fuel : nat) (w : World) :
  (101 <= fuel)%nat ->
  returns (send_at_command fuel "AT+CREG?" 500 2000) w
    (fun _ w' =>
       modem_frame w w'
       /\ now (hw w') <= now (hw w) + 2500
       /\ exists evs,
           trace (hw w') = trace (hw w) ++ evs
           /\ tx_bytes evs = [("AT+CREG?" ++ CRLF)%string]
           /\ at_commands evs = ["AT+CREG?"%string]).
Proof.
  intros Hfuel. eapply returns_weaken.
  { apply returns_ensures; [|apply send_at_command_frame].
    apply (send_at_command_exchange fuel "AT+CREG?" 500 20); [|lia].
    change (2 ^ 29) with 536870912. lia. }
  cbn beta. intros r w' [[flush [rxs [[_ Ht] [_ [_ [_ Hcase]]]]]] Hframe].
  split; [exact Hframe|]. split.
  - destruct Hcase as [[_ [_ H]] | [_ [_ H]]]; lia.
  - eexists. split; [exact Ht|]. read_log. split; reflexivity.
Qed.

Lemma check_gsm_network_paced (fuel : nat) (current_time_ms : Z)
    (w : World) :
  (101 <= fuel)%nat ->
  returns (check_gsm_network fuel current_time_ms) w
    (fun _ w' =>
       loop_frame w w' /\ block_frame w w'
       /\ now (hw w') <= now (hw w)
                          + (if gsm_connected (vars w) then 0 else 21100)).
Proof.
  intros Hfuel. unfold check_gsm_network. prim. fields.
  assert (Hidle : loop_frame w w /\ block_frame w w
                  /\ now (hw w) <= now (hw w)
                       + (if gsm_connected (vars w) then 0 else 21100)).
  { split; [apply loop_frame_refl|]. split; [apply block_frame_refl|].
    destruct (gsm_connected (vars w)); lia. }
  destruct (gsm_initialized (vars w)) eqn:Hinit; cbn [andb];
    [|prim; exact Hidle].
  destruct (gsm_connected (vars w)) eqn:Hconn; cbn [negb];
    [prim; exact Hidle|].
  branch Hdue; [|prim; exact Hidle].
  apply returns_bind. eapply returns_weaken.
  { apply creg_query. exact Hfuel. }
  cbn beta.
  intros response w1 [[Hv1 [Hg1 [Hs1 [Hsel1 [Hl1 [Hl2 Hn1]]]]]]
                        [Hhi1 [evs0 [Ht1 [Htx0 Hat0]]]]].
  destruct (creg_status response).
  - apply returns_bind. prim. prim. apply returns_bind.
    eapply returns_weaken.
    { apply send_sms_effect. exact Hfuel. }
    cbn beta.
    intros _ w3 [[[_ [Hsel3 [Hn3 [_ [_ [evs [Ht3 _]]]]]]] [Hg3 [Hs3 Hb3]]]
                   [Hv3 [Hled3 [Hled3' Hhi3]]]].
    var_fields. prim. prim. var_fields. split; [|split].
    + unfold loop_frame. var_fields. rewrite Hv3. var_fields.
      rewrite Hv1, Hled3, Hled3', Hl2, Hsel3, Hsel1.
      split; [reflexivity|]. split; [reflexivity|]. split; [lia|].
      split; [reflexivity|]. split; [auto|].
      exists (evs0 ++ evs). split; [now rewrite Ht3, Ht1, app_assoc|].
      split; [discriminate|]. intros Hi. congruence.
    + unfold block_frame. var_fields.
      rewrite Hg3, Hs3, Hv3. var_fields. now rewrite Hg1, Hs1, Hv1.
    + lia.
  - prim. prim. var_fields. split; [|split].
    + unfold loop_frame. var_fields.
      rewrite Hv1, Hsel1, Hl1, Hl2, Hconn. var_fields.
      split; [reflexivity|]. split; [reflexivity|]. split; [lia|].
      split; [auto|]. split; [auto|].
      exists evs0. split; [exact Ht1|]. rewrite Htx0, Hat0. split.
      * intros _. split; [auto|].
        split; intros x [<-|[]]; reflexivity.
      * intros Hi. congruence.
    + unfold block_frame. var_fields. now rewrite Hg1, Hs1, Hv1.
    + lia.
  - prim. prim. var_fields. split; [|split].
    + unfold loop_frame. var_fields.
      rewrite Hv1, Hsel1, Hl1, Hl2, Hconn. var_fields.
      split; [reflexivity|]. split; [reflexivity|]. split; [lia|].
      split; [auto|]. split; [auto|].
      exists evs0. split; [exact Ht1|]. rewrite Htx0, Hat0. split.
      * intros _. split; [auto|].
        split; intros x [<-|[]]; reflexivity.
      * intros Hi. congruence.
    + unfold block_frame. var_fields. now rewrite Hg1, Hs1, Hv1.
    + lia.
Qed.

Lemma interval_location_reporting_paced (fuel : nat) (current_time_ms : Z)
    (w : World) :
  (101 <= fuel)%nat ->
  returns (interval_location_reporting fuel current_time_ms) w
    (fun _ w' =>
       loop_frame w w' /\ block_frame w w'
       /\ now (hw w') <= now (hw w) + 18600).
Proof.
  intros Hfuel. unfold interval_location_reporting. prim. fields.
  assert (Hidle : loop_frame w w /\ block_frame w w
                  /\ now (hw w) <= now (hw w) + 18600).
  { split; [apply loop_frame_refl|]. split; [apply block_frame_refl|]. lia. }
  branch Hflags; [|prim; exact Hidle].
  branch Hdue; [|prim; exact Hidle].
  apply returns_bind. eapply returns_weaken.
  { apply send_sms_effect. exact Hfuel. }
  cbn beta. intros _ w1 [[L1 F1] [Hv1 [_ [_ Hhi]]]]. prim.
  set (w2 := mkWorld _ _).
  assert (L2 : loop_frame w1 w2)
    by (apply quiet_loop_frame; subst w2; var_fields; auto; lia).
  assert (F2 : block_frame w1 w2) by (subst w2; repeat split).
  split; [exact (loop_frame_trans _ _ _ L1 L2)|].
  split; [exact (block_frame_trans _ _ _ F1 F2)|].
  subst w2. var_fields. destruct (gsm_connected (vars w)); lia.
Qed.

Lemma check_incoming_sms_paced (fuel : nat) (w : World) :
  (101 <= fuel)%nat ->
  returns (check_incoming_sms fuel) w
    (fun _ w' =>
       loop_frame w w' /\ block_frame w w'
       /\ now (hw w') <= now (hw w) + 18600).
Proof.
  intros Hfuel. unfold check_incoming_sms. prim.
  assert (Hidle : loop_frame w w /\ block_frame w w
                  /\ now (hw w) <= now (hw w) + 18600).
  { split; [apply loop_frame_refl|]. split; [apply block_frame_refl|]. lia. }
  branch Hany; [|prim; exact Hidle].
  prim. set (w1 := mkWorld _ _).
  assert (H1 : loop_frame w w1 /\ block_frame w w1).
  { apply (modem_loop_frame w w1
             [(now (hw w), Rx (arrived (now (hw w)) (gsm_uart_rx (hw w))))]).
    - subst w1. frame_step.
    - reflexivity.
    - intros _. split; reflexivity. }
  destruct H1 as [L1 F1].
  assert (Hone : loop_frame w w1 /\ block_frame w w1
                 /\ now (hw w1) <= now (hw w) + 18600)
    by (split; [exact L1|]; split; [exact F1|]; subst w1; fields; lia).
  branch Hcmt; [|prim; exact Hone].
  branch Hloc; [|prim; exact Hone].
  prim. apply returns_bind. eapply returns_weaken.
  { apply send_sms_effect. exact Hfuel. }
  cbn beta. intros _ w2 [[L2 F2] [_ [_ [_ Hhi]]]]. prim.
  split; [exact (loop_frame_trans _ _ _ L1 L2)|].
  split; [exact (block_frame_trans _ _ _ F1 F2)|].
  revert Hhi. subst w1. var_fields.
  destruct (gsm_connected (vars w)); lia.
Qed.

Lemma check_console_commands_paced (fuel : nat) (w : World) :
  (101 <= fuel)%nat ->
  returns (check_console_commands fuel) w
    (fun _ w' =>
       loop_frame w w'
       /\ gps_uart_rx (hw w') = gps_uart_rx (hw w)
       /\ now (hw w') <= now (hw w) + 18600).
Proof.
  intros Hfuel.
  assert (Hidle : loop_frame w w
                  /\ gps_uart_rx (hw w) = gps_uart_rx (hw w)
                  /\ now (hw w) <= now (hw w) + 18600).
  { split; [apply loop_frame_refl|]. split; [reflexivity | lia]. }
  unfold check_console_commands, returns.
  destruct (has_select (hw w)) eqn:Hsel; [|eexists; eexists; split;
                                            [reflexivity | exact Hidle]].
  change (returns
    (bind select_stdin (fun ready =>
       if ready then
         bind stdin_read1 (fun char => bind get_vars (fun v =>
           if ((char =? NL)%string
               || (char =? String "013" EmptyString)%string)
           then
             bind (set_input_buffer EmptyString) (fun _ =>
               if (lower (strip (input_buffer v)) =? "x")%string
               then ret tt
               else if (lower (strip (input_buffer v)) =? "t")%string
               then bind (send_sms fuel ADMIN_NUMBER
                            "Test message from Vehicle Tracker")
                         (fun _ => ret tt)
               else ret tt)
           else set_input_buffer (input_buffer v ++ char)%string))
       else ret tt)) w
    (fun _ w' =>
       loop_frame w w'
       /\ gps_uart_rx (hw w') = gps_uart_rx (hw w)
       /\ now (hw w') <= now (hw w) + 18600)).
  prim. branch Hready; [|prim; exact Hidle].
  unfold stdin_ready in Hready.
  destruct (stdin_rx (hw w)) as [|[t c] rest] eqn:Hin; [discriminate|].
  apply returns_bind.
  eapply returns_prim; [unfold stdin_read1; rewrite Hin; reflexivity|].
  prim. fields.
  assert (Hquiet : forall buffer,
    let w1 := mkWorld (with_input_buffer buffer (vars w))
                (mkHw (now (hw w)) (gsm_uart_rx (hw w)) (gps_uart_rx (hw w))
                      rest (has_select (hw w)) (gsm_led (hw w))
                      (gps_led (hw w)) (trace (hw w))) in
    loop_frame w w1
    /\ gps_uart_rx (hw w1) = gps_uart_rx (hw w)
    /\ now (hw w1) <= now (hw w) + 18600).
  { intros buffer w1. subst w1. split; [|split; [reflexivity|fields; lia]].
    apply quiet_loop_frame; var_fields; auto. lia. }
  branch Hnl.
  - prim. branch Hx; [prim; apply Hquiet|].
    branch Htest; [|prim; apply Hquiet].
    apply returns_bind. eapply returns_weaken.
    { apply send_sms_effect. exact Hfuel. }
    cbn beta. intros _ w2 [[L2 [Hg2 _]] [_ [_ [_ Hhi]]]]. prim.
    destruct (Hquiet EmptyString) as [L1 [Hg1 _]].
    split; [exact (loop_frame_trans _ _ _ L1 L2)|].
    split; [now rewrite Hg2|].
    revert Hhi. var_fields. destruct (gsm_connected (vars w)); lia.
  - prim. apply Hquiet.
Qed.

(** One iteration of the loop: what it keeps and how long it takes. *)
Lemma tick_paced (fuel : nat) (w : World) :
  (101 <= fuel)%nat ->
  returns (tick fuel) w
    (fun _ w' =>
       loop_frame w w'
       /\ now (hw w) + 50 <= now (hw w') <= now (hw w) + 76950
       /\ gps_uart_rx (hw w')
          = (if truthy (arrived (now (hw w)) (gps_uart_rx (hw w)))
             then pending (now (hw w)) (gps_uart_rx (hw w))
             else gps_uart_rx (hw w))).
Proof.
  intros Hfuel. unfold tick. prim.
  apply returns_bind. eapply returns_weaken; [apply process_gps_data_paced|].
  cbn beta. intros _ w1 [L1 [_ [_ [Hc1 [Hn1 Hg1]]]]].
  apply returns_bind.
  eapply returns_weaken; [now apply check_gps_fix_paced|].
  cbn beta. intros _ w2 [L2 [[Hg2 _] [Hc2 Hn2]]].
  apply returns_bind.
  eapply returns_weaken; [now apply check_gsm_network_paced|].
  cbn beta. intros _ w3 [L3 [[Hg3 _] Hn3]].
  apply returns_bind.
  eapply returns_weaken; [now apply interval_location_reporting_paced|].
  cbn beta. intros _ w4 [L4 [[Hg4 _] Hn4]].
  apply returns_bind.
  eapply returns_weaken; [now apply check_incoming_sms_paced|].
  cbn beta. intros _ w5 [L5 [[Hg5 _] Hn5]].
  apply returns_bind.
  eapply returns_weaken; [now apply check_console_commands_paced|].
  cbn beta. intros _ w6 [L6 [Hg6 Hn6]].
  prim.
  assert (L : loop_frame w w6).
  { eapply loop_frame_trans; [exact L1|].
    eapply loop_frame_trans; [exact L2|].
    eapply loop_frame_trans; [exact L3|].
    eapply loop_frame_trans; [exact L4|].
    eapply loop_frame_trans; [exact L5|]. exact L6. }
  assert (Hlo : now (hw w) <= now (hw w6))
    by (destruct L as [_ [_ [H _]]]; exact H).
  rewrite Hc2, Hc1 in Hn3. rewrite Hc1 in Hn2.
  split; [|split].
  - eapply loop_frame_trans; [exact L|].
    apply quiet_loop_frame; var_fields; auto. lia.
  - fields. destruct (gsm_connected (vars w)); lia.
  - fields. congruence.
Qed.

Lemma run_paced (fuel : nat) (n : nat) :
  (101 <= fuel)%nat ->
  forall w,
    returns (run fuel n) w
      (fun _ w' =>
         loop_frame w w'
         /\ now (hw w) + 50 * Z.of_nat n <= now (hw w')
                                          <= now (hw w) + 76950 * Z.of_nat n).
Proof.
  intros Hfuel. induction n as [|n IH]; intros w; cbn [run].
  - prim. split; [apply loop_frame_refl | lia].
  - apply returns_bind. eapply returns_weaken; [now apply tick_paced|].
    cbn beta. intros _ w1 [L1 [Hn1 _]].
    eapply returns_weaken; [apply IH|].
    cbn beta. intros _ w2 [L2 Hn2].
    split; [exact (loop_frame_trans _ _ _ L1 L2) | lia].
Qed.

(** *** The loop as a whole *)

Lemma count_occ_other (l : list string) (x y : string) :
  (forall c, In c l -> c = y) -> x <> y ->
  count_occ string_dec l x = 0%nat.
Proof.
  intros Hall Hxy. apply count_occ_not_In. intros Hin.
  apply Hall in Hin. contradiction.
Qed.

(** X9.  The registration check paces itself.  Whenever it queries the
    modem it sets [last_gsm_check_ms] to [current_time_ms], whatever the
    answer (registered, not registered, garbled or none), and it issues
    [AT+CREG?] exactly once; when it does not query, it changes nothing.
    After a query, none is due for the next 10000 ms; from then on one is
    due as long as the probe had succeeded and the board is not
    registered. *)
Theorem registration_check_pacing (fuel : nat) (current_time_ms : Z)
    (w : World) :
  (101 <= fuel)%nat ->
  returns (check_gsm_network fuel current_time_ms) w
    (fun _ w' =>
       last_gsm_check_ms (vars w')
       = (if check_due current_time_ms (vars w)
          then current_time_ms else last_gsm_check_ms (vars w))
       /\ count_occ string_dec (at_commands (since w w')) "AT+CREG?"%string
          = (if check_due current_time_ms (vars w) then 1 else 0)%nat
       /\ (check_due current_time_ms (vars w) = false -> w' = w))
  /\ (forall t d,
        last_gsm_check_ms (vars w) = t mod TICKS_PERIOD ->
        current_time_ms = (t + d) mod TICKS_PERIOD ->
        (0 <= d < GSM_CHECK_INTERVAL_MS ->
         check_due current_time_ms (vars w) = false)
        /\ (GSM_CHECK_INTERVAL_MS <= d < TICKS_PERIOD / 2 ->
            check_due current_time_ms (vars w)
            = gsm_initialized (vars w) && negb (gsm_connected (vars w)))).
Proof.
  intros Hfuel. split.
  - eapply returns_weaken; [now apply check_gsm_network_returns|].
    cbn beta. intros _ w'.
    destruct (check_due current_time_ms (vars w)).
    + intros [response [evs0 [evs1 [[flush [rxs [-> _]]] [Ht Hcase]]]]].
      rewrite (since_app _ _ _ Ht). read_log.
      split; [|split; [|discriminate]].
      * destruct (creg_status response); destruct Hcase as [-> _];
          reflexivity.
      * cbn [count_occ].
        destruct (string_dec "AT+CREG?"%string "AT+CREG?"%string);
          [|congruence].
        f_equal. destruct (creg_status response).
        -- destruct Hcase as [_ [_ [Hat _]]].
           apply (count_occ_other _ _ "AT+CMGF=1"%string);
             [exact Hat | discriminate].
        -- destruct Hcase as [_ ->]. reflexivity.
        -- destruct Hcase as [_ ->]. reflexivity.
    + intros ->. split; [reflexivity|]. split; [|reflexivity].
      unfold since. now rewrite skipn_all.
  - intros t d Hlast Hcur. unfold check_due. rewrite Hlast, Hcur.
    change GSM_CHECK_INTERVAL_MS with 10000.
    change (TICKS_PERIOD / 2) with (2 ^ 29).
    split; intros Hd;
      (rewrite ticks_diff_elapsed
         by (change (TICKS_PERIOD / 2) with (2 ^ 29); lia)).
    + destruct (Z.geb_spec d 10000); [lia|]. apply andb_false_r.
    + destruct (Z.geb_spec d 10000); [|lia]. apply andb_true_r.
Qed.

(** X10.  The loop never changes [gsm_initialized].  When the probe at
    start-up failed and the board is not registered, no iteration of the
    loop ever writes a byte to the modem or issues an AT command, and the
    board never registers: every SMS is stopped by the guard. *)
Theorem failed_probe_silences_modem (fuel : nat) (n : nat) (w : World) :
  (101 <= fuel)%nat ->
  returns (run fuel n) w
    (fun _ w' =>
       gsm_initialized (vars w') = gsm_initialized (vars w)
       /\ (gsm_initialized (vars w) = false ->
           gsm_connected (vars w) = false ->
           gsm_connected (vars w') = false
           /\ tx_bytes (since w w') = []
           /\ at_commands (since w w') = [])).
Proof.
  intros Hfuel. eapply returns_weaken; [now apply run_paced|].
  cbn beta. intros _ w' [[Hi [_ [_ [_ [_ [evs [Ht [_ Hoff]]]]]]]] _].
  split; [exact Hi|]. rewrite (since_app _ _ _ Ht). exact Hoff.
Qed.

(** X11.  As long as the board is not registered, the loop writes nothing
    to the modem but registration queries: if [gsm_connected] is false
    after some iterations, it was false before them and every byte string
    written in between is "AT+CREG?" with CR LF -- no SMS command, no
    message, no cancel byte. *)
Theorem only_queries_until_registered (fuel : nat) (n : nat) (w : World) :
  (101 <= fuel)%nat ->
  returns (run fuel n) w
    (fun _ w' =>
       gsm_connected (vars w') = false ->
       gsm_connected (vars w) = false
       /\ (forall b, In b (tx_bytes (since w w')) ->
                     b = ("AT+CREG?" ++ CRLF)%string)
       /\ (forall c, In c (at_commands (since w w')) ->
                     c = "AT+CREG?"%string)).
Proof.
  intros Hfuel. eapply returns_weaken; [now apply run_paced|].
  cbn beta. intros _ w' [[_ [_ [_ [_ [_ [evs [Ht [Hq _]]]]]]]] _].
  rewrite (since_app _ _ _ Ht). exact Hq.
Qed.

(** X12.  Every iteration of the loop lets at least 50 ms pass and returns
    within 76950 ms (at most four SMS exchanges of 18600 ms, one
    registration query of 2500 ms and the final sleep), so [n] iterations
    take between [50 n] and [76950 n] ms; the clock never goes back and
    the loop never blocks for good. *)
Theorem loop_duration (fuel : nat) (n : nat) (w : World) :
  (101 <= fuel)%nat ->
  returns (tick fuel) w
    (fun _ w' => now (hw w) + 50 <= now (hw w') <= now (hw w) + 76950)
  /\ returns (run fuel n) w
       (fun _ w' =>
          now (hw w) + 50 * Z.of_nat n
          <= now (hw w') <= now (hw w) + 76950 * Z.of_nat n).
Proof.
  intros Hfuel. split.
  - eapply returns_weaken; [now apply tick_paced|].
    cbn beta. intros _ w' [_ [H _]]. exact H.
  - eapply returns_weaken; [now apply run_paced|].
    cbn beta. intros _ w' [_ H]. exact H.
Qed.

(** *** Start-up *)

Lemma at_call (fuel : nat) (command : string) (wt : Z) (q : nat)
    (w : World) :
  100 * Z.of_nat q + 100 <= 2 ^ 29 ->
  (q < fuel)%nat ->
  returns (send_at_command fuel command wt (100 * Z.of_nat q)) w
    (fun r w' =>
       modem_frame w w'
       /\ now (hw w') <= now (hw w) + 100 * Z.of_nat q + Z.max 0 wt
       /\ exists evs,
           trace (hw w') = trace (hw w) ++ evs
           /\ at_exchange command (now (hw w)) evs r
           /\ tx_bytes evs = [(command ++ CRLF)%string]
           /\ at_commands evs = [command]
           /\ sms_calls evs = []).
Proof.
  intros Hq Hfuel. eapply returns_weaken.
  { apply returns_ensures; [|apply send_at_command_frame].
    now apply send_at_command_exchange. }
  cbn beta. intros r w' [[flush [rxs [[_ Ht] [Hr [_ [_ Hcase]]]]]] Hframe].
  split; [exact Hframe|]. split.
  - destruct Hcase as [[_ [_ H]] | [_ [_ H]]]; lia.
  - eexists. split; [exact Ht|]. split; [exists flush, rxs; auto|].
    read_log. repeat split.
Qed.

Lemma boot_returns (fuel : nat) (w : World) :
  (101 <= fuel)%nat ->
  returns (boot fuel) w
    (fun _ w' => exists response probe rest,
         trace (hw w') = trace (hw w) ++ probe ++ rest
         /\ at_exchange "AT" (now (hw w)) probe response
         /\ answers (gsm_uart_rx (hw w)) (now (hw w)) 1000 20 response
         /\ vars w' = with_gsm_initialized (contains "OK" response) (vars w)
         /\ at_commands rest
            = (if contains "OK" response
               then ["ATE0"; "AT+CMGF=1"; "AT+CNMI=2,1,0,0,0"]%string
               else [])
         /\ tx_bytes rest
            = (if contains "OK" response
               then [("ATE0" ++ CRLF); ("AT+CMGF=1" ++ CRLF);
                     ("AT+CNMI=2,1,0,0,0" ++ CRLF)]%string
               else [])
         /\ sms_calls (probe ++ rest) = []
         /\ gsm_led (hw w') = gsm_led (hw w)
         /\ gps_led (hw w') = gps_led (hw w)
         /\ now (hw w) <= now (hw w') <= now (hw w) + 13500).
Proof.
  intros Hfuel.
  assert (H29 : 2 ^ 29 = 536870912) by reflexivity.
  unfold boot, check_gsm_module.
  apply returns_bind. apply returns_bind. eapply returns_weaken.
  { apply returns_and.
    - apply (at_call fuel "AT" 1000 20); lia.
    - apply (send_at_command_answer fuel "AT" 1000 20); lia. }
  cbn beta.
  intros response w1 [[[Hv1 [_ [_ [_ [Hl1 [Hl1' Hlo1]]]]]]
                         [Hhi1 [probe [Ht1 [Hex [_ [_ Hs1]]]]]]] Hans].
  prim. prim.
  destruct (contains "OK" response) eqn:Hok.
  - apply returns_bind. eapply returns_weaken.
    { apply (at_call fuel "ATE0" 500 30); lia. }
    cbn beta.
    intros r2 w2 [[Hv2 [_ [_ [_ [Hl2 [Hl2' Hlo2]]]]]]
                    [Hhi2 [e2 [Ht2 [_ [Htx2 [Hat2 Hs2]]]]]]].
    apply returns_bind. eapply returns_weaken.
    { apply (at_call fuel "AT+CMGF=1" 500 30); lia. }
    cbn beta.
    intros r3 w3 [[Hv3 [_ [_ [_ [Hl3 [Hl3' Hlo3]]]]]]
                    [Hhi3 [e3 [Ht3 [_ [Htx3 [Hat3 Hs3]]]]]]].
    apply returns_bind. eapply returns_weaken.
    { apply (at_call fuel "AT+CNMI=2,1,0,0,0" 500 30); lia. }
    cbn beta.
    intros r4 w4 [[Hv4 [_ [_ [_ [Hl4 [Hl4' Hlo4]]]]]]
                    [Hhi4 [e4 [Ht4 [_ [Htx4 [Hat4 Hs4]]]]]]].
    prim. var_fields.
    exists response, probe, (e2 ++ e3 ++ e4).
    split; [rewrite Ht4, Ht3, Ht2, Ht1; now rewrite <- !app_assoc|].
    split; [exact Hex|]. split; [exact Hans|].
    split; [rewrite Hv4, Hv3, Hv2, Hv1, Hok; reflexivity|].
    rewrite Hok. read_log.
    rewrite Hat2, Hat3, Hat4, Htx2, Htx3, Htx4, Hs1, Hs2, Hs3, Hs4.
    split; [reflexivity|]. split; [reflexivity|]. split; [reflexivity|].
    split; [congruence|]. split; [congruence|]. lia.
  - prim. var_fields. exists response, probe, [].
    split; [now rewrite app_nil_r|]. split; [exact Hex|].
    split; [exact Hans|].
    split; [rewrite Hv1, Hok; reflexivity|].
    rewrite Hok, app_nil_r.
    split; [reflexivity|]. split; [reflexivity|]. split; [exact Hs1|].
    split; [exact Hl1|]. split; [exact Hl1'|]. lia.
Qed.

(** X13.  Start-up probes the modem once with "AT" and sets
    [gsm_initialized] to whether the answer contains "OK"; the answer is
    what the modem line delivers from the probe to the first of its 20
    polls that finds some text and during the 1000 ms after it, and it is
    empty when the line stays silent.  Only after a successful probe does
    start-up send the three configuration commands, in the order ATE0,
    AT+CMGF=1, AT+CNMI=2,1,0,0,0, each once and whatever the modem answers
    to them; after a failed probe it sends nothing more.  It never sends an
    SMS, changes no other variable, and is over within 13500 ms. *)
Theorem boot_sequence (fuel : nat) (w : World) :
  (101 <= fuel)%nat ->
  returns (boot fuel) w
    (fun _ w' => exists response probe rest,
         since w w' = probe ++ rest
         /\ at_exchange "AT" (now (hw w)) probe response
         /\ answers (gsm_uart_rx (hw w)) (now (hw w)) 1000 20 response
         /\ vars w' = with_gsm_initialized (contains "OK" response) (vars w)
         /\ at_commands (since w w')
            = (if gsm_initialized (vars w')
               then ["AT"; "ATE0"; "AT+CMGF=1"; "AT+CNMI=2,1,0,0,0"]%string
               else ["AT"%string])
         /\ tx_bytes (since w w')
            = (if gsm_initialized (vars w')
               then [("AT" ++ CRLF); ("ATE0" ++ CRLF); ("AT+CMGF=1" ++ CRLF);
                     ("AT+CNMI=2,1,0,0,0" ++ CRLF)]%string
               else [("AT" ++ CRLF)%string])
         /\ sms_calls (since w w') = []
         /\ now (hw w) <= now (hw w') <= now (hw w) + 13500).
Proof.
  intros Hfuel. eapply returns_weaken; [now apply boot_returns|].
  cbn beta.
  intros _ w' [response [probe [rest
    [Ht [Hex [Hans [Hv [Hat [Htx [Hs [_ [_ Hnow]]]]]]]]]]]].
  exists response, probe, rest.
  rewrite (since_app _ _ _ Ht).
  split; [reflexivity|]. split; [exact Hex|]. split; [exact Hans|].
  split; [exact Hv|].
  rewrite Hv. cbn [with_gsm_initialized gsm_initialized].
  destruct Hex as [flush [rxs [-> _]]]. read_log. rewrite Hat, Htx.
  split; [now destruct (contains "OK" response)|].
  split; [now destruct (contains "OK" response)|].
  split; [|exact Hnow].
  revert Hs. read_log. auto.
Qed.

(** X14.  The LEDs show the flags.  If the GSM LED equals [gsm_connected]
    and the GPS LED equals [gps_fix_acquired], they still do after any
    number of iterations; and a board powered on with both LEDs off has
    this property after start-up and after every iteration of the loop. *)
Theorem leds_show_flags (fuel : nat) (n : nat) :
  (101 <= fuel)%nat ->
  (forall w,
      gsm_led (hw w) = gsm_connected (vars w) ->
      gps_led (hw w) = gps_fix_acquired (vars w) ->
      returns (run fuel n) w
        (fun _ w' =>
           gsm_led (hw w') = gsm_connected (vars w')
           /\ gps_led (hw w') = gps_fix_acquired (vars w')))
  /\ (forall h,
        gsm_led h = false -> gps_led h = false ->
        returns (program fuel n) (power_on h)
          (fun _ w' =>
             gsm_led (hw w') = gsm_connected (vars w')
             /\ gps_led (hw w') = gps_fix_acquired (vars w'))).
Proof.
  intros Hfuel.
  assert (Hrun : forall w,
             gsm_led (hw w) = gsm_connected (vars w) ->
             gps_led (hw w) = gps_fix_acquired (vars w) ->
             returns (run fuel n) w
               (fun _ w' =>
                  gsm_led (hw w') = gsm_connected (vars w')
                  /\ gps_led (hw w') = gps_fix_acquired (vars w'))).
  { intros w H1 H2. eapply returns_weaken; [now apply run_paced|].
    cbn beta. intros _ w' [[_ [_ [_ [L1 [L2 _]]]]] _]. auto. }
  split; [exact Hrun|].
  intros h H1 H2. unfold program.
  apply returns_bind. eapply returns_weaken; [now apply boot_returns|].
  cbn beta.
  intros _ w1 [response [probe [rest
    [_ [_ [_ [Hv [_ [_ [_ [Hl1 [Hl2 _]]]]]]]]]]]].
  apply Hrun.
  - rewrite Hl1, Hv. cbn. exact H1.
  - rewrite Hl2, Hv. cbn. exact H2.
Qed.

(** *** The GPS line *)

Lemma arrived_cons (t : Z) (c : Z * string) (rx : list (Z * string)) :
  arrived t (c :: rx)
  = (if fst c <=? t then (snd c ++ arrived t rx)%string else arrived t rx).
Proof. unfold arrived. cbn [filter]. now destruct (fst c <=? t). Qed.

Lemma pending_cons (t : Z) (c : Z * string) (rx : list (Z * string)) :
  pending t (c :: rx)
  = (if fst c <=? t then pending t rx else c :: pending t rx).
Proof. unfold pending. cbn [filter]. now destruct (fst c <=? t). Qed.

Lemma arrived_none (t : Z) (rx : list (Z * string)) :
  (forall c, In c rx -> t < fst c) ->
  arrived t rx = EmptyString /\ pending t rx = rx.
Proof.
  induction rx as [|c rx IH]; intros Hall; [split; reflexivity|].
  rewrite arrived_cons, pending_cons.
  destruct (Z.leb_spec (fst c) t) as [H|H].
  - specialize (Hall c (or_introl eq_refl)). lia.
  - destruct IH as [H1 H2]; [intros c' Hc'; apply Hall; now right|].
    now rewrite H1, H2.
Qed.

Lemma arrived_split (rx : list (Z * string)) (t1 t2 : Z) :
  time_ordered rx -> t1 <= t2 ->
  (arrived t1 rx ++ arrived t2 (pending t1 rx))%string = arrived t2 rx.
Proof.
  induction rx as [|c rx IH]; intros Hord Ht; [reflexivity|].
  destruct Hord as [Hfirst Hord].
  destruct (Z.leb_spec (fst c) t1) as [H|H].
  - rewrite !arrived_cons, pending_cons.
    destruct (Z.leb_spec (fst c) t1); [|lia].
    destruct (Z.leb_spec (fst c) t2); [|lia].
    now rewrite append_assoc, IH.
  - destruct (arrived_none t1 (c :: rx)) as [H1 H2].
    { intros c' [<-|Hc']; [exact H|]. apply Hfirst in Hc'. lia. }
    now rewrite H1, H2.
Qed.

Lemma time_ordered_pending (rx : list (Z * string)) (t : Z) :
  time_ordered rx -> time_ordered (pending t rx).
Proof.
  induction rx as [|c rx IH]; intros Hord; [exact I|].
  destruct Hord as [Hfirst Hord]. rewrite pending_cons.
  destruct (fst c <=? t); [now apply IH|].
  split; [|now apply IH].
  intros c' Hc'. apply Hfirst. unfold pending in Hc'.
  now apply filter_In in Hc'.
Qed.

Lemma list_ascii_of_string_app (a b : string) :
  list_ascii_of_string (a ++ b)
  = list_ascii_of_string a ++ list_ascii_of_string b.
Proof. induction a as [|c a IH]; cbn; [reflexivity | now rewrite IH]. Qed.

Lemma feed_app (a b : string) (p : gps) :
  feed (a ++ b) p = feed b (feed a p).
Proof. unfold feed. now rewrite list_ascii_of_string_app, fold_left_app. Qed.

Lemma tick_ingest (fuel : nat) (w : World) :
  (101 <= fuel)%nat ->
  time_ordered (gps_uart_rx (hw w)) ->
  returns (tick fuel) w
    (fun _ w' =>
       now (hw w) + 50 <= now (hw w')
       /\ gps_parser (vars w')
          = feed (arrived (now (hw w)) (gps_uart_rx (hw w)))
                 (gps_parser (vars w))
       /\ time_ordered (gps_uart_rx (hw w'))
       /\ forall t, now (hw w) <= t ->
                    (arrived (now (hw w)) (gps_uart_rx (hw w))
                       ++ arrived t (gps_uart_rx (hw w')))%string
                    = arrived t (gps_uart_rx (hw w))).
Proof.
  intros Hfuel Hord. eapply returns_weaken.
  { apply returns_and; [now apply tick_returns | now apply tick_paced]. }
  cbn beta. intros _ w' [[_ [Hp _]] [_ [[Hlo _] Hrx]]].
  split; [exact Hlo|]. split; [exact Hp|]. rewrite Hrx.
  destruct (truthy (arrived (now (hw w)) (gps_uart_rx (hw w)))) eqn:Hany.
  - split; [now apply time_ordered_pending|].
    intros t Ht. now apply arrived_split.
  - split; [exact Hord|]. intros t _.
    now rewrite (truthy_false _ Hany).
Qed.

(** The iterations of the loop, one after the other. *)
Lemma run_snoc (fuel : nat) (n : nat) :
  forall w,
    run fuel (S n) w
    = match run fuel n w with
      | Some (_, wl) => tick fuel wl
      | None => None
      end.
Proof.
  induction n as [|n IH]; intros w.
  - cbn [run]. unfold bind, ret.
    destruct (tick fuel w) as [[[] w1]|]; reflexivity.
  - change (run fuel (S (S n)) w)
      with (match tick fuel w with
            | Some (_, w1) => run fuel (S n) w1
            | None => None
            end).
    change (run fuel (S n) w)
      with (match tick fuel w with
            | Some (_, w1) => run fuel n w1
            | None => None
            end).
    destruct (tick fuel w) as [[[] w1]|]; [apply IH | reflexivity].
Qed.

(** What the decoder has been fed after [n] iterations, and what the GPS
    line still holds. *)
Lemma run_fed (fuel : nat) (n : nat) :
  (101 <= fuel)%nat ->
  forall w,
    time_ordered (gps_uart_rx (hw w)) ->
    returns (run fuel n) w
      (fun _ wl =>
         now (hw w) <= now (hw wl)
         /\ time_ordered (gps_uart_rx (hw wl))
         /\ exists fed,
             gps_parser (vars wl) = feed fed (gps_parser (vars w))
             /\ forall t, now (hw wl) <= t ->
                          (fed ++ arrived t (gps_uart_rx (hw wl)))%string
                          = arrived t (gps_uart_rx (hw w))).
Proof.
  intros Hfuel. induction n as [|n IH]; intros w Hord.
  - cbn [run]. prim. split; [lia|]. split; [exact Hord|].
    exists EmptyString. split; [now rewrite feed_empty | reflexivity].
  - cbn [run]. apply returns_bind.
    eapply returns_weaken; [now apply tick_ingest|].
    cbn beta. intros _ w1 [Hlo [Hp [Hord1 Hsplit]]].
    eapply returns_weaken; [now apply IH|].
    cbn beta. intros _ wl [Hnow [Hordl [fed [Hpl Hrest]]]].
    split; [lia|]. split; [exact Hordl|].
    exists (arrived (now (hw w)) (gps_uart_rx (hw w)) ++ fed)%string.
    split; [now rewrite feed_app, <- Hp|].
    intros t Ht. rewrite append_assoc, (Hrest t Ht). apply Hsplit. lia.
Qed.

(** X15.  No GPS byte is lost, repeated or reordered across iterations.
    When the GPS line delivers its chunks in order of arrival, then after
    any positive number of iterations the decoder has been fed, character
    by character, exactly the text that had arrived when the last of these
    iterations started -- the clock of the world [wl] that the iterations
    before it leave --, and that text followed by what the line still
    holds is the whole stream. *)
Theorem gps_bytes_in_order (fuel : nat) (n : nat) (w : World) :
  (101 <= fuel)%nat ->
  time_ordered (gps_uart_rx (hw w)) ->
  returns (run fuel n) w
    (fun _ wl =>
       returns (tick fuel) wl
         (fun _ w' =>
            run fuel (S n) w = Some (tt, w')
            /\ now (hw w) <= now (hw wl) < now (hw w')
            /\ gps_parser (vars w')
               = fold_left gps_update
                   (list_ascii_of_string
                      (arrived (now (hw wl)) (gps_uart_rx (hw w))))
                   (gps_parser (vars w))
            /\ forall t, now (hw wl) <= t ->
                         (arrived (now (hw wl)) (gps_uart_rx (hw w))
                            ++ arrived t (gps_uart_rx (hw w')))%string
                         = arrived t (gps_uart_rx (hw w)))).
Proof.
  intros Hfuel Hord.
  destruct (run_fed fuel n Hfuel w Hord)
    as [[] [wl [Hrun [Hnow [Hordl [fed [Hpl Hrest]]]]]]].
  exists tt, wl. split; [exact Hrun|].
  destruct (tick_ingest fuel wl Hfuel Hordl)
    as [[] [w' [Htick [Hlo [Hp [_ Hsplit]]]]]].
  exists tt, w'. split; [exact Htick|].
  assert (Hfed : (fed ++ arrived (now (hw wl)) (gps_uart_rx (hw wl)))%string
                 = arrived (now (hw wl)) (gps_uart_rx (hw w)))
    by (apply Hrest; lia).
  split; [rewrite run_snoc, Hrun; exact Htick|].
  split; [lia|]. split.
  - change (fold_left gps_update
              (list_ascii_of_string
                 (arrived (now (hw wl)) (gps_uart_rx (hw w))))
              (gps_parser (vars w)))
      with (feed (arrived (now (hw wl)) (gps_uart_rx (hw w)))
                 (gps_parser (vars w))).
    now rewrite Hp, Hpl, <- feed_app, Hfed.
  - intros t Ht. rewrite <- Hfed, append_assoc, (Hsplit t Ht).
    now apply Hrest.
Qed.

(** *** The console *)

Lemma no_test_sms_refl (w : World) : no_test_sms w w.
Proof. exists []. split; [now rewrite app_nil_r | intros []]. Qed.

Lemma no_test_sms_trans (w w1 w2 : World) :
  no_test_sms w w1 -> no_test_sms w1 w2 -> no_test_sms w w2.
Proof.
  intros [e1 [H1 N1]] [e2 [H2 N2]]. exists (e1 ++ e2).
  split; [now rewrite H2, H1, app_assoc|].
  rewrite sms_calls_app, in_app_iff. tauto.
Qed.

Lemma location_string_not_test (p : gps) :
  get_current_location_string p <> TEST_MESSAGE.
Proof.
  unfold get_current_location_string, TEST_MESSAGE.
  destruct (has_valid_gps_data p); [|discriminate].
  cbn [append]. discriminate.
Qed.

Lemma no_test_sms_intro (w w' : World) (connected : bool)
    (calls : list (string * string)) (evs : list (Z * event)) :
  trace (hw w') = trace (hw w) ++ evs ->
  sms_log connected calls evs ->
  ~ In (ADMIN_NUMBER, TEST_MESSAGE) calls ->
  no_test_sms w w'.
Proof.
  intros Ht [Hcalls _] Hn. exists evs. split; [exact Ht|].
  now rewrite Hcalls.
Qed.

Lemma check_gps_fix_no_test (fuel : nat) (w : World) :
  (101 <= fuel)%nat ->
  returns (check_gps_fix fuel) w (fun _ w' => no_test_sms w w').
Proof.
  intros Hfuel. eapply returns_weaken; [now apply check_gps_fix_returns|].
  cbn beta. intros _ w' [_ [evs [Ht Hlog]]].
  eapply no_test_sms_intro; eauto.
  destruct (_ && _); [|intros []]. intros [E|[]]. discriminate.
Qed.

Lemma check_gsm_network_no_test (fuel : nat) (current_time_ms : Z)
    (w : World) :
  (101 <= fuel)%nat ->
  returns (check_gsm_network fuel current_time_ms) w
    (fun _ w' => no_test_sms w w').
Proof.
  intros Hfuel.
  eapply returns_weaken; [now apply check_gsm_network_returns|].
  cbn beta. intros _ w'.
  destruct (check_due current_time_ms (vars w));
    [|intros ->; apply no_test_sms_refl].
  intros [response [evs0 [evs1 [[flush [rxs [-> _]]] [Ht Hcase]]]]].
  eexists. split; [exact Ht|]. read_log.
  destruct (creg_status response).
  - destruct Hcase as [_ [-> _]]. intros [E|[]]. discriminate.
  - destruct Hcase as [_ ->]. intros [].
  - destruct Hcase as [_ ->]. intros [].
Qed.

Lemma interval_location_reporting_no_test (fuel : nat) (current_time_ms : Z)
    (w : World) :
  (101 <= fuel)%nat ->
  returns (interval_location_reporting fuel current_time_ms) w
    (fun _ w' => no_test_sms w w').
Proof.
  intros Hfuel.
  eapply returns_weaken; [now apply interval_location_reporting_returns|].
  cbn beta. intros _ w' [_ [evs [Ht Hlog]]].
  eapply no_test_sms_intro; eauto.
  destruct (report_due _ _); [|intros []].
  intros [E|[]]. injection E as E.
  now apply location_string_not_test in E.
Qed.

Lemma check_incoming_sms_no_test (fuel : nat) (w : World) :
  (101 <= fuel)%nat ->
  returns (check_incoming_sms fuel) w (fun _ w' => no_test_sms w w').
Proof.
  intros Hfuel.
  eapply returns_weaken; [now apply check_incoming_sms_returns|].
  cbn beta zeta. intros _ w' [_ [evs [Ht [[Hcalls _] _]]]].
  eexists. split; [exact Ht|]. read_log.
  replace (sms_calls
             (if truthy (arrived (now (hw w)) (gsm_uart_rx (hw w)))
              then [(now (hw w),
                     Rx (arrived (now (hw w)) (gsm_uart_rx (hw w))))]
              else []))
    with (@nil (string * string)) by (now destruct (truthy _)).
  cbn [app]. rewrite Hcalls.
  destruct (_ && _); [|intros []].
  intros [E|[]]. injection E as E.
  now apply location_string_not_test in E.
Qed.

(** The console block on a character that is ready. *)
Lemma check_console_commands_key (fuel : nat) (w : World) (t : Z)
    (c : ascii) (rest : list (Z * ascii)) :
  (101 <= fuel)%nat ->
  has_select (hw w) = true ->
  stdin_rx (hw w) = (t, c) :: rest ->
  t <= now (hw w) ->
  returns (check_console_commands fuel) w
    (fun _ w' =>
       stdin_rx (hw w') = rest
       /\ input_buffer (vars w')
          = (if is_newline c then EmptyString
             else (input_buffer (vars w) ++ String c EmptyString)%string)
       /\ exists evs,
           trace (hw w') = trace (hw w) ++ evs
           /\ sms_calls evs
              = (if is_newline c
                    && (lower (strip (input_buffer (vars w))) =? "t")%string
                 then [(ADMIN_NUMBER, TEST_MESSAGE)] else [])).
Proof.
  intros Hfuel Hsel Hin Ht.
  unfold check_console_commands, returns. rewrite Hsel.
  change (returns
    (bind select_stdin (fun ready =>
       if ready then
         bind stdin_read1 (fun char => bind get_vars (fun v =>
           if ((char =? NL)%string
               || (char =? String "013" EmptyString)%string)
           then
             bind (set_input_buffer EmptyString) (fun _ =>
               if (lower (strip (input_buffer v)) =? "x")%string
               then ret tt
               else if (lower (strip (input_buffer v)) =? "t")%string
               then bind (send_sms fuel ADMIN_NUMBER
                            "Test message from Vehicle Tracker")
                         (fun _ => ret tt)
               else ret tt)
           else set_input_buffer (input_buffer v ++ char)%string))
       else ret tt)) w
    (fun _ w' =>
       stdin_rx (hw w') = rest
       /\ input_buffer (vars w')
          = (if is_newline c then EmptyString
             else (input_buffer (vars w) ++ String c EmptyString)%string)
       /\ exists evs,
           trace (hw w') = trace (hw w) ++ evs
           /\ sms_calls evs
              = (if is_newline c
                    && (lower (strip (input_buffer (vars w))) =? "t")%string
                 then [(ADMIN_NUMBER, TEST_MESSAGE)] else []))).
  apply returns_bind.
  eapply returns_prim;
    [unfold select_stdin, stdin_ready; rewrite Hin; reflexivity|].
  apply Z.leb_le in Ht. rewrite Ht.
  apply returns_bind.
  eapply returns_prim; [unfold stdin_read1; rewrite Hin; reflexivity|].
  prim. fields. unfold is_newline.
  destruct ((String c "" =? NL)%string
            || (String c "" =? String "013" "")%string); cbn [andb].
  - prim. branch Hx.
    + prim. var_fields. split; [reflexivity|]. split; [reflexivity|].
      exists []. rewrite app_nil_r. split; [reflexivity|].
      apply String.eqb_eq in Hx. rewrite Hx. reflexivity.
    + branch Htest.
      * apply returns_bind. eapply returns_weaken.
        { apply returns_ensures; [now apply send_sms_returns|].
          apply send_sms_frame. }
        cbn beta.
        intros _ w2 [[evs [[Hv2 Ht2] [[Hcalls _] _]]]
                       [_ [_ [Hs2 _]]]].
        prim. var_fields.
        split; [exact Hs2|]. split; [now rewrite Hv2|].
        exists evs. split; [exact Ht2 | exact Hcalls].
      * prim. var_fields. split; [reflexivity|]. split; [reflexivity|].
        exists []. rewrite app_nil_r. split; reflexivity.
  - prim. var_fields. split; [reflexivity|]. split; [reflexivity|].
    exists []. rewrite app_nil_r. split; reflexivity.
Qed.

Lemma tick_key (fuel : nat) (w : World) (t : Z) (c : ascii)
    (rest : list (Z * ascii)) :
  (101 <= fuel)%nat ->
  has_select (hw w) = true ->
  stdin_rx (hw w) = (t, c) :: rest ->
  t <= now (hw w) ->
  returns (tick fuel) w
    (fun _ w' =>
       stdin_rx (hw w') = rest
       /\ has_select (hw w') = true
       /\ now (hw w) <= now (hw w')
       /\ input_buffer (vars w')
          = (if is_newline c then EmptyString
             else (input_buffer (vars w) ++ String c EmptyString)%string)
       /\ exists evs,
           trace (hw w') = trace (hw w) ++ evs
           /\ (In (ADMIN_NUMBER, TEST_MESSAGE) (sms_calls evs)
               <-> is_newline c
                   && (lower (strip (input_buffer (vars w))) =? "t")%string
                   = true)).
Proof.
  intros Hfuel Hsel Hin Ht. unfold tick. prim.
  apply returns_bind. eapply returns_weaken.
  { apply returns_and;
      [apply process_gps_data_paced | apply process_gps_data_returns]. }
  cbn beta.
  intros _ w1 [[[_ [S1 [N1 _]]] [I1 [B1 [_ [T1 _]]]]] [_ [Tr1 _]]].
  apply returns_bind. eapply returns_weaken.
  { apply returns_and;
      [now apply check_gps_fix_paced | now apply check_gps_fix_no_test]. }
  cbn beta.
  intros _ w2 [[[_ [S2 [N2 _]]] [[_ [I2 B2]] _]] X2].
  apply returns_bind. eapply returns_weaken.
  { apply returns_and;
      [now apply check_gsm_network_paced
      | now apply check_gsm_network_no_test]. }
  cbn beta.
  intros _ w3 [[[_ [S3 [N3 _]]] [[_ [I3 B3]] _]] X3].
  apply returns_bind. eapply returns_weaken.
  { apply returns_and;
      [now apply interval_location_reporting_paced
      | now apply interval_location_reporting_no_test]. }
  cbn beta.
  intros _ w4 [[[_ [S4 [N4 _]]] [[_ [I4 B4]] _]] X4].
  apply returns_bind. eapply returns_weaken.
  { apply returns_and;
      [now apply check_incoming_sms_paced
      | now apply check_incoming_sms_no_test]. }
  cbn beta.
  intros _ w5 [[[_ [S5 [N5 _]]] [[_ [I5 B5]] _]] X5].
  assert (X05 : no_test_sms w w5).
  { eapply no_test_sms_trans; [exists []; rewrite app_nil_r; split;
                                 [exact Tr1 | intros []]|].
    eapply no_test_sms_trans; [exact X2|].
    eapply no_test_sms_trans; [exact X3|].
    eapply no_test_sms_trans; [exact X4|]. exact X5. }
  apply returns_bind. eapply returns_weaken.
  { apply returns_and; [now apply check_console_commands_paced|].
    apply (check_console_commands_key fuel w5 t c rest Hfuel).
    - congruence.
    - congruence.
    - lia. }
  cbn beta.
  intros _ w6 [[[_ [L6 [N6 _]]] _] [S6 [B6 [evs [Ht6 Hcalls]]]]].
  prim. fields.
  assert (Eb : input_buffer (vars w5) = input_buffer (vars w)) by congruence.
  rewrite Eb in B6, Hcalls.
  split; [exact S6|]. split; [congruence|]. split; [lia|].
  split; [exact B6|].
  destruct X05 as [evs0 [Ht5 Hno]].
  exists (evs0 ++ evs). split; [now rewrite Ht6, Ht5, app_assoc|].
  rewrite sms_calls_app, in_app_iff, Hcalls.
  destruct (is_newline c && _).
  - split; [reflexivity | intros _; right; left; reflexivity].
  - split; [intros [H|[]]; contradiction | discriminate].
Qed.

Lemma run_line (fuel : nat) (keys : list (Z * ascii)) (t : Z)
    (nl : ascii) (rest : list (Z * ascii)) (w : World) :
  (101 <= fuel)%nat ->
  has_select (hw w) = true ->
  stdin_rx (hw w) = (keys ++ (t, nl) :: rest)%list ->
  (forall k, In k keys -> fst k <= now (hw w) /\ is_newline (snd k) = false) ->
  t <= now (hw w) ->
  is_newline nl = true ->
  returns (run fuel (S (List.length keys))) w
    (fun _ w' =>
       stdin_rx (hw w') = rest
       /\ input_buffer (vars w') = EmptyString
       /\ exists evs,
           trace (hw w') = trace (hw w) ++ evs
           /\ (In (ADMIN_NUMBER, TEST_MESSAGE) (sms_calls evs)
               <-> lower (strip (input_buffer (vars w) ++ text_of_keys keys))
                   = "t"%string)).
Proof.
  intros Hfuel. revert w.
  induction keys as [|[tk k] keys IH]; intros w Hsel Hin Hkeys Ht Hnl.
  - cbn [List.length run app] in *. apply returns_bind.
    eapply returns_weaken; [now apply (tick_key fuel w t nl rest)|].
    cbn beta. intros _ w1 [S1 [_ [_ [B1 [evs [Ht1 Hcalls]]]]]].
    prim. rewrite Hnl in B1, Hcalls. cbn [andb] in Hcalls.
    split; [exact S1|]. split; [exact B1|].
    exists evs. split; [exact Ht1|].
    unfold text_of_keys. cbn [map string_of_list_ascii].
    rewrite append_nil_r, Hcalls. apply String.eqb_eq.
  - cbn [List.length app] in *.
    change (run fuel (S (S (List.length keys))))
      with (bind (tick fuel) (fun _ => run fuel (S (List.length keys)))).
    apply returns_bind.
    destruct (Hkeys (tk, k) (or_introl eq_refl)) as [Hk Hnk].
    cbn [fst snd] in Hk, Hnk.
    eapply returns_weaken;
      [now apply (tick_key fuel w tk k (keys ++ (t, nl) :: rest)%list)|].
    cbn beta. intros _ w1 [S1 [L1 [N1 [B1 [evs [Ht1 Hcalls]]]]]].
    rewrite Hnk in B1, Hcalls. cbn [andb] in Hcalls.
    eapply returns_weaken.
    { apply (IH w1 L1 S1).
      - intros k' Hk'. destruct (Hkeys k' (or_intror Hk')) as [A B].
        split; [lia | exact B].
      - lia.
      - exact Hnl. }
    cbn beta. intros _ w2 [S2 [B2 [evs2 [Ht2 H2]]]].
    split; [exact S2|]. split; [exact B2|].
    exists (evs ++ evs2). split; [now rewrite Ht2, Ht1, app_assoc|].
    rewrite B1 in H2. unfold text_of_keys in *.
    cbn [map string_of_list_ascii snd].
    rewrite append_assoc in H2. cbn [append] in H2.
    rewrite <- H2, sms_calls_app, in_app_iff.
    split; [intros [H|H]; [|exact H] | now right].
    apply Hcalls in H. discriminate.
Qed.

(** X16.  A console line.  When the keys of a line and the newline that
    ends it are waiting on the console, the loop consumes one character in
    each iteration: after as many iterations as the line has characters
    (the newline included) the line is consumed, the input buffer is empty
    again, and [send_sms] was called for the test message exactly when the
    buffer followed by the keys, stripped and in lower case, is [t]. *)
Theorem console_line (fuel : nat) (keys : list (Z * ascii)) (t : Z)
    (nl : ascii) (rest : list (Z * ascii)) (w : World) :
  (101 <= fuel)%nat ->
  has_select (hw w) = true ->
  stdin_rx (hw w) = (keys ++ (t, nl) :: rest)%list ->
  (forall k, In k keys -> fst k <= now (hw w) /\ is_newline (snd k) = false) ->
  t <= now (hw w) ->
  is_newline nl = true ->
  returns (run fuel (S (List.length keys))) w
    (fun _ w' =>
       stdin_rx (hw w') = rest
       /\ input_buffer (vars w') = EmptyString
       /\ (In (ADMIN_NUMBER, TEST_MESSAGE) (sms_calls (since w w'))
           <-> lower (strip (input_buffer (vars w) ++ text_of_keys keys))
               = "t"%string)).
Proof.
  intros Hfuel Hsel Hin Hkeys Ht Hnl.
  eapply returns_weaken; [now apply (run_line fuel keys t nl rest)|].
  cbn beta. intros _ w' [S1 [B1 [evs [Ht1 H]]]].
  split; [exact S1|]. split; [exact B1|].
  now rewrite (since_app _ _ _ Ht1).
Qed.

End Properties.


(** ** The claims on concrete runs of the scripted decoder *)

Import Scripted Sample.

(** C8 on a silent modem at power-on, and on a modem that answers the
    probe 120 ms after the command. *)
Lemma check_gsm_module_ok_witness :
  (21 <= 21)%nat
  /\ (forall c, In c (gsm_uart_rx (hw cold)) ->
                fst c <= now (hw cold) \/ now (hw cold) + 2000 <= fst c)
  /\ (exists w',
         send_at_command 21 "AT" 1000 2000 cold = Some (EmptyString, w')
         /\ check_gsm_module 21 cold = Some (false, w'))
  /\ exists response w',
      send_at_command 21 "AT" 1000 2000 (power_on answering)
      = Some (response, w')
      /\ at_exchange "AT" 0 (since (power_on answering) w') response
      /\ response = (CRLF ++ "OK" ++ CRLF ++ CRLF ++ "> ")%string
      /\ check_gsm_module 21 (power_on answering) = Some (true, w').
Proof.
  assert (Hfuel : (21 <= 21)%nat) by lia.
  assert (Hsilent : forall c, In c (gsm_uart_rx (hw cold)) ->
                      fst c <= now (hw cold) \/ now (hw cold) + 2000 <= fst c)
    by (intros c []).
  split; [exact Hfuel|]. split; [exact Hsilent|].
  destruct (check_gsm_module_ok 21 cold Hfuel) as [_ H2].
  split; [exact (H2 Hsilent)|].
  destruct (check_gsm_module_ok 21 (power_on answering) Hfuel)
    as [[response [w' [Hrun [Hlog [[_ Hanswer] Hcheck]]]]] _].
  assert (Hresp : response = (CRLF ++ "OK" ++ CRLF ++ CRLF ++ "> ")%string).
  { rewrite (Hanswer 2%nat); [reflexivity | lia | reflexivity |].
    vm_compute. discriminate. }
  exists response, w'. split; [exact Hrun|]. split; [exact Hlog|].
  split; [exact Hresp|]. rewrite Hcheck, Hresp. reflexivity.
Defined.

(** C10 on a board that is not registered. *)
Lemma send_sms_guard_witness :
  gsm_connected (vars asked_offline) = false
  /\ (101 <= 101)%nat
  /\ (exists w',
         send_sms 101 ADMIN_NUMBER TEST_MESSAGE asked_offline
         = Some (NotConnected, w')
         /\ vars w' = vars asked_offline
         /\ tx_bytes (since asked_offline w') = [])
  /\ returns (check_incoming_sms 101) asked_offline
       (fun _ w' => exists evs,
            trace (hw w') = trace (hw asked_offline) ++ evs
            /\ tx_bytes evs = []).
Proof.
  assert (Hconn : gsm_connected (vars asked_offline) = false) by reflexivity.
  assert (Hfuel : (101 <= 101)%nat) by lia.
  split; [exact Hconn|]. split; [exact Hfuel|].
  destruct (send_sms_guard 101 ADMIN_NUMBER TEST_MESSAGE asked_offline Hconn)
    as [[w' [H1 [_ [H2 [_ [_ [_ H3]]]]]]] H4].
  split; [exists w'; auto|]. exact (proj1 (H4 Hfuel)).
Defined.

(** C3 on a registered board whose modem accepts the SMS. *)
Lemma send_sms_prompt_gate_witness :
  (101 <= 101)%nat
  /\ exists o w' setup t0 prompt rest,
      send_sms 101 ADMIN_NUMBER TEST_MESSAGE (online accepting) = Some (o, w')
      /\ since (online accepting) w'
         = (0, Sms ADMIN_NUMBER TEST_MESSAGE) :: setup
             ++ (t0, Tx (cmgs_command ADMIN_NUMBER)) :: received prompt
             ++ rest
      /\ tx_bytes setup = [("AT+CMGF=1" ++ CRLF)%string].
Proof.
  assert (Hfuel : (101 <= 101)%nat) by lia.
  split; [exact Hfuel|].
  destruct (send_sms_prompt_gate 101 ADMIN_NUMBER TEST_MESSAGE
              (online accepting) Hfuel)
    as [o [w' [Hrun [[Hoff _] | [_ H]]]]]; [discriminate Hoff|].
  destruct H as [setup [t0 [prompt [rest [H1 [H2 _]]]]]].
  exists o, w', setup, t0, prompt, rest. auto.
Defined.

(** C9 on a registered board whose modem sends the prompt and, 1300 ms
    after the terminator, the confirmation. *)
Lemma send_sms_confirmation_witness :
  (101 <= 101)%nat
  /\ gsm_connected (vars (online accepting)) = true
  /\ exists w',
      send_sms 101 ADMIN_NUMBER TEST_MESSAGE (online accepting)
      = Some (SmsSent, w')
      /\ now (hw w') = 2300
      /\ exists before,
          since (online accepting) w'
          = before ++ (1000, Tx CTRL_Z)
              :: received [(2300, (CRLF ++ "+CMGS: 17" ++ CRLF)%string)]
          /\ confirmed EmptyString
               [(2300, (CRLF ++ "+CMGS: 17" ++ CRLF)%string)] SmsSent.
Proof.
  assert (Hfuel : (101 <= 101)%nat) by lia.
  assert (Hconn : gsm_connected (vars (online accepting)) = true)
    by reflexivity.
  split; [exact Hfuel|]. split; [exact Hconn|].
  destruct (send_sms_confirmation 101 ADMIN_NUMBER TEST_MESSAGE
              (online accepting) Hfuel)
    as [o [w' [Hrun [_ [_ H]]]]].
  destruct (H Hconn)
    as [before [t0 [prompt [rest [Hsince [_ [_ [_ Hconf]]]]]]]].
  assert (Hout : exists w0,
             send_sms 101 ADMIN_NUMBER TEST_MESSAGE (online accepting)
             = Some (SmsSent, w0)
             /\ now (hw w0) = 2300
             /\ exists pre,
                 trace (hw w0)
                 = pre ++ [(900, Rx (CRLF ++ "> ")%string);
                           (900, Tx TEST_MESSAGE); (1000, Tx CTRL_Z);
                           (2300, Rx (CRLF ++ "+CMGS: 17" ++ CRLF)%string)]).
  { vm_compute. eexists. split; [reflexivity|]. split; [reflexivity|].
    eexists [_; _; _; _; _]. reflexivity. }
  destruct Hout as [w0 [Hrun0 [Hnow0 [pre Htrace0]]]].
  assert (E : (o, w') = (SmsSent, w0)) by congruence.
  injection E as -> ->.
  exists w0. split; [exact Hrun|]. split; [exact Hnow0|].
  exists (pre ++ [(900, Rx (CRLF ++ "> ")%string); (900, Tx TEST_MESSAGE)]).
  split.
  - unfold since. rewrite Htrace0.
    change (List.length (trace (hw (online accepting)))) with 0%nat.
    cbn [skipn]. rewrite <- app_assoc. reflexivity.
  - split.
    + intros p suf Hsplit Hsuf. destruct p as [|c p].
      * split; reflexivity.
      * cbn [app] in Hsplit. injection Hsplit as _ Hsplit.
        symmetry in Hsplit. apply app_eq_nil in Hsplit.
        destruct Hsplit as [_ Hs]. contradiction.
    + reflexivity.
Defined.

(** C4 over three iterations on a registered board with a fix. *)
Lemma flags_latch_witness :
  (101 <= 101)%nat
  /\ exists w',
      run 101 3 (online accepting) = Some (tt, w')
      /\ gsm_connected (vars w') = true
      /\ gps_fix_acquired (vars w') = true
      /\ ~ In "AT+CREG?"%string (at_commands (since (online accepting) w')).
Proof.
  assert (Hfuel : (101 <= 101)%nat) by lia.
  split; [exact Hfuel|].
  destruct (flags_latch 101 3 (online accepting) Hfuel)
    as [[] [w' [Hrun [Hconn [Hfix _]]]]].
  exists w'. split; [exact Hrun|].
  destruct (Hconn eq_refl) as [H1 [_ H2]].
  split; [exact H1|]. split; [exact (Hfix eq_refl) | exact H2].
Defined.

(** C5 on a registered board whose modem never answers, one interval after
    the anchor. *)
Lemma location_anchor_writes_witness :
  (101 <= 101)%nat
  /\ last_location_sent_ms (vars (online [])) = 0 mod TICKS_PERIOD
  /\ 60000 = (0 + 60000) mod TICKS_PERIOD
  /\ LOCATION_INTERVAL_MS <= 60000 < TICKS_PERIOD / 2
  /\ report_due 60000 (vars (online [])) = true
  /\ exists w',
      interval_location_reporting 101 60000 (online []) = Some (tt, w')
      /\ last_location_sent_ms (vars w') = 60000
      /\ sms_calls (since (online []) w')
         = [(ADMIN_NUMBER, get_current_location_string fixed)].
Proof.
  assert (Hfuel : (101 <= 101)%nat) by lia.
  assert (Hanchor : last_location_sent_ms (vars (online []))
                    = 0 mod TICKS_PERIOD) by reflexivity.
  assert (Hcur : 60000 = (0 + 60000) mod TICKS_PERIOD) by reflexivity.
  assert (Hd : LOCATION_INTERVAL_MS <= 60000 < TICKS_PERIOD / 2)
    by (split; [discriminate | reflexivity]).
  split; [exact Hfuel|]. split; [exact Hanchor|]. split; [exact Hcur|].
  split; [exact Hd|].
  pose proof (location_anchor_writes 101 60000 (online []) Hfuel) as H.
  cbv zeta in H.
  destruct H as [_ [_ [_ [_ [_ [_ [[[] [w' [Hrun [H1 H2]]]] Hdue]]]]]]].
  split; [exact (proj2 (Hdue 0 60000 Hanchor Hcur) Hd)|].
  exists w'. split; [exact Hrun|]. split; [exact H1 | exact H2].
Defined.

(** C6 (amended) on a board about to register, on a registered one, and
    on the iteration that registers while a location request arrives. *)
Lemma fix_notice_needs_registration_witness :
  (101 <= 101)%nat
  /\ gps_fix_acquired (vars (online [])) = true
  /\ (exists w',
         check_gsm_network 101 10000 (before_check [] "1") = Some (tt, w')
         /\ gsm_connected (vars w') = true
         /\ sms_calls (since (before_check [] "1") w')
            = [(ADMIN_NUMBER, ONLINE_NOTICE)])
  /\ (exists w',
         run 101 2 (online []) = Some (tt, w')
         /\ ~ In FIX_NOTICE (map snd (sms_calls (since (online []) w'))))
  /\ exists w',
      tick 101 registering = Some (tt, w')
      /\ gsm_connected (vars registering) = false
      /\ gsm_connected (vars w') = true
      /\ gps_fix_acquired (vars w') = true
      /\ sms_calls (since registering w')
         = [(ADMIN_NUMBER, ONLINE_NOTICE);
            (ADMIN_NUMBER, get_current_location_string fixed)].
Proof.
  assert (Hfuel : (101 <= 101)%nat) by lia.
  assert (Hacq : gps_fix_acquired (vars (online [])) = true) by reflexivity.
  split; [exact Hfuel|]. split; [exact Hacq|]. split; [|split].
  - destruct (fix_notice_needs_registration 101 10000 (before_check [] "1")
                Hfuel) as [_ [[[] [w' [Hrun [H Hreg]]]] _]].
    change (check_due 10000 (vars (before_check [] "1"))) with true in Hreg.
    destruct Hreg as [response [[_ Hanswer] Hconn]].
    assert (Hresp : response = creg_answer "1").
    { rewrite (Hanswer 1%nat); [reflexivity | lia | reflexivity |].
      vm_compute. discriminate. }
    rewrite Hresp in Hconn.
    change (creg_status (creg_answer "1")) with Registered in Hconn.
    exists w'. split; [exact Hrun|]. split; [exact Hconn|].
    rewrite H, Hconn. reflexivity.
  - destruct (fix_notice_needs_registration 101 10000 (online []) Hfuel)
      as [_ [_ [H _]]].
    destruct (H Hacq 2%nat) as [[] [w' [Hrun Hno]]].
    exists w'. split; [exact Hrun | exact Hno].
  - destruct (fix_notice_needs_registration 101 10000 registering Hfuel)
      as [_ [_ [_ [[] [w' [Hrun [others [Hcalls [Hothers [_ [_ Hfix]]]]]]]]]]].
    assert (Hout : exists w0,
               tick 101 registering = Some (tt, w0)
               /\ gsm_connected (vars w0) = true
               /\ sms_calls (since registering w0)
                  = [(ADMIN_NUMBER, ONLINE_NOTICE);
                     (ADMIN_NUMBER, get_current_location_string fixed)]).
    { vm_compute. eexists. split; [reflexivity|]. split; reflexivity. }
    destruct Hout as [w0 [Hrun0 [Hconn0 Hcalls0]]].
    assert (E : w' = w0) by congruence. subst w0.
    exists w'. split; [exact Hrun|]. split; [reflexivity|].
    split; [exact Hconn0|]. split; [rewrite Hfix; reflexivity|].
    exact Hcalls0.
Defined.

(** C7 (amended) on a registered board that has just received the request. *)
Lemma location_request_reply_witness :
  (101 <= 101)%nat
  /\ arrived (now (hw asked_online)) (gsm_uart_rx (hw asked_online)) = request
  /\ truthy request = true
  /\ exists w' evs,
      check_incoming_sms 101 asked_online = Some (tt, w')
      /\ since asked_online w' = (0, Rx request) :: evs
      /\ sms_calls evs
         = [(ADMIN_NUMBER, get_current_location_string fixed)].
Proof.
  assert (Hfuel : (101 <= 101)%nat) by lia.
  assert (Hchunk : arrived (now (hw asked_online))
                     (gsm_uart_rx (hw asked_online)) = request)
    by reflexivity.
  assert (Htruthy : truthy request = true) by reflexivity.
  split; [exact Hfuel|]. split; [exact Hchunk|]. split; [exact Htruthy|].
  destruct (location_request_reply 101 asked_online request Hfuel Hchunk
              Htruthy) as [[] [w' [Hrun [_ [evs [H1 [H2 _]]]]]]].
  exists w', evs. split; [exact Hrun|]. split; [exact H1 | exact H2].
Defined.

(** C1 (amended) on the iteration that decodes a 3D fix. *)
Lemma fix_flag_latches_witness :
  (101 <= 101)%nat
  /\ exists w',
      tick 101 fix_then_void = Some (tt, w')
      /\ gps_fix_acquired (vars w')
         = gps_fix_acquired (vars fix_then_void)
           || ((gps_fix_type (gps_parser (vars w')) >=? 2)
               && has_valid_gps_data (gps_parser (vars w'))).
Proof.
  assert (Hfuel : (101 <= 101)%nat) by lia.
  split; [exact Hfuel|].
  destruct (fix_flag_latches 101 fix_then_void Hfuel)
    as [_ [[] [w' [Hrun [_ H]]]]].
  exists w'. split; [exact Hrun | exact H].
Defined.

(** C1, as stated, fails.  With a position decoded while the fix type is
    still 1, [has_valid_gps_data] is already true; and after a 3D fix, a
    void sentence makes it false again. *)
Lemma has_valid_gps_data_follows_decoder :
  (exists w1,
      run 101 1 position_without_fix = Some (tt, w1)
      /\ has_valid_gps_data (gps_parser (vars w1)) = true
      /\ gps_fix_type (gps_parser (vars w1)) = 1)
  /\ (exists w1 w2,
         run 101 1 fix_then_void = Some (tt, w1)
         /\ has_valid_gps_data (gps_parser (vars w1)) = true
         /\ gps_fix_type (gps_parser (vars w1)) = 3
         /\ run 101 1 w1 = Some (tt, w2)
         /\ has_valid_gps_data (gps_parser (vars w2)) = false).
Proof.
  split.
  - eexists. split; [vm_compute; reflexivity|]. split; reflexivity.
  - eexists. eexists. split; [vm_compute; reflexivity|].
    split; [reflexivity|]. split; [reflexivity|].
    split; [vm_compute; reflexivity | reflexivity].
Qed.

(** C2, as stated, fails.  The answer "+CREG: 0,10" carries a status code
    that is neither 1 nor 5, and the loop registers on it. *)
Lemma creg_status_matches_prefix :
  creg_status (creg_answer "10") = Registered
  /\ exists w',
      run 101 2 (before_check [] "10") = Some (tt, w')
      /\ gsm_connected (vars w') = true.
Proof.
  split; [reflexivity|].
  eexists. split; [vm_compute; reflexivity | reflexivity].
Qed.

(** C6, as stated, fails.  The decoder holds a valid fix, the next
    iteration registers on "+CREG: 0,1", and after one more iteration the
    only SMS attempted is the online notice: no fix message, no location. *)
Lemma no_fix_notice_after_registration :
  exists w1 w3,
    run 101 1 (before_check [(0, "A"%string)] "1") = Some (tt, w1)
    /\ gps_fix_acquired (vars w1) = true
    /\ has_valid_gps_data (gps_parser (vars w1)) = true
    /\ gsm_connected (vars w1) = false
    /\ sms_calls (trace (hw w1)) = []
    /\ run 101 2 w1 = Some (tt, w3)
    /\ gsm_connected (vars w3) = true
    /\ sms_calls (trace (hw w3)) = [(ADMIN_NUMBER, ONLINE_NOTICE)].
Proof.
  eexists. eexists. split; [vm_compute; reflexivity|].
  split; [reflexivity|]. split; [reflexivity|]. split; [reflexivity|].
  split; [reflexivity|].
  split; [vm_compute; reflexivity|]. split; reflexivity.
Qed.

(** C7, as stated, fails.  A chunk with "+CMT:" and "Location" read while
    [gsm_connected] is false makes the loop call [send_sms], and the call
    writes nothing to the modem: no reply is sent. *)
Lemma location_request_unanswered_offline :
  location_request request = true
  /\ exists w',
      tick 101 asked_offline = Some (tt, w')
      /\ sms_calls (trace (hw w'))
         = [(ADMIN_NUMBER, get_current_location_string fixed)]
      /\ tx_bytes (trace (hw w')) = [].
Proof.
  split; [reflexivity|].
  eexists. split; [vm_compute; reflexivity|]. split; reflexivity.
Qed.

(** ** The further properties on concrete runs *)

(** X1 on the registration query of a board whose modem answers. *)
Lemma send_at_command_io_witness :
  100 * Z.of_nat 20 + 100 <= 2 ^ 29
  /\ (20 < 101)%nat
  /\ exists r w',
      send_at_command 101 "AT+CREG?" 500 (100 * Z.of_nat 20)
        (before_check [] "1") = Some (r, w')
      /\ tx_bytes (since (before_check [] "1") w')
         = [("AT+CREG?" ++ CRLF)%string]
      /\ at_commands (since (before_check [] "1") w') = ["AT+CREG?"%string]
      /\ modem_frame (before_check [] "1") w'.
Proof.
  assert (Hq : 100 * Z.of_nat 20 + 100 <= 2 ^ 29)
    by (vm_compute; discriminate).
  assert (Hfuel : (20 < 101)%nat) by lia.
  split; [exact Hq|]. split; [exact Hfuel|].
  destruct (send_at_command_io 101 "AT+CREG?" 500 20 (before_check [] "1")
              Hq Hfuel)
    as [r [w' [Hrun [H1 [H2 [_ H3]]]]]].
  exists r, w'. auto.
Defined.

(** X2 on the probe of a silent modem. *)
Lemma send_at_command_latency_witness :
  100 * Z.of_nat 20 + 100 <= 2 ^ 29
  /\ (20 < 101)%nat
  /\ exists r w',
      send_at_command 101 "AT" 1000 (100 * Z.of_nat 20) cold = Some (r, w')
      /\ r = EmptyString
      /\ now (hw w') = now (hw cold) + 100 * Z.of_nat 20.
Proof.
  assert (Hq : 100 * Z.of_nat 20 + 100 <= 2 ^ 29)
    by (vm_compute; discriminate).
  assert (Hfuel : (20 < 101)%nat) by lia.
  split; [exact Hq|]. split; [exact Hfuel|].
  destruct (send_at_command_latency 101 "AT" 1000 20 cold Hq Hfuel)
    as [r [w' [Hrun [_ [H1 [_ H2]]]]]].
  assert (Hr : r = EmptyString) by (apply H2; intros c []).
  exists r, w'. split; [exact Hrun|]. split; [exact Hr | exact (H1 Hr)].
Defined.

(** X3 on a registered board whose modem accepts the SMS. *)
Lemma send_sms_bytes_witness :
  (101 <= 101)%nat
  /\ exists o w',
      send_sms 101 ADMIN_NUMBER TEST_MESSAGE (online accepting) = Some (o, w')
      /\ o <> NotConnected
      /\ tx_bytes (since (online accepting) w')
         = match o with
           | NotConnected => []
           | NoPrompt =>
               [("AT+CMGF=1" ++ CRLF)%string; cmgs_command ADMIN_NUMBER; ESC]
           | SmsSent | SmsError | SmsTimeout =>
               [("AT+CMGF=1" ++ CRLF)%string; cmgs_command ADMIN_NUMBER;
                TEST_MESSAGE; CTRL_Z]
           end.
Proof.
  assert (Hfuel : (101 <= 101)%nat) by lia.
  split; [exact Hfuel|].
  destruct (send_sms_bytes 101 ADMIN_NUMBER TEST_MESSAGE (online accepting)
              Hfuel)
    as [o [w' [Hrun [H1 H2]]]].
  exists o, w'. split; [exact Hrun|]. split; [|exact H1].
  intros Ho. apply H2 in Ho. discriminate Ho.
Defined.

(** X4 on a registered board whose modem accepts the SMS. *)
Lemma send_sms_latency_witness :
  (101 <= 101)%nat
  /\ exists o w',
      send_sms 101 ADMIN_NUMBER TEST_MESSAGE (online accepting) = Some (o, w')
      /\ now (hw (online accepting)) <= now (hw w')
         <= now (hw (online accepting)) + 18600
      /\ modem_frame (online accepting) w'.
Proof.
  assert (Hfuel : (101 <= 101)%nat) by lia.
  split; [exact Hfuel|].
  destruct (send_sms_latency 101 ADMIN_NUMBER TEST_MESSAGE (online accepting)
              Hfuel)
    as [o [w' [Hrun [H1 [_ H2]]]]].
  exists o, w'. auto.
Defined.

(** X5 on a registered board whose modem never answers. *)
Lemma send_sms_silent_modem_witness :
  (101 <= 101)%nat
  /\ gsm_connected (vars (online [])) = true
  /\ (forall c, In c (gsm_uart_rx (hw (online []))) ->
                fst c <= now (hw (online []))
                \/ now (hw (online [])) + 8000 <= fst c)
  /\ exists w',
      send_sms 101 ADMIN_NUMBER TEST_MESSAGE (online []) = Some (NoPrompt, w')
      /\ now (hw w') = now (hw (online [])) + 8000
      /\ tx_bytes (since (online []) w')
         = [("AT+CMGF=1" ++ CRLF)%string; cmgs_command ADMIN_NUMBER; ESC].
Proof.
  assert (Hfuel : (101 <= 101)%nat) by lia.
  assert (Hconn : gsm_connected (vars (online [])) = true) by reflexivity.
  assert (Hsilent : forall c, In c (gsm_uart_rx (hw (online []))) ->
                      fst c <= now (hw (online []))
                      \/ now (hw (online [])) + 8000 <= fst c)
    by (intros c []).
  split; [exact Hfuel|]. split; [exact Hconn|]. split; [exact Hsilent|].
  destruct (send_sms_silent_modem 101 ADMIN_NUMBER TEST_MESSAGE (online [])
              Hfuel Hconn Hsilent)
    as [o [w' [Hrun [Ho [H1 [H2 _]]]]]].
  exists w'. rewrite <- Ho. auto.
Defined.

(** X6 on the scripted decoder after a 3D fix. *)
Lemma location_string_shape_witness :
  has_valid_gps_data fixed = true
  /\ get_current_location_string fixed <> NO_SIGNAL
  /\ exists lat lon time,
      get_current_location_string fixed
      = ("Location: " ++ @gps_latitude_string decoder fixed ++ ", "
           ++ @gps_longitude_string decoder fixed ++ NL
           ++ "Time: " ++ time ++ NL
           ++ "Map: http://maps.google.com/maps?q=" ++ @float_str decoder lat
           ++ "," ++ @float_str decoder lon)%string.
Proof.
  assert (Hvalid : has_valid_gps_data fixed = true) by reflexivity.
  destruct (@location_string_shape decoder fixed) as [H1 H2].
  split; [exact Hvalid|]. split.
  - intros E. apply H1 in E. rewrite Hvalid in E. discriminate E.
  - destruct (H2 Hvalid) as [lat [lon [time [_ [_ [_ [_ H]]]]]]].
    exists lat, lon, time. exact H.
Defined.

(** X7 on the scripted decoders after a 3D fix: the float hour of the
    decoder with the offset of [main.py], the integer hour of the one
    without offset. *)
Lemma location_string_time_witness :
  @has_valid_gps_data decoder fixed = true
  /\ @has_valid_gps_data utc_decoder fixed = true
  /\ @gps_latitude0 decoder fixed = Some (2861 # 100)%Q
  /\ @gps_longitude0 decoder fixed = Some (7720 # 100)%Q
  /\ @gps_date decoder fixed = (PyInt 3, PyInt 11, PyInt 26)
  /\ @gps_timestamp decoder fixed
     = (PyFloat (29 # 2), PyInt 5, PyFloat (61 # 2))
  /\ @gps_timestamp utc_decoder fixed
     = (PyInt 9, PyInt 5, PyFloat (61 # 2))
  /\ (exists time,
         @get_current_location_string decoder fixed
         = ("Location: 28.61 N, 77.2 E" ++ NL ++ "Time: " ++ time ++ NL
              ++ "Map: http://maps.google.com/maps?q=28.61,77.2")%string
         /\ time = "N/A"%string)
  /\ exists time,
      @get_current_location_string utc_decoder fixed
      = ("Location: 28.61 N, 77.2 E" ++ NL ++ "Time: " ++ time ++ NL
           ++ "Map: http://maps.google.com/maps?q=28.61,77.2")%string
      /\ time = "03/11/2026 09:05:30"%string
      /\ String.length time = 19%nat.
Proof.
  assert (Hvalid : @has_valid_gps_data decoder fixed = true) by reflexivity.
  assert (Hvalid' : @has_valid_gps_data utc_decoder fixed = true)
    by reflexivity.
  assert (Hlat : @gps_latitude0 decoder fixed = Some (2861 # 100)%Q)
    by reflexivity.
  assert (Hlon : @gps_longitude0 decoder fixed = Some (7720 # 100)%Q)
    by reflexivity.
  assert (Hdate : @gps_date decoder fixed = (PyInt 3, PyInt 11, PyInt 26))
    by reflexivity.
  assert (Htime : @gps_timestamp decoder fixed
                  = (PyFloat (29 # 2), PyInt 5, PyFloat (61 # 2)))
    by reflexivity.
  assert (Htime' : @gps_timestamp utc_decoder fixed
                   = (PyInt 9, PyInt 5, PyFloat (61 # 2)))
    by reflexivity.
  split; [exact Hvalid|]. split; [exact Hvalid'|]. split; [exact Hlat|].
  split; [exact Hlon|]. split; [exact Hdate|]. split; [exact Htime|].
  split; [exact Htime'|]. split.
  - destruct (@location_string_time decoder fixed _ _ _ _ _ _ _ _
                Hvalid Hlat Hlon Hdate Htime)
      as [time [H1 [_ [H2 _]]]].
    exists time. split; [exact H1|]. apply H2. left.
    exists (PyFloat (29 # 2)). split; [|reflexivity].
    right. right. right. left. reflexivity.
  - destruct (@location_string_time utc_decoder fixed _ _ _ _ _ _ _ _
                Hvalid' Hlat Hlon Hdate Htime')
      as [time [H1 [_ [_ H2]]]].
    assert (Hday : 3 <> 0) by discriminate.
    destruct (H2 3 11 26 9 5 30 eq_refl Hday eq_refl eq_refl eq_refl
                eq_refl)
      as [H3 H4].
    { right. exists (61 # 2)%Q. split; reflexivity. }
    exists time. split; [exact H1|]. split; [exact H3|].
    apply H4; split; discriminate.
Defined.

(** X8 on a registered board one interval after the anchor, and on a
    request that reaches a board with a fix. *)
Lemma report_text_witness :
  (101 <= 101)%nat
  /\ (exists w',
         interval_location_reporting 101 60000 (online []) = Some (tt, w')
         /\ forall n m, In (n, m) (sms_calls (since (online []) w')) ->
                        n = ADMIN_NUMBER /\ m <> NO_SIGNAL)
  /\ exists w',
      check_incoming_sms 101 asked_online = Some (tt, w')
      /\ forall n m, In (n, m) (sms_calls (since asked_online w')) ->
                     n = ADMIN_NUMBER /\ m <> NO_SIGNAL.
Proof.
  assert (Hfuel : (101 <= 101)%nat) by lia.
  split; [exact Hfuel|].
  destruct (report_text 101 60000 (online []) Hfuel)
    as [[[] [w1 [Hrun1 H1]]] _].
  destruct (report_text 101 60000 asked_online Hfuel)
    as [_ [[] [w2 [Hrun2 H2]]]].
  split.
  - exists w1. split; [exact Hrun1|]. intros n m Hin.
    destruct (H1 n m Hin) as [A [B _]]. auto.
  - exists w2. split; [exact Hrun2|]. intros n m Hin.
    destruct (H2 n m Hin) as [A B]. split; [exact A|].
    intros E. apply B in E. discriminate E.
Defined.

(** X9 on a board whose registration check is due. *)
Lemma registration_check_pacing_witness :
  (101 <= 101)%nat
  /\ check_due 10000 (vars (before_check [] "1")) = true
  /\ exists w',
      check_gsm_network 101 10000 (before_check [] "1") = Some (tt, w')
      /\ last_gsm_check_ms (vars w') = 10000
      /\ count_occ string_dec
           (at_commands (since (before_check [] "1") w')) "AT+CREG?"%string
         = 1%nat.
Proof.
  assert (Hfuel : (101 <= 101)%nat) by lia.
  split; [exact Hfuel|]. split; [reflexivity|].
  destruct (registration_check_pacing 101 10000 (before_check [] "1") Hfuel)
    as [[[] [w' [Hrun [H1 [H2 _]]]]] _].
  exists w'. split; [exact Hrun|]. split; [exact H1 | exact H2].
Defined.

(** X10 over three iterations after a failed probe. *)
Lemma failed_probe_silences_modem_witness :
  (101 <= 101)%nat
  /\ gsm_initialized (vars cold) = false
  /\ gsm_connected (vars cold) = false
  /\ exists w',
      run 101 3 cold = Some (tt, w')
      /\ gsm_connected (vars w') = false
      /\ tx_bytes (since cold w') = []
      /\ at_commands (since cold w') = [].
Proof.
  assert (Hfuel : (101 <= 101)%nat) by lia.
  split; [exact Hfuel|]. split; [reflexivity|]. split; [reflexivity|].
  destruct (failed_probe_silences_modem 101 3 cold Hfuel)
    as [[] [w' [Hrun [_ H]]]].
  exists w'. split; [exact Hrun|]. exact (H eq_refl eq_refl).
Defined.

(** X11 over three iterations on a board that is refused registration. *)
Lemma only_queries_until_registered_witness :
  (101 <= 101)%nat
  /\ exists w',
      run 101 3 (before_check [] "0") = Some (tt, w')
      /\ (gsm_connected (vars w') = false ->
          forall b, In b (tx_bytes (since (before_check [] "0") w')) ->
                    b = ("AT+CREG?" ++ CRLF)%string).
Proof.
  assert (Hfuel : (101 <= 101)%nat) by lia.
  split; [exact Hfuel|].
  destruct (only_queries_until_registered 101 3 (before_check [] "0") Hfuel)
    as [[] [w' [Hrun H]]].
  exists w'. split; [exact Hrun|].
  intros Hoff. exact (proj1 (proj2 (H Hoff))).
Defined.

(** X12 over three iterations on a registered board. *)
Lemma loop_duration_witness :
  (101 <= 101)%nat
  /\ exists w',
      run 101 3 (online accepting) = Some (tt, w')
      /\ now (hw (online accepting)) + 50 * Z.of_nat 3
         <= now (hw w')
         <= now (hw (online accepting)) + 76950 * Z.of_nat 3.
Proof.
  assert (Hfuel : (101 <= 101)%nat) by lia.
  split; [exact Hfuel|].
  destruct (loop_duration 101 3 (online accepting) Hfuel)
    as [_ [[] [w' [Hrun H]]]].
  exists w'. split; [exact Hrun | exact H].
Defined.

(** X13 at power-on with a modem that answers the probe, and with one
    that stays silent. *)
Lemma boot_sequence_witness :
  (101 <= 101)%nat
  /\ (exists w',
         boot 101 (power_on answering) = Some (tt, w')
         /\ gsm_initialized (vars w') = true
         /\ at_commands (since (power_on answering) w')
            = ["AT"; "ATE0"; "AT+CMGF=1"; "AT+CNMI=2,1,0,0,0"]%string
         /\ sms_calls (since (power_on answering) w') = []
         /\ now (hw w') <= now (hw (power_on answering)) + 13500)
  /\ exists w',
      boot 101 cold = Some (tt, w')
      /\ gsm_initialized (vars w') = false
      /\ at_commands (since cold w') = ["AT"%string].
Proof.
  assert (Hfuel : (101 <= 101)%nat) by lia.
  split; [exact Hfuel|]. split.
  - destruct (boot_sequence 101 (power_on answering) Hfuel)
      as [[] [w' [Hrun [response [probe [rest
           [_ [_ [[_ Hanswer] [Hv [H1 [_ [H2 [_ H3]]]]]]]]]]]]]].
    assert (Hresp : response = (CRLF ++ "OK" ++ CRLF ++ CRLF ++ "> ")%string).
    { rewrite (Hanswer 2%nat); [reflexivity | lia | reflexivity |].
      vm_compute. discriminate. }
    assert (Hinit : gsm_initialized (vars w') = true)
      by (rewrite Hv, Hresp; reflexivity).
    rewrite Hinit in H1.
    exists w'. auto.
  - destruct (boot_sequence 101 cold Hfuel)
      as [[] [w' [Hrun [response [probe [rest
           [_ [_ [[Hsilent _] [Hv [H1 _]]]]]]]]]]].
    assert (Hresp : response = EmptyString)
      by (apply Hsilent; reflexivity).
    assert (Hinit : gsm_initialized (vars w') = false)
      by (rewrite Hv, Hresp; reflexivity).
    rewrite Hinit in H1.
    exists w'. auto.
Defined.

(** X14 over three iterations from power-on, with and without start-up. *)
Lemma leds_show_flags_witness :
  (101 <= 101)%nat
  /\ gsm_led (hw cold) = gsm_connected (vars cold)
  /\ gps_led (hw cold) = gps_fix_acquired (vars cold)
  /\ gsm_led answering = false
  /\ gps_led answering = false
  /\ (exists w',
         run 101 3 cold = Some (tt, w')
         /\ gsm_led (hw w') = gsm_connected (vars w')
         /\ gps_led (hw w') = gps_fix_acquired (vars w'))
  /\ exists w',
      program 101 3 (power_on answering) = Some (tt, w')
      /\ gsm_led (hw w') = gsm_connected (vars w')
      /\ gps_led (hw w') = gps_fix_acquired (vars w').
Proof.
  assert (Hfuel : (101 <= 101)%nat) by lia.
  assert (Hgsm : gsm_led (hw cold) = gsm_connected (vars cold))
    by reflexivity.
  assert (Hgps : gps_led (hw cold) = gps_fix_acquired (vars cold))
    by reflexivity.
  assert (Hoff1 : gsm_led answering = false) by reflexivity.
  assert (Hoff2 : gps_led answering = false) by reflexivity.
  split; [exact Hfuel|]. split; [exact Hgsm|]. split; [exact Hgps|].
  split; [exact Hoff1|]. split; [exact Hoff2|].
  destruct (leds_show_flags 101 3 Hfuel) as [H1 H2].
  destruct (H1 cold Hgsm Hgps) as [[] [w1 [Hrun1 [A1 B1]]]].
  destruct (H2 answering Hoff1 Hoff2) as [[] [w2 [Hrun2 [A2 B2]]]].
  split; [exists w1 | exists w2]; auto.
Defined.

(** X15 over two iterations on a GPS line that delivers a fix and, 50 ms
    later, a void sentence: the second iteration starts at 50 ms and both
    sentences have been fed. *)
Lemma gps_bytes_in_order_witness :
  (101 <= 101)%nat
  /\ time_ordered (gps_uart_rx (hw fix_then_void))
  /\ exists wl w',
      run 101 1 fix_then_void = Some (tt, wl)
      /\ tick 101 wl = Some (tt, w')
      /\ run 101 2 fix_then_void = Some (tt, w')
      /\ now (hw wl) = 50
      /\ arrived (now (hw wl)) (gps_uart_rx (hw fix_then_void))
         = "AV"%string
      /\ gps_parser (vars w')
         = fold_left gps_update (list_ascii_of_string "AV")
             (gps_parser (vars fix_then_void))
      /\ gps_uart_rx (hw w') = [].
Proof.
  assert (Hfuel : (101 <= 101)%nat) by lia.
  assert (Hord : time_ordered (gps_uart_rx (hw fix_then_void))).
  { cbn. split; [|split; [intros c [] | exact I]].
    intros c [<-|[]]. cbn. lia. }
  split; [exact Hfuel|]. split; [exact Hord|].
  destruct (gps_bytes_in_order 101 1 fix_then_void Hfuel Hord)
    as [[] [wl [Hrun1 [[] [w' [Htick [Hrun2 [_ [Hp Hsplit]]]]]]]]].
  assert (Hout : exists w0,
             run 101 1 fix_then_void = Some (tt, w0) /\ now (hw w0) = 50).
  { vm_compute. eexists. split; reflexivity. }
  destruct Hout as [w0 [Hrun0 Hnow0]].
  assert (E : wl = w0) by congruence. subst w0.
  assert (Harr : arrived (now (hw wl)) (gps_uart_rx (hw fix_then_void))
                 = "AV"%string) by (rewrite Hnow0; reflexivity).
  exists wl, w'. split; [exact Hrun1|]. split; [exact Htick|].
  split; [exact Hrun2|]. split; [exact Hnow0|]. split; [exact Harr|].
  split; [rewrite <- Harr; exact Hp|].
  assert (Hout : exists w0,
             run 101 2 fix_then_void = Some (tt, w0)
             /\ gps_uart_rx (hw w0) = []).
  { vm_compute. eexists. split; reflexivity. }
  destruct Hout as [w0 [Hrun0' Hrx0]].
  assert (E : w' = w0) by congruence. now subst w0.
Defined.

(** X16 on the line " T" typed at the console of a registered board. *)
Lemma console_line_witness :
  (101 <= 101)%nat
  /\ has_select (hw typing) = true
  /\ stdin_rx (hw typing)
     = [(0, " "%char); (0, "T"%char)] ++ [(0, "010"%char)]
  /\ (forall k, In k [(0, " "%char); (0, "T"%char)] ->
                fst k <= now (hw typing) /\ is_newline (snd k) = false)
  /\ 0 <= now (hw typing)
  /\ is_newline "010"%char = true
  /\ exists w',
      run 101 3 typing = Some (tt, w')
      /\ stdin_rx (hw w') = []
      /\ input_buffer (vars w') = EmptyString
      /\ In (ADMIN_NUMBER, TEST_MESSAGE) (sms_calls (since typing w')).
Proof.
  assert (Hfuel : (101 <= 101)%nat) by lia.
  assert (Hsel : has_select (hw typing) = true) by reflexivity.
  assert (Hin : stdin_rx (hw typing)
                = [(0, " "%char); (0, "T"%char)] ++ [(0, "010"%char)])
    by reflexivity.
  assert (Hkeys : forall k, In k [(0, " "%char); (0, "T"%char)] ->
                    fst k <= now (hw typing) /\ is_newline (snd k) = false).
  { intros k [<-|[<-|[]]]; split; solve [reflexivity | cbn; lia]. }
  assert (Ht : 0 <= now (hw typing)) by (cbn; lia).
  assert (Hnl : is_newline "010"%char = true) by reflexivity.
  split; [exact Hfuel|]. split; [exact Hsel|]. split; [exact Hin|].
  split; [exact Hkeys|]. split; [exact Ht|]. split; [exact Hnl|].
  destruct (console_line 101 [(0, " "%char); (0, "T"%char)] 0 "010"%char []
              typing Hfuel Hsel Hin Hkeys Ht Hnl)
    as [[] [w' [Hrun [H1 [H2 H3]]]]].
  exists w'. split; [exact Hrun|]. split; [exact H1|]. split; [exact H2|].
  apply H3. reflexivity.
Defined.
